(** * my-chrome-translate: the translation orchestrator and its callers

    A shallow embedding of the decision logic of the extension:

    - [Content]: the gate of the content script
      ([triggerTranslateFromSelection], [isProbablyEnglish],
      [isSingleWord]) that decides whether a request message is sent;
    - [Background]: the service worker ([getUserSettings],
      [getProvidersOrder], [translateWithLibre], [translateWithMyMemory],
      [fetchDictionary], [handleTranslateAndDefine] and the message
      listener), as a state-and-exception monad over the two caches, the
      log of network calls, the count of storage reads and the console.

    JavaScript values are a JSON-like tree.  Strings are byte strings
    holding UTF-8, an unpaired surrogate being written in its three-byte
    form (a pair is the four-byte character it stands for); numbers are
    kept as their canonical
    [Number.prototype.toString] text, which is all this program observes
    of a number besides its truthiness.  Every awaited promise is assumed
    to settle: a [fetch] that never answers is outside the model.
    Requests are handled one after the other; two handlers interleaving
    at their [await]s are outside the model too. *)

From stdpp Require Import gmap strings list pretty.
From Stdlib Require Import ZArith Lia Ascii.

Set Warnings "-register-all,-notation-for-abbreviation".
Open Scope string_scope.

(* ================================================================== *)
(** ** JavaScript values *)
(* ================================================================== *)

Module Js.

Inductive value : Type :=
| Undefined
| Null
| Bool (b : bool)
| Num (repr : string)
| Str (s : string)
| Arr (elems : list value)
| Obj (fields : list (string * value)).

(** ToBoolean.  The canonical text of a number is "0" for both zeroes
    and "NaN" for NaN. *)
Definition truthy (v : value) : bool :=
  match v with
  | Undefined | Null => false
  | Bool b => b
  | Num r => negb (String.eqb r "0" || String.eqb r "NaN")
  | Str s => negb (String.eqb s "")
  | Arr _ | Obj _ => true
  end.

(** [a || b] *)
Definition or (a b : value) : value := if truthy a then a else b.

Inductive exn : Type :=
| Error (msg : string)      (* [throw new Error(msg)] *)
| TypeError                 (* raised by the runtime *)
| NetworkFailure            (* [fetch] rejected *)
| BodyParseError            (* [response.json()] rejected *)
| URIError.                 (* [encodeURIComponent] on a lone surrogate *)

Inductive res (A : Type) : Type :=
| Val (a : A)
| Throw (e : exn).
Arguments Val {A} a.
Arguments Throw {A} e.

Fixpoint assoc (k : string) (fields : list (string * value)) : value :=
  match fields with
  | [] => Undefined
  | (k', v) :: rest => if String.eqb k k' then v else assoc k rest
  end.

(** [v.k] for the property names this program reads (none of them is a
    built-in property of a primitive or of an array, so those answer
    [undefined]).  Reading a property of [undefined] or [null] throws. *)
Definition get (v : value) (k : string) : res value :=
  match v with
  | Undefined | Null => Throw TypeError
  | Obj fields => Val (assoc k fields)
  | _ => Val Undefined
  end.

(** [v?.k] *)
Definition get_opt (v : value) (k : string) : value :=
  match v with
  | Obj fields => assoc k fields
  | _ => Undefined
  end.

Definition is_string (v : value) : bool :=
  match v with Str _ => true | _ => false end.

(** ToString, as string concatenation and [encodeURIComponent] apply it.
    An array joins its elements with commas, [null] and [undefined]
    elements printing as nothing. *)
Fixpoint to_string (v : value) : string :=
  match v with
  | Undefined => "undefined"
  | Null => "null"
  | Bool true => "true"
  | Bool false => "false"
  | Num r => r
  | Str s => s
  | Arr l =>
      (fix join (l : list value) : string :=
         match l with
         | [] => ""
         | x :: rest =>
             let sx := match x with
                       | Undefined | Null => ""
                       | _ => to_string x
                       end in
             match rest with
             | [] => sx
             | _ => sx +:+ "," +:+ join rest
             end
         end) l
  | Obj _ => "[object Object]"
  end.

(** *** Strings: UTF-8 text seen as JavaScript sees it *)

Definition byte_val (a : ascii) : N := N_of_ascii a.

Definition is_continuation (a : ascii) : bool :=
  ((128 <=? byte_val a) && (byte_val a <? 192))%N.

Definition starts_with_continuation (s : string) : bool :=
  match s with
  | String a _ => is_continuation a
  | EmptyString => false
  end.

(** One string per encoded character: a chunk is a lead byte with the
    continuation bytes that follow it. *)
Fixpoint utf8_chars (s : string) : list string :=
  match s with
  | EmptyString => []
  | String a rest =>
      match utf8_chars rest with
      | c :: cs =>
          if starts_with_continuation c
          then String a c :: cs
          else String a EmptyString :: c :: cs
      | [] => [String a EmptyString]
      end
  end.

Fixpoint continuation_bits (acc : N) (s : string) : N :=
  match s with
  | EmptyString => acc
  | String a rest => continuation_bits (acc * 64 + (byte_val a - 128))%N rest
  end.

Definition codepoint (c : string) : N :=
  match c with
  | EmptyString => 0%N
  | String a rest =>
      let b := byte_val a in
      let lead := if (b <? 128)%N then b
                  else if (b <? 224)%N then (b - 192)%N
                  else if (b <? 240)%N then (b - 224)%N
                  else (b - 240)%N in
      continuation_bits lead rest
  end.

(** The characters [String.prototype.trim] strips and the regular
    expression class [\s] matches: WhiteSpace and LineTerminator. *)
Definition is_js_space (cp : N) : bool :=
  (bool_decide (cp ∈ [9; 10; 11; 12; 13; 32; 160; 5760; 8232; 8233; 8239;
                      8287; 12288; 65279])
   || ((8192 <=? cp) && (cp <=? 8202)))%N.

Definition is_space_char (c : string) : bool := is_js_space (codepoint c).

Fixpoint drop_spaces (cs : list string) : list string :=
  match cs with
  | c :: rest => if is_space_char c then drop_spaces rest else cs
  | [] => []
  end.

Definition concat_chars (cs : list string) : string :=
  foldr String.append "" cs.

(** [s.trim()] *)
Definition trim (s : string) : string :=
  concat_chars (rev (drop_spaces (rev (drop_spaces (utf8_chars s))))).

(** [t] is [s] without the white space at its two ends: the characters
    of [s] are a run of white space, then those of [t], then a run of
    white space, and [t] neither starts nor ends with white space. *)
Definition strippedOf (s t : string) : Prop :=
  exists pre core suf,
    utf8_chars s = (pre ++ core ++ suf)%list
    /\ forallb is_space_char pre = true
    /\ forallb is_space_char suf = true
    /\ (forall c, head core = Some c -> is_space_char c = false)
    /\ (forall c, last core = Some c -> is_space_char c = false)
    /\ t = concat_chars core.

(** [s.length]: UTF-16 code units, two for a character outside the
    basic plane (a four-byte encoding). *)
Definition utf16_units (c : string) : nat :=
  if (String.length c =? 4)%nat then 2 else 1.

Definition length16 (cs : list string) : nat :=
  foldr (fun c n => utf16_units c + n) 0 cs.

Definition is_ascii_letter (a : ascii) : bool :=
  let b := byte_val a in
  (((65 <=? b) && (b <=? 90)) || ((97 <=? b) && (b <=? 122)))%N.

(** A surrogate code point, U+D800 to U+DFFF: as a character of its
    own it is an unpaired one. *)
Definition is_surrogate (c : string) : bool :=
  ((55296 <=? codepoint c) && (codepoint c <=? 57343))%N.

Definition hasLoneSurrogate (s : string) : bool :=
  existsb is_surrogate (utf8_chars s).

(** [encodeURIComponent(s)]: it throws on a lone surrogate; where it
    does not, it is injective, and the encoded text is identified with
    the text it encodes. *)
Definition encodeURIComponent (s : string) : res string :=
  if hasLoneSurrogate s then Throw URIError else Val s.

End Js.

(* ================================================================== *)
(** ** The background service worker *)
(* ================================================================== *)

Module Background.
Import Js.

(** The object a translation provider call returns and the cache keeps:
    [{ translation, provider }]. *)
Record TranslationResult : Type := mkTranslation {
  translation : value;
  provider : string
}.

(** What [fetchDictionary] returns when it has something:
    [{ ipa, audio }], [None] standing for [null]. *)
Record DictionaryEntry : Type := mkDict {
  ipa : option string;
  audio : option string
}.

(** The settings object [getUserSettings] resolves with. *)
Record Settings : Type := mkSettings {
  s_provider : value;
  s_theme : value;
  s_ttsRate : value;
  s_ttsVoice : value;
  s_showPronounce : value
}.

Definition DEFAULT_SETTINGS : Settings :=
  {| s_provider := Str "auto";
     s_theme := Str "auto";
     s_ttsRate := Num "1";
     s_ttsVoice := Str "auto";
     s_showPronounce := Bool true |}.

(** A network call: the Libre POST carries the text as the JSON field
    [q]; the two GET requests carry it inside the URL, after ToString
    (and, for the dictionary, after lowercasing) and
    [encodeURIComponent]; the URL is identified with the text it
    encodes. *)
Inductive Request : Type :=
| ReqLibre (q : value)
| ReqMyMemory (q : string)
| ReqDictionary (lower : string).

(** What a [fetch] comes to: a rejection, or a response with its status
    and its body as [response.json()] would parse it ([None]: the body
    is not JSON and [json()] rejects). *)
Inductive FetchOutcome : Type :=
| Rejected
| Responded (status : nat) (body : option value).

(** [response.ok] *)
Definition status_ok (status : nat) : bool :=
  (200 <=? status)%nat && (status <=? 299)%nat.

(** What [chrome.storage.sync.get] comes to: the call itself throws, the
    callback runs with [chrome.runtime.lastError] set, or the callback
    runs with the items object. *)
Inductive StorageOutcome : Type :=
| GetThrows (e : exn)
| LastError (message : string)
| Items (result : list (string * value)).

Inductive Level : Type := warn | error.

Record ConsoleEntry : Type := mkLog {
  level : Level;
  args : list string;
  thrown : option exn
}.

(** The mutable state of the worker and the trace of its effects. *)
Record World : Type := mkWorld {
  translationCache : gmap string TranslationResult;
  dictCache : gmap string DictionaryEntry;
  netlog : list Request;          (* every [fetch] issued, oldest first *)
  storageReads : nat;             (* calls of [chrome.storage.sync.get] *)
  console : list ConsoleEntry
}.

Definition emptyWorld : World :=
  {| translationCache := ∅; dictCache := ∅; netlog := [];
     storageReads := 0; console := [] |}.

Definition set_translationCache (f : gmap string TranslationResult ->
                                     gmap string TranslationResult)
    (w : World) : World :=
  {| translationCache := f (translationCache w); dictCache := dictCache w;
     netlog := netlog w; storageReads := storageReads w;
     console := console w |}.

Definition set_dictCache (f : gmap string DictionaryEntry ->
                              gmap string DictionaryEntry)
    (w : World) : World :=
  {| translationCache := translationCache w; dictCache := f (dictCache w);
     netlog := netlog w; storageReads := storageReads w;
     console := console w |}.

Definition push_request (rq : Request) (w : World) : World :=
  {| translationCache := translationCache w; dictCache := dictCache w;
     netlog := netlog w ++ [rq]; storageReads := storageReads w;
     console := console w |}.

Definition count_read (w : World) : World :=
  {| translationCache := translationCache w; dictCache := dictCache w;
     netlog := netlog w; storageReads := S (storageReads w);
     console := console w |}.

Definition push_console (e : ConsoleEntry) (w : World) : World :=
  {| translationCache := translationCache w; dictCache := dictCache w;
     netlog := netlog w; storageReads := storageReads w;
     console := console w ++ [e] |}.

(** *** The monad: state with exceptions.  The state survives a throw. *)

Definition M (A : Type) : Type := World -> res A * World.

Definition ret {A} (a : A) : M A := fun w => (Val a, w).

Definition throw {A} (e : exn) : M A := fun w => (Throw e, w).

Definition bind {A B} (m : M A) (k : A -> M B) : M B :=
  fun w => match m w with
           | (Val a, w') => k a w'
           | (Throw e, w') => (Throw e, w')
           end.

Definition try_catch {A} (m : M A) (handler : exn -> M A) : M A :=
  fun w => match m w with
           | (Val a, w') => (Val a, w')
           | (Throw e, w') => handler e w'
           end.

Definition lift {A} (r : res A) : M A := fun w => (r, w).

Definition modify (f : World -> World) : M unit := fun w => (Val tt, f w).

Definition read {A} (f : World -> A) : M A := fun w => (Val (f w), w).

Definition log (l : Level) (a : list string) (e : option exn) : M unit :=
  modify (push_console (mkLog l a e)).

Declare Scope js_scope.
Delimit Scope js_scope with js.
Notation "x <- m ;; k" := (bind m (fun x => k))
  (at level 100, m at next level, right associativity) : js_scope.
Notation "m ;;; k" := (bind m (fun _ => k))
  (at level 100, right associativity) : js_scope.
Open Scope js_scope.

(** What the worker returns to the sender of a message.  [r_error] is
    [None] when the object has no [error] field; a [null] provider is
    [None], a [null] translation is [Null]. *)
Record Response : Type := mkResponse {
  success : bool;
  r_error : option string;
  r_provider : option string;
  r_translation : value;
  r_dict : option DictionaryEntry
}.

Definition FAILURE_MESSAGE : string := "翻译失败，请稍后重试。".

Definition typeof_number (v : value) : bool :=
  match v with Num _ => true | _ => false end.

Definition typeof_boolean (v : value) : bool :=
  match v with Bool _ => true | _ => false end.

(** [Number.isNaN] *)
Definition isNaN (v : value) : bool :=
  match v with Num r => String.eqb r "NaN" | _ => false end.

(** [getProvidersOrder]: a [switch] on strict equality with two string
    cases; ["auto"] falls through to [default]. *)
Definition getProvidersOrder (providerSetting : value) : list string :=
  match providerSetting with
  | Str s =>
      if String.eqb s "libre" then ["libre"]
      else if String.eqb s "mymemory" then ["mymemory"]
      else ["libre"; "mymemory"]
  | _ => ["libre"; "mymemory"]
  end.

(** The two loops of [fetchDictionary]: the trimmed [field] of the first
    element that is truthy and whose [field] is a string with something
    left after trimming; [""] when the loop ends without a [break]. *)
Fixpoint first_trimmed (field : string) (phonetics : list value) : string :=
  match phonetics with
  | [] => ""
  | p :: rest =>
      if truthy p then
        match get_opt p field with
        | Str s => if truthy (Str (trim s)) then trim s
                   else first_trimmed field rest
        | _ => first_trimmed field rest
        end
      else first_trimmed field rest
  end.

(** The selection in words: a phonetic sub-entry exposes a field when
    it is an object whose field is a string holding a character that is
    not white space, and what it exposes is that string; the first
    sub-entry that exposes the field is the one selected. *)
Definition exposes (field : string) (p : value) : option string :=
  match p with
  | Obj fields =>
      match assoc field fields with
      | Str s => if forallb is_space_char (utf8_chars s) then None else Some s
      | _ => None
      end
  | _ => None
  end.

Definition firstExposed (field : string) (phonetics : list value)
    : option string :=
  head (omap (exposes field) phonetics).

(** What an entry keeps of the string the selected sub-entry exposes:
    nothing of nothing, and of a string the string without the white
    space at its two ends. *)
Definition keeps (exposed kept : option string) : Prop :=
  match exposed, kept with
  | None, None => True
  | Some s, Some t => strippedOf s t
  | _, _ => False
  end.

(** The selection as the specification words it for the audio address:
    the first sub-entry whose field is a non-empty string, taken as it
    stands. *)
Definition exposesNonEmpty (field : string) (p : value) : option string :=
  match p with
  | Obj fields =>
      match assoc field fields with
      | Str s => if String.eqb s "" then None else Some s
      | _ => None
      end
  | _ => None
  end.

Definition firstNonEmpty (field : string) (phonetics : list value)
    : option string :=
  head (omap (exposesNonEmpty field) phonetics).

(** [s || null] for a string [s] *)
Definition or_null (s : string) : option string :=
  if truthy (Str s) then Some s else None.

Section Worker.

(** The environment of the worker: the network, answering the [n]-th
    [fetch] of the session; the settings store, answering the [n]-th
    read; and the runtime's [String.prototype.toLowerCase], whose
    Unicode case mapping is left abstract. *)
Variable net : nat -> Request -> FetchOutcome.
Variable storage : nat -> StorageOutcome.
Variable toLowerCase : string -> string.

(** [await fetch(...)], giving the status and the unparsed body. *)
Definition fetch (rq : Request) : M (nat * option value) :=
  fun w =>
    (match net (length (netlog w)) rq with
     | Rejected => Throw NetworkFailure
     | Responded status body => Val (status, body)
     end, push_request rq w).

(** [await response.json()] *)
Definition json (body : option value) : M value :=
  match body with
  | Some v => ret v
  | None => throw BodyParseError
  end.

Definition getUserSettings : M Settings :=
  n <- read storageReads ;;
  modify count_read ;;;
  match storage n with
  | GetThrows e =>
      log error ["读取设置出现异常"] (Some e) ;;;
      ret DEFAULT_SETTINGS
  | LastError message =>
      log warn ["读取设置失败，使用默认设置"; message] None ;;;
      ret DEFAULT_SETTINGS
  | Items result =>
      let stored := or (assoc "settings" result) (Obj []) in
      sp <- lift (get stored "provider") ;;
      sth <- lift (get stored "theme") ;;
      srate <- lift (get stored "ttsRate") ;;
      svoice <- lift (get stored "ttsVoice") ;;
      sshow <- lift (get stored "showPronounce") ;;
      ret {| s_provider := or sp (s_provider DEFAULT_SETTINGS);
             s_theme := or sth (s_theme DEFAULT_SETTINGS);
             s_ttsRate := if typeof_number srate && negb (isNaN srate)
                          then srate else s_ttsRate DEFAULT_SETTINGS;
             s_ttsVoice := or svoice (s_ttsVoice DEFAULT_SETTINGS);
             s_showPronounce := if typeof_boolean sshow then sshow
                                else s_showPronounce DEFAULT_SETTINGS |}
  end.

Definition translateWithLibre (text : value) : M TranslationResult :=
  response <- fetch (ReqLibre text) ;;
  let '(status, body) := response in
  if negb (status_ok status)
  then throw (Error ("LibreTranslate HTTP " +:+ pretty status))
  else
    data <- json body ;;
    t1 <- lift (get data "translatedText") ;;
    t2 <- lift (get data "translation") ;;
    t3 <- lift (get data "translated_text") ;;
    let translated := or (or t1 t2) t3 in
    if negb (truthy translated)
    then throw (Error "LibreTranslate 未返回翻译结果")
    else ret {| translation := translated; provider := "LibreTranslate" |}.

Definition translateWithMyMemory (text : value) : M TranslationResult :=
  q <- lift (encodeURIComponent (to_string text)) ;;
  response <- fetch (ReqMyMemory q) ;;
  let '(status, body) := response in
  if negb (status_ok status)
  then throw (Error ("MyMemory HTTP " +:+ pretty status))
  else
    data <- json body ;;
    let primary := get_opt (get_opt data "responseData") "translatedText" in
    translated <-
      (if truthy primary then ret primary
       else match get_opt data "matches" with
            | Arr (m0 :: _) => lift (get m0 "translation")
            | _ => ret (Str "")
            end) ;;
    if negb (truthy translated)
    then throw (Error "MyMemory 未返回翻译结果")
    else ret {| translation := translated; provider := "MyMemory" |}.

(** [text.toLowerCase()] on whatever the message carried: only a string
    has the method. *)
Definition call_toLowerCase (text : value) : res string :=
  match text with
  | Str s => Val (toLowerCase s)
  | _ => Throw TypeError
  end.

Definition fetchDictionary (word : value) : M (option DictionaryEntry) :=
  lower <- lift (call_toLowerCase word) ;;
  q <- lift (encodeURIComponent lower) ;;
  response <- fetch (ReqDictionary q) ;;
  let '(status, body) := response in
  if negb (status_ok status)
  then throw (Error ("Dictionary HTTP " +:+ pretty status))
  else
    data <- json body ;;
    match data with
    | Arr (d0 :: _) =>
        let entry := or d0 (Obj []) in
        ph <- lift (get entry "phonetics") ;;
        let phonetics := match ph with Arr l => l | _ => [] end in
        let ipa := first_trimmed "text" phonetics in
        let audio := first_trimmed "audio" phonetics in
        if negb (truthy (Str ipa)) && negb (truthy (Str audio))
        then ret None
        else ret (Some {| ipa := or_null ipa; audio := or_null audio |})
    | _ => throw (Error "Dictionary 响应格式异常")
    end.

(** The call the loop makes for one provider key; [result] stays [null]
    for a key that is neither of the two. *)
Definition callProvider (providerKey : string) (text : value)
    : M (option TranslationResult) :=
  if String.eqb providerKey "libre"
  then r <- translateWithLibre text ;; ret (Some r)
  else if String.eqb providerKey "mymemory"
  then r <- translateWithMyMemory text ;; ret (Some r)
  else ret None.

Definition cacheKey (providerKey : string) (text : value) : string :=
  (providerKey +:+ "::") +:+ to_string text.

(** The [for ... of order] loop of [handleTranslateAndDefine], giving
    [translationResult] and [lastError] as they stand after it. *)
Fixpoint translationPhase (order : list string) (text : value)
    (lastError : option exn) : M (option TranslationResult * option exn) :=
  match order with
  | [] => ret (None, lastError)
  | providerKey :: rest =>
      cache <- read translationCache ;;
      match cache !! cacheKey providerKey text with
      | Some cached => ret (Some cached, lastError)
      | None =>
          attempt <-
            try_catch
              (result <- callProvider providerKey text ;;
               match result with
               | Some r =>
                   if truthy (translation r)
                   then
                     modify (set_translationCache
                               (insert (cacheKey providerKey text) r)) ;;;
                     ret (Some r, lastError)
                   else ret (None, lastError)
               | None => ret (None, lastError)
               end)
              (fun err =>
                 log warn ["翻译 Provider 失败"; providerKey] (Some err) ;;;
                 ret (None, Some err)) ;;
          match attempt with
          | (Some r, le) => ret (Some r, le)
          | (None, le) => translationPhase rest text le
          end
      end
  end.

Definition dictionaryPhase (text isWord : value)
    : M (option DictionaryEntry) :=
  if truthy isWord then
    lower <- lift (call_toLowerCase text) ;;
    let dictKey := "DICT::" +:+ lower in
    cache <- read dictCache ;;
    match cache !! dictKey with
    | Some cached => ret (Some cached)
    | None =>
        try_catch
          (r <- fetchDictionary text ;;
           match r with
           | Some entry =>
               modify (set_dictCache (insert dictKey entry)) ;;;
               ret (Some entry)
           | None => ret None
           end)
          (fun err =>
             log warn ["字典查询失败（忽略）"] (Some err) ;;;
             ret None)
    end
  else ret None.

Definition failureResponse (dictResult : option DictionaryEntry) : Response :=
  {| success := false; r_error := Some FAILURE_MESSAGE;
     r_provider := None; r_translation := Null; r_dict := dictResult |}.

Definition successResponse (tr : TranslationResult)
    (dictResult : option DictionaryEntry) : Response :=
  {| success := true; r_error := None;
     r_provider := Some (provider tr); r_translation := translation tr;
     r_dict := dictResult |}.

Definition handleTranslateAndDefine (message : value) : M Response :=
  text <- lift (get message "text") ;;
  isWord <- lift (get message "isWord") ;;
  settings <- getUserSettings ;;
  let order := getProvidersOrder (s_provider settings) in
  phase <- translationPhase order text None ;;
  let translationResult := fst phase in
  dictResult <- dictionaryPhase text isWord ;;
  match translationResult with
  | None => ret (failureResponse dictResult)
  | Some tr => ret (successResponse tr dictResult)
  end.

(** The [chrome.runtime.onMessage] listener: what it returns, and the
    responses it passes to [sendResponse], in order. *)
Definition onMessage (message : value) : M (value * list Response) :=
  if negb (truthy message) then ret (Undefined, [])
  else
    ty <- lift (get message "type") ;;
    match ty with
    | Str t =>
        if String.eqb t "TRANSLATE_AND_DEFINE" then
          sent <- try_catch
                    (result <- handleTranslateAndDefine message ;;
                     ret [result])
                    (fun err =>
                       log error ["处理 TRANSLATE_AND_DEFINE 失败"] (Some err) ;;;
                       ret [failureResponse None]) ;;
          ret (Bool true, sent)
        else ret (Undefined, [])
    | _ => ret (Undefined, [])
    end.

End Worker.

(** The requests one provider key can issue for a text. *)
Definition requestsOf (providerKey : string) (text : value) : list Request :=
  if String.eqb providerKey "libre" then [ReqLibre text]
  else if String.eqb providerKey "mymemory" then [ReqMyMemory (to_string text)]
  else [].

(** The requests a call of one provider key does issue: MyMemory's is
    not sent when the text cannot be encoded. *)
Definition issuedRequests (providerKey : string) (text : value)
    : list Request :=
  if String.eqb providerKey "mymemory" && hasLoneSurrogate (to_string text)
  then [] else requestsOf providerKey text.

(** The request a dictionary lookup of a lower-cased word issues. *)
Definition issuedDictionary (lower : string) : list Request :=
  if hasLoneSurrogate lower then [] else [ReqDictionary lower].

(** The name a provider writes into its result. *)
Definition providerName (providerKey : string) : string :=
  if String.eqb providerKey "libre" then "LibreTranslate"
  else if String.eqb providerKey "mymemory" then "MyMemory"
  else "".

Definition push_requests (rqs : list Request) (w : World) : World :=
  fold_left (fun w rq => push_request rq w) rqs w.

(** The provider a request goes to. *)
Definition target (rq : Request) : string :=
  match rq with
  | ReqLibre _ => "libre"
  | ReqMyMemory _ => "mymemory"
  | ReqDictionary _ => "dictionary"
  end.

(** The calls to one provider in a stretch of the network log. *)
Definition callsTo (providerKey : string) (rqs : list Request) : nat :=
  length (List.filter (fun rq => String.eqb (target rq) providerKey) rqs).

(** Whether the cache holds the key of a provider for a text. *)
Definition cached (cache : gmap string TranslationResult) (text : value)
    (providerKey : string) : bool :=
  match cache !! cacheKey providerKey text with
  | Some _ => true
  | None => false
  end.

(** The requests a traversal of [order] can issue: those of the
    providers whose key the cache does not hold. *)
Definition candidateRequests (cache : gmap string TranslationResult)
    (order : list string) (text : value) : list Request :=
  flat_map (fun pk => requestsOf pk text)
           (List.filter (fun pk => negb (cached cache text pk)) order).

(** A provider fails for a text when its call, whenever made, returns no
    result (it throws, or the key names no provider). *)
Definition providerFails (net : nat -> Request -> FetchOutcome)
    (providerKey : string) (text : value) : Prop :=
  forall (w : World) (r : TranslationResult),
    fst (callProvider net providerKey text w) <> Val (Some r).

(** The dictionary failures: no response, a status outside 2xx, a body
    that is not JSON or not a non-empty array, or a first entry none of
    whose phonetic sub-entries exposes a transcription or an audio
    address. *)
Definition dictionaryFails (outcome : FetchOutcome) : Prop :=
  match outcome with
  | Rejected => True
  | Responded status body =>
      status_ok status = false
      \/ match body with
         | Some (Arr (entry :: _)) =>
             match get_opt entry "phonetics" with
             | Arr phonetics =>
                 firstExposed "text" phonetics = None
                 /\ firstExposed "audio" phonetics = None
             | _ => True
             end
         | _ => True
         end
  end.

(** The invariant of the translation cache: an entry has a truthy
    translation and sits under a key of the provider it names. *)
Definition cache_ok (cache : gmap string TranslationResult) : Prop :=
  forall k r, cache !! k = Some r ->
    truthy (translation r) = true
    /\ exists providerKey text,
         (providerKey = "libre" \/ providerKey = "mymemory")
         /\ k = cacheKey providerKey text
         /\ provider r = providerName providerKey.

End Background.

(* ================================================================== *)
(** ** The content script: from a selection to a request message *)
(* ================================================================== *)

Module Content.
Import Js.

(** What [window.getSelection()] gives: its [isCollapsed] flag and its
    [toString()]. *)
Record Selection : Type := mkSelection {
  isCollapsed : bool;
  selected : string
}.

(** The module-level variables the trigger reads and writes. *)
Record State : Type := mkState {
  lastTriggerText : string;
  lastTriggerAt : Z;
  currentRequestId : nat
}.

Definition initialState : State :=
  {| lastTriggerText := ""; lastTriggerAt := 0; currentRequestId := 0 |}.

(** The punctuation of the class [isProbablyEnglish] removes, besides
    [\s], by code point: comma, full stop, exclamation and question
    marks, colon, semicolon and the round brackets, each in its ASCII and
    its full-width form (the ideographic full stop for the full stop, no
    full-width exclamation mark); the ASCII double quote and apostrophe;
    the curly double quotes; square brackets and braces. *)
Definition punctuation : list N :=
  [44; 65292; 12290; 46; 33; 63; 65311; 58; 65306; 59; 65307; 34; 39;
   8220; 8221; 40; 41; 65288; 65289; 91; 93; 123; 125]%N.

Definition is_removed (c : string) : bool :=
  is_js_space (codepoint c) || bool_decide (codepoint c ∈ punctuation).

Definition is_letter_char (c : string) : bool :=
  match c with
  | String a EmptyString => is_ascii_letter a
  | _ => false
  end.

(** [isProbablyEnglish].  The quotient of the two counts is compared
    with 0.6 exactly; the double division of the source is correctly
    rounded, so it agrees with this on any text a page can hold. *)
Definition isProbablyEnglish (text : string) : bool :=
  let cleaned := List.filter (fun c => negb (is_removed c)) (utf8_chars text) in
  match cleaned with
  | [] => false
  | _ =>
      let letters := length (List.filter is_letter_char cleaned) in
      let total := length16 cleaned in
      if (total =? 0)%nat then false
      else (0 <? letters)%nat && (3 * total <=? 5 * letters)%nat
  end.

Definition is_word_byte (a : ascii) : bool :=
  is_ascii_letter a || (byte_val a =? 45)%N || (byte_val a =? 39)%N.

Fixpoint all_bytes (f : ascii -> bool) (s : string) : bool :=
  match s with
  | EmptyString => true
  | String a rest => f a && all_bytes f rest
  end.

(** [isSingleWord]: the pattern [^[A-Za-z][A-Za-z\-']*$] on the trimmed
    text. *)
Definition isSingleWord (text : string) : bool :=
  match trim text with
  | String a rest => is_ascii_letter a && all_bytes is_word_byte rest
  | EmptyString => false
  end.

Definition requestMessage (text : string) (isWord : bool) : value :=
  Obj [("type", Str "TRANSLATE_AND_DEFINE");
       ("text", Str text);
       ("isWord", Bool isWord)].

(** [triggerTranslateFromSelection]: the new state and the message handed
    to [chrome.runtime.sendMessage], if any.  [overlay_ok] tells whether
    the overlay calls that precede the send return normally; when one
    throws, the outer [catch] ends the function before the send. *)
Definition triggerTranslateFromSelection (selection : option Selection)
    (now : Z) (overlay_ok : bool) (st : State) : State * option value :=
  match selection with
  | None => (st, None)
  | Some sel =>
      if isCollapsed sel then (st, None)
      else
        let text := trim (selected sel) in
        if negb (truthy (Str text)) then (st, None)
        else if negb (isProbablyEnglish text) then (st, None)
        else if String.eqb text (lastTriggerText st)
                && (now - lastTriggerAt st <? 300)%Z
        then (st, None)
        else
          let isWord := isSingleWord text in
          let st' := {| lastTriggerText := text; lastTriggerAt := now;
                        currentRequestId := S (currentRequestId st) |} in
          if overlay_ok then (st', Some (requestMessage text isWord))
          else (st', None)
  end.

End Content.

(* ================================================================== *)
(** ** The two halves together *)
(* ================================================================== *)

Module Extension.
Import Js Background.

(** A user gesture: the content script decides whether to send, and the
    worker's listener handles what is sent. *)
Definition gesture (net : nat -> Request -> FetchOutcome)
    (storage : nat -> StorageOutcome) (toLowerCase : string -> string)
    (selection : option Content.Selection) (now : Z) (overlay_ok : bool)
    (st : Content.State) : M (Content.State * list Response) :=
  match Content.triggerTranslateFromSelection selection now overlay_ok st with
  | (st', Some message) =>
      answer <- onMessage net storage toLowerCase message ;;
      ret (st', snd answer)
  | (st', None) => ret (st', [])
  end.

(** Empty, or made of white space only. *)
Definition blank (text : string) : bool :=
  forallb is_space_char (utf8_chars text).

End Extension.

(* ================================================================== *)
(** ** Concrete environments, to run the model on *)
(* ================================================================== *)

Module Scenario.
Import Js Background.

Definition lowerByte (a : ascii) : ascii :=
  let b := byte_val a in
  if ((65 <=? b) && (b <=? 90))%N then ascii_of_N (b + 32) else a.

(** [toLowerCase] on text whose cased letters are all ASCII. *)
Fixpoint asciiLower (s : string) : string :=
  match s with
  | EmptyString => EmptyString
  | String a rest => String (lowerByte a) (asciiLower rest)
  end.

Definition libreBody (t : value) : value := Obj [("translatedText", t)].

Definition myMemoryBody (t : value) : value :=
  Obj [("responseData", Obj [("translatedText", t)])].

Definition dictionaryBody : value :=
  Arr [Obj [("word", Str "test");
            ("phonetics", Arr [Obj [("text", Str "")];
                               Obj [("audio", Str "a.mp3")];
                               Obj [("text", Str "/tɛst/")]])]].

(** The same entry with white space around what it holds (spaces, and
    an ideographic space in front of the transcription), and a first
    sub-entry whose transcription is a space and an ideographic
    space. *)
Definition paddedPhonetics : list value :=
  [Obj [("text", Str " 　")];
   Obj [("audio", Str " a.mp3 ")];
   Obj [("text", Str "　/tɛst/ ")]].

Definition paddedBody : value :=
  Arr [Obj [("word", Str "test"); ("phonetics", Arr paddedPhonetics)]].

(** Two sub-entries with an audio address: a space, then an address
    between spaces. *)
Definition spacedAudio : list value :=
  [Obj [("audio", Str " ")]; Obj [("audio", Str " b.mp3 ")]].

Definition spacedAudioBody : value :=
  Arr [Obj [("word", Str "test"); ("phonetics", Arr spacedAudio)]].

(** The letters a and b followed by the high surrogate U+D800 with no
    low surrogate behind it. *)
Definition unpairedText : string :=
  String "a" (String "b"
    (String (ascii_of_N 237) (String (ascii_of_N 160)
       (String (ascii_of_N 128) EmptyString)))).

(** Everything answers. *)
Definition netUp : nat -> Request -> FetchOutcome :=
  fun _ rq =>
    match rq with
    | ReqLibre _ => Responded 200 (Some (libreBody (Str "测试")))
    | ReqMyMemory _ => Responded 200 (Some (myMemoryBody (Str "试验")))
    | ReqDictionary _ => Responded 200 (Some dictionaryBody)
    end.

(** Nothing is reachable. *)
Definition netDown : nat -> Request -> FetchOutcome := fun _ _ => Rejected.

(** Both translation providers answer 503; the dictionary answers. *)
Definition netNoTranslation : nat -> Request -> FetchOutcome :=
  fun _ rq =>
    match rq with
    | ReqDictionary _ => Responded 200 (Some dictionaryBody)
    | _ => Responded 503 None
    end.

(** The translation providers answer; the dictionary answers 404. *)
Definition netNoDictionary : nat -> Request -> FetchOutcome :=
  fun _ rq =>
    match rq with
    | ReqDictionary _ => Responded 404 None
    | _ => netUp 0 rq
    end.

(** Libre is down for the first call of the session and up afterwards. *)
Definition netLibreLate : nat -> Request -> FetchOutcome :=
  fun n rq =>
    match rq with
    | ReqLibre _ => if (n =? 0)%nat then Responded 503 None else netUp n rq
    | _ => netUp n rq
    end.

(** Libre answers with a number where the translated text belongs. *)
Definition netLibreNumber : nat -> Request -> FetchOutcome :=
  fun _ rq =>
    match rq with
    | ReqLibre _ => Responded 200 (Some (libreBody (Num "42")))
    | _ => Rejected
    end.


(** Everything answers, the dictionary with the padded entry. *)
Definition netPadded : nat -> Request -> FetchOutcome :=
  fun n rq =>
    match rq with
    | ReqDictionary _ => Responded 200 (Some paddedBody)
    | _ => netUp n rq
    end.

(** Everything answers, the dictionary with the two audio addresses. *)
Definition netSpacedAudio : nat -> Request -> FetchOutcome :=
  fun n rq =>
    match rq with
    | ReqDictionary _ => Responded 200 (Some spacedAudioBody)
    | _ => netUp n rq
    end.

Definition storageEmpty : nat -> StorageOutcome := fun _ => Items [].

Definition storageWith (providerSetting : value) : nat -> StorageOutcome :=
  fun _ => Items [("settings", Obj [("provider", providerSetting)])].

Definition storageBroken : nat -> StorageOutcome :=
  fun _ => LastError "storage unavailable".

End Scenario.

(* ================================================================== *)
(** ** Settings as the content script and the options page read them *)
(* ================================================================== *)

Module UserSettings.
Import Js.

(** The object [normalizeSettings] builds (contentScript.js and
    options.js have the same function). *)
Record t : Type := mk {
  provider : value;
  theme : value;
  ttsRate : value;
  ttsVoice : value;
  showPronounce : value;
  autoPopupOnSelect : value
}.

Definition DEFAULT_SETTINGS : t :=
  {| provider := Str "auto"; theme := Str "auto"; ttsRate := Num "1";
     ttsVoice := Str "auto"; showPronounce := Bool true;
     autoPopupOnSelect := Bool true |}.

Definition res_bind {A B : Type} (r : res A) (k : A -> res B) : res B :=
  match r with
  | Val a => k a
  | Throw e => Throw e
  end.

Definition normalizeSettings (raw : value) : res t :=
  res_bind (get raw "provider") (fun rp =>
  res_bind (get raw "theme") (fun rth =>
  res_bind (get raw "ttsRate") (fun rrate =>
  res_bind (get raw "ttsVoice") (fun rvoice =>
  res_bind (get raw "showPronounce") (fun rshow =>
  res_bind (get raw "autoPopupOnSelect") (fun rauto =>
  Val {| provider := or rp (provider DEFAULT_SETTINGS);
         theme := or rth (theme DEFAULT_SETTINGS);
         ttsRate := if Background.typeof_number rrate
                       && negb (Background.isNaN rrate)
                    then rrate else ttsRate DEFAULT_SETTINGS;
         ttsVoice := or rvoice (ttsVoice DEFAULT_SETTINGS);
         showPronounce := if Background.typeof_boolean rshow then rshow
                          else showPronounce DEFAULT_SETTINGS;
         autoPopupOnSelect :=
           if Background.typeof_boolean rauto then rauto
           else autoPopupOnSelect DEFAULT_SETTINGS |})))))).

(** The settings object as a value, as it is kept in [userSettings] and
    written to the store. *)
Definition toValue (s : t) : value :=
  Obj [("provider", provider s); ("theme", theme s);
       ("ttsRate", ttsRate s); ("ttsVoice", ttsVoice s);
       ("showPronounce", showPronounce s);
       ("autoPopupOnSelect", autoPopupOnSelect s)].

(** What a settings object is expected to hold. *)
Definition wellTyped (s : t) : Prop :=
  truthy (provider s) = true
  /\ truthy (theme s) = true
  /\ (Background.typeof_number (ttsRate s) = true
      /\ Background.isNaN (ttsRate s) = false)
  /\ truthy (ttsVoice s) = true
  /\ Background.typeof_boolean (showPronounce s) = true
  /\ Background.typeof_boolean (autoPopupOnSelect s) = true.

End UserSettings.

(* ================================================================== *)
(** ** The overlay: what the content script shows *)
(* ================================================================== *)

Module Overlay.
Import Js.

(** [text] as JavaScript indexes it: UTF-16 code units, a surrogate pair
    for a character outside the basic plane. *)
Definition utf16_of_char (c : string) : list N :=
  let cp := codepoint c in
  if (String.length c =? 4)%nat
  then [55296 + (cp - 65536) / 1024; 56320 + (cp - 65536) mod 1024]%N
  else [cp].

Definition utf16 (s : string) : list N := flat_map utf16_of_char (utf8_chars s).

(** The three full stops of the ellipsis. *)
Definition ellipsis : list N := [46; 46; 46]%N.

(** [text.length > 80 ? text.slice(0, 77) + "..." : text], in code
    units. *)
Definition displayText (text : string) : list N :=
  let units := utf16 text in
  if (80 <? length units)%nat then (take 77 units ++ ellipsis)%list
  else units.

(** The module-level [currentData]. *)
Record CurrentData : Type := mkData {
  cd_text : string;
  cd_translation : value;
  cd_provider : value;
  cd_ipa : value;
  cd_audio : value
}.

Definition clearedData : CurrentData :=
  {| cd_text := ""; cd_translation := Str ""; cd_provider := Str "";
     cd_ipa := Null; cd_audio := Null |}.

(** The overlay once [ensureOverlayCreated] has built it: the data
    behind it and the text of its elements.  Position and theme are not
    part of it. *)
Record View : Type := mkView {
  currentData : CurrentData;
  headerText : list N;
  headerTitle : string;
  translationLabel : string;
  translationText : string;
  errorText : string;
  providerText : string;
  ipaText : string;
  pronunciationShown : bool;
  playShown : bool;
  playDisabled : bool;
  displayed : bool
}.

Definition initialView : View :=
  {| currentData := clearedData; headerText := []; headerTitle := "";
     translationLabel := "中文翻译"; translationText := "";
     errorText := ""; providerText := ""; ipaText := "";
     pronunciationShown := true; playShown := true; playDisabled := false;
     displayed := false |}.

Definition updateOverlayLoading (showPronounce : value) (text : string)
    (v : View) : View :=
  let enablePronounce := truthy showPronounce in
  {| currentData := {| cd_text := text; cd_translation := Str "";
                       cd_provider := Str ""; cd_ipa := Null;
                       cd_audio := Null |};
     headerText := displayText text;
     headerTitle := text;
     translationLabel := "中文翻译";
     translationText := "正在翻译...";
     errorText := "";
     providerText := "";
     ipaText := "";
     pronunciationShown := enablePronounce;
     playShown := enablePronounce;
     playDisabled := negb enablePronounce;
     displayed := displayed v |}.

(** [a && a.k ? a.k : null] *)
Definition field_or_null (a : value) (k : string) : value :=
  if truthy a then
    if truthy (get_opt a k) then get_opt a k else Null
  else Null.

Definition updateOverlaySuccess (showPronounce : value) (text : string)
    (payload : value) (v : View) : View :=
  let data := {| cd_text := text;
                 cd_translation := or (get_opt payload "translation") (Str "");
                 cd_provider := or (get_opt payload "provider") (Str "");
                 cd_ipa := field_or_null (get_opt payload "dict") "ipa";
                 cd_audio := field_or_null (get_opt payload "dict") "audio" |} in
  let enablePronounce := truthy showPronounce in
  {| currentData := data;
     headerText := displayText text;
     headerTitle := text;
     translationLabel := "中文翻译";
     translationText := to_string (or (cd_translation data) (Str "(无翻译结果)"));
     errorText := "";
     providerText := if truthy (cd_provider data)
                     then "翻译来源：" +:+ to_string (cd_provider data)
                     else "";
     ipaText := to_string (or (cd_ipa data) (Str ""));
     pronunciationShown := enablePronounce;
     playShown := enablePronounce;
     playDisabled := negb enablePronounce;
     displayed := displayed v |}.

Definition updateOverlayFailure (showPronounce : value) (text : string)
    (errorMessage : value) (v : View) : View :=
  let enablePronounce := truthy showPronounce in
  {| currentData := {| cd_text := text; cd_translation := Str "";
                       cd_provider := Str ""; cd_ipa := Null;
                       cd_audio := Null |};
     headerText := displayText text;
     headerTitle := text;
     translationLabel := "中文翻译";
     translationText := "翻译失败，请稍后重试。";
     errorText := to_string (or errorMessage
                                (Str "接口不可用，已回退/请稍后重试"));
     providerText := "";
     ipaText := "";
     pronunciationShown := enablePronounce;
     playShown := enablePronounce;
     playDisabled := negb enablePronounce;
     displayed := displayed v |}.

(** [hideOverlay]: the wrapper is hidden and the data cleared; the text
    of the elements stays until the next update. *)
Definition hideOverlay (v : View) : View :=
  {| currentData := clearedData;
     headerText := headerText v; headerTitle := headerTitle v;
     translationLabel := translationLabel v;
     translationText := translationText v; errorText := errorText v;
     providerText := providerText v; ipaText := ipaText v;
     pronunciationShown := pronunciationShown v; playShown := playShown v;
     playDisabled := playDisabled v;
     displayed := false |}.

(** The callback [triggerTranslateFromSelection] hands to
    [chrome.runtime.sendMessage]; [requestId] and [text] are what the
    closure captured, [lastError] tells whether
    [chrome.runtime.lastError] is set when it runs. *)
Definition onResponse (showPronounce : value) (requestId : nat)
    (text : string) (lastError : bool) (response : value)
    (st : Content.State) (v : View) : View :=
  if negb (requestId =? Content.currentRequestId st)%nat then v
  else if lastError
  then updateOverlayFailure showPronounce text
         (Str "翻译失败，请稍后重试。") v
  else if negb (truthy response)
          || negb (truthy (get_opt response "success"))
  then updateOverlayFailure showPronounce text
         (if truthy response then get_opt response "error" else response) v
  else updateOverlaySuccess showPronounce text response v.

(** The dictionary entry and the response as the message channel
    carries them. *)
Definition optionValue (o : option string) : value :=
  match o with
  | Some s => Str s
  | None => Null
  end.

Definition dictValue (d : option Background.DictionaryEntry) : value :=
  match d with
  | Some e => Obj [("ipa", optionValue (Background.ipa e));
                   ("audio", optionValue (Background.audio e))]
  | None => Null
  end.

Definition responseValue (r : Background.Response) : value :=
  Obj ([("success", Bool (Background.success r))]
       ++ match Background.r_error r with
          | Some msg => [("error", Str msg)]
          | None => []
          end
       ++ [("translation", Background.r_translation r);
           ("provider", optionValue (Background.r_provider r));
           ("dict", dictValue (Background.r_dict r))])%list.

End Overlay.

(* ================================================================== *)
(** ** Speech: the play button *)
(* ================================================================== *)

Module Speech.
Import Js.

(** A [SpeechSynthesisVoice], as far as the script looks at it. *)
Record Voice : Type := mkVoice {
  voiceName : string;
  lang : string
}.

Record Utterance : Type := mkUtterance {
  spoken : string;
  rate : value;
  voice : option Voice;
  utteranceLang : option string
}.

(** What a click on the play button does to the outside. *)
Inductive Action : Type :=
| CancelSpeech
| Speak (u : Utterance)
| PlayAudio (url : value)
| Warn (msg : string).

(** How the speech calls of the [try] block end: all of them return; or
    one throws before running speech was cancelled (the construction of
    the utterance, or [cancel()] itself); or [speak()] throws,
    [cancel()] having run. *)
Inductive Synthesis : Type :=
| Speaks
| ThrowsBeforeCancel
| ThrowsAtSpeak.

Definition is_upper (a : ascii) : bool :=
  ((65 <=? byte_val a) && (byte_val a <=? 90))%N.

(** The pattern [^[A-Z]{2,10}$]. *)
Definition isAcronym (text : string) : bool :=
  Content.all_bytes is_upper text
  && (2 <=? String.length text)%nat && (String.length text <=? 10)%nat.

(** [text.split("").join(" ")] on text whose characters are single
    bytes. *)
Fixpoint spell (text : string) : string :=
  match text with
  | EmptyString => EmptyString
  | String a EmptyString => String a EmptyString
  | String a rest => String a (String " " (spell rest))
  end.

(** The text with its spaces taken out. *)
Fixpoint withoutSpaces (text : string) : string :=
  match text with
  | EmptyString => EmptyString
  | String a rest =>
      if Ascii.eqb a " " then withoutSpaces rest
      else String a (withoutSpaces rest)
  end.

Section WithRuntime.

Variable toLowerCase : string -> string.

(** The two tests of [getPreferredVoice]. *)
Definition exactly (pref : string) (v : Voice) : bool :=
  String.eqb (lang v) pref.

Definition english (v : Voice) : bool :=
  truthy (Str (lang v)) && String.prefix "en" (toLowerCase (lang v)).

Definition getPreferredVoice (voicesLoaded : bool) (voices : list Voice)
    (ttsVoice : value) : option Voice :=
  if negb voicesLoaded || (length voices =? 0)%nat then None
  else
    let pref := or ttsVoice (Str "auto") in
    let candidates :=
      (match pref with
       | Str p => if String.eqb p "en-US" || String.eqb p "en-GB"
                  then [exactly p] else []
       | _ => []
       end ++ [english])%list in
    (fix try (checks : list (Voice -> bool)) : option Voice :=
       match checks with
       | [] => None
       | check :: more =>
           match List.find check voices with
           | Some v => Some v
           | None => try more
           end
       end) candidates.

(** The fallback of [handlePlayClick]. *)
Definition fallbackAudio (cd : Overlay.CurrentData) : list Action :=
  if truthy (Overlay.cd_audio cd) then [PlayAudio (Overlay.cd_audio cd)]
  else [Warn "无可用音频用于播放"].

(** [handlePlayClick].  The actions are listed in the order in which
    they happen; a call that throws leaves no action of its own. *)
Definition handlePlayClick (speechSupported : bool) (speech : Synthesis)
    (settings : UserSettings.t) (voicesLoaded : bool) (voices : list Voice)
    (cd : Overlay.CurrentData) : list Action :=
  if negb (truthy (Str (Overlay.cd_text cd))) then []
  else
    let text := Overlay.cd_text cd in
    let speakText := if isAcronym text then spell text else text in
    if speechSupported then
      let r := if Background.typeof_number (UserSettings.ttsRate settings)
                  && negb (Background.isNaN (UserSettings.ttsRate settings))
               then UserSettings.ttsRate settings else Num "1" in
      let preferred := getPreferredVoice voicesLoaded voices
                         (UserSettings.ttsVoice settings) in
      let u :=
        match preferred with
        | Some v =>
            {| spoken := speakText; rate := r; voice := Some v;
               utteranceLang := if truthy (Str (lang v))
                                then Some (lang v) else None |}
        | None =>
            {| spoken := speakText; rate := r; voice := None;
               utteranceLang :=
                 Some (match UserSettings.ttsVoice settings with
                       | Str p => if String.eqb p "en-GB"
                                  then "en-GB" else "en-US"
                       | _ => "en-US"
                       end) |}
        end in
      match speech with
      | Speaks => [CancelSpeech; Speak u]
      | ThrowsBeforeCancel =>
          (Warn "TTS 调用失败，尝试回退到字典音频" :: fallbackAudio cd)%list
      | ThrowsAtSpeak =>
          (CancelSpeech :: Warn "TTS 调用失败，尝试回退到字典音频"
             :: fallbackAudio cd)%list
      end
    else fallbackAudio cd.

End WithRuntime.

End Speech.

(* ================================================================== *)
(** ** Mouse-up: the automatic popup *)
(* ================================================================== *)

Module Mouse.
Import Js.

(** The mouse event as the handler looks at it: whether its path runs
    through the overlay (when there is one), its button and its click
    count. *)
Record Event : Type := mkEvent {
  insideOverlay : bool;
  button : Z;
  detail : nat
}.

(** [handleMouseUpForSelection].  [rectUnchanged] is the answer of
    [isRectAlmostSame] for the selection rectangle against the last one;
    the rest as for [triggerTranslateFromSelection], which it calls. *)
Definition handleMouseUpForSelection (autoPopupOnSelect : value)
    (event : Event) (selection : option Content.Selection)
    (rectUnchanged : bool) (now : Z) (overlay_ok : bool)
    (st : Content.State) : Content.State * option value :=
  if insideOverlay event then (st, None)
  else if negb (truthy autoPopupOnSelect) then (st, None)
  else if negb (button event =? 0)%Z then (st, None)
  else if (1 <? detail event)%nat then (st, None)
  else
    match selection with
    | None => (st, None)
    | Some sel =>
        if Content.isCollapsed sel then (st, None)
        else
          let newText := trim (Content.selected sel) in
          if negb (truthy (Str newText)) then (st, None)
          else if String.eqb newText (Content.lastTriggerText st)
          then (st, None)
          else if rectUnchanged then (st, None)
          else Content.triggerTranslateFromSelection selection now
                 overlay_ok st
    end.

(** A gesture of either kind. *)
Inductive Gesture : Type :=
| DoubleClick (selection : option Content.Selection) (now : Z)
    (overlay_ok : bool)
| MouseUp (autoPopupOnSelect : value) (event : Event)
    (selection : option Content.Selection) (rectUnchanged : bool)
    (now : Z) (overlay_ok : bool).

Definition step (g : Gesture) (st : Content.State)
    : Content.State * option value :=
  match g with
  | DoubleClick selection now overlay_ok =>
      Content.triggerTranslateFromSelection selection now overlay_ok st
  | MouseUp autoPopup event selection rectUnchanged now overlay_ok =>
      handleMouseUpForSelection autoPopup event selection rectUnchanged
        now overlay_ok st
  end.

(** The state after a run of gestures. *)
Definition run (gs : list Gesture) (st : Content.State) : Content.State :=
  fold_left (fun st g => fst (step g st)) gs st.

End Mouse.

(* ================================================================== *)
(** ** Text of single-byte characters *)
(* ================================================================== *)

Module Text.

(** The one-byte character. *)
Definition single (a : ascii) : string := String a EmptyString.

End Text.

(* ================================================================== *)
(** ** Facts about strings *)
(* ================================================================== *)

Section StringFacts.
Import Js.

Lemma drop_spaces_all (cs : list string) :
  forallb is_space_char cs = true -> drop_spaces cs = [].
Proof.
  induction cs as [|c cs IH]; simpl; [reflexivity|].
  intros H. apply andb_prop in H as [Hc Hcs]. rewrite Hc. auto.
Qed.

Lemma trim_blank (s : string) : Extension.blank s = true -> trim s = "".
Proof.
  unfold Extension.blank, trim. intros H.
  rewrite (drop_spaces_all _ H). reflexivity.
Qed.

Lemma drop_spaces_split (cs : list string) :
  exists pre,
    cs = (pre ++ drop_spaces cs)%list
    /\ forallb is_space_char pre = true
    /\ forall c, head (drop_spaces cs) = Some c -> is_space_char c = false.
Proof.
  induction cs as [|c cs (pre & E & Hp & Hh)]; simpl.
  - exists []. repeat split; auto. discriminate.
  - destruct (is_space_char c) eqn:Ec.
    + exists (c :: pre). simpl. rewrite Ec, Hp. split; [by f_equal|auto].
    + exists []. simpl. split; [reflexivity|]. split; [reflexivity|].
      by intros c' [= <-].
Qed.

Lemma head_rev_last {A : Type} (l : list A) : head (rev l) = last l.
Proof.
  induction l as [|a l IH] using rev_ind; [reflexivity|].
  rewrite rev_app_distr, last_snoc. reflexivity.
Qed.

Lemma forallb_rev {A : Type} (f : A -> bool) (l : list A) :
  forallb f (rev l) = forallb f l.
Proof.
  induction l as [|a l IH]; [reflexivity|]. simpl.
  rewrite forallb_app, IH. simpl. rewrite andb_true_r. apply andb_comm.
Qed.

(** [trim] takes the white space off the two ends, and nothing else. *)
Lemma trim_stripped (s : string) : strippedOf s (trim s).
Proof.
  unfold strippedOf, trim.
  destruct (drop_spaces_split (utf8_chars s)) as (pre & E & Hp & Hh).
  set (m := drop_spaces (utf8_chars s)) in *.
  destruct (drop_spaces_split (rev m)) as (fus & E' & Hs & Hl).
  set (k := drop_spaces (rev m)) in *.
  assert (Em : m = (rev k ++ rev fus)%list).
  { rewrite <- rev_app_distr, <- E'. by rewrite rev_involutive. }
  exists pre, (rev k), (rev fus).
  split; [by rewrite <- Em|]. split; [exact Hp|].
  split; [by rewrite forallb_rev|]. split; [|split; [|reflexivity]].
  - intros c Hc. apply Hh. rewrite Em.
    destruct (rev k); [discriminate|exact Hc].
  - intros c Hc. apply Hl. rewrite <- Hc, <- head_rev_last.
    by rewrite rev_involutive.
Qed.

Lemma drop_spaces_app (pre l : list string) :
  forallb is_space_char pre = true ->
  (forall c, head l = Some c -> is_space_char c = false) ->
  drop_spaces (pre ++ l) = l.
Proof.
  intros Hp Hl. induction pre as [|c pre IH]; simpl in *.
  - destruct l as [|c l]; [reflexivity|]. simpl.
    by rewrite (Hl c eq_refl).
  - apply andb_prop in Hp as [-> Hp]. auto.
Qed.

(** The relation has one solution, the one [trim] computes. *)
Lemma strippedOf_trim (s t : string) : strippedOf s t <-> t = trim s.
Proof.
  split; [|intros ->; apply trim_stripped].
  intros (pre & core & suf & E & Hp & Hs & Hh & Hl & ->).
  unfold trim. rewrite E. f_equal.
  destruct core as [|c0 core].
  - rewrite (drop_spaces_all (pre ++ [] ++ suf)); [reflexivity|].
    simpl. by rewrite forallb_app, Hp, Hs.
  - rewrite drop_spaces_app; [|exact Hp|exact Hh].
    rewrite rev_app_distr, drop_spaces_app, rev_involutive;
      [reflexivity|by rewrite forallb_rev|].
    intros c. rewrite head_rev_last. apply Hl.
Qed.

Lemma utf8_chars_nonempty (s : string) :
  Forall (fun c => c <> "") (utf8_chars s).
Proof.
  induction s as [|a s IH]; simpl; [constructor|].
  destruct (utf8_chars s) as [|c cs]; [by repeat constructor|].
  inversion IH; subst.
  destruct (starts_with_continuation c); by repeat constructor.
Qed.

Lemma concat_chars_empty (cs : list string) :
  Forall (fun c => c <> "") cs -> concat_chars cs = "" -> cs = [].
Proof.
  intros H. destruct H as [|c cs Hc _]; [reflexivity|].
  simpl. destruct c; [contradiction|discriminate].
Qed.

(** Nothing is left after [trim] exactly when the string is white space
    throughout. *)
Lemma trim_empty_iff (s : string) :
  trim s = "" <-> forallb is_space_char (utf8_chars s) = true.
Proof.
  split.
  - intros Ht.
    destruct (trim_stripped s) as (pre & core & suf & E & Hp & Hs & _ & _ & Hc).
    rewrite Ht in Hc. symmetry in Hc.
    pose proof (utf8_chars_nonempty s) as Hne. rewrite E in Hne.
    apply Forall_app in Hne as [_ Hne]. apply Forall_app in Hne as [Hne _].
    rewrite (concat_chars_empty _ Hne Hc) in E.
    rewrite E. simpl. rewrite forallb_app, Hp, Hs. reflexivity.
  - intros H. unfold trim. rewrite (drop_spaces_all _ H). reflexivity.
Qed.

Lemma encodeURIComponent_cases (s : string) :
  (hasLoneSurrogate s = false /\ encodeURIComponent s = Val s)
  \/ (hasLoneSurrogate s = true /\ encodeURIComponent s = Throw URIError).
Proof.
  unfold encodeURIComponent. destruct (hasLoneSurrogate s); auto.
Qed.

End StringFacts.

(* ================================================================== *)
(** ** Facts about the worker *)
(* ================================================================== *)

Section WorkerFacts.
Import Js Background.

Variable net : nat -> Request -> FetchOutcome.
Variable storage : nat -> StorageOutcome.
Variable toLowerCase : string -> string.

Local Notation translateWithLibre := (translateWithLibre net).
Local Notation translateWithMyMemory := (translateWithMyMemory net).
Local Notation callProvider := (callProvider net).
Local Notation translationPhase := (translationPhase net).
Local Notation fetchDictionary := (fetchDictionary net toLowerCase).
Local Notation dictionaryPhase := (dictionaryPhase net toLowerCase).
Local Notation getUserSettings := (getUserSettings storage).
Local Notation handleTranslateAndDefine :=
  (handleTranslateAndDefine net storage toLowerCase).
Local Notation onMessage := (onMessage net storage toLowerCase).

Lemma get_truthy (v : value) (k : string) :
  truthy v = true -> exists x, get v k = Val x.
Proof. destruct v; simpl; try discriminate; eauto. Qed.

Lemma or_truthy_r (a b : value) : truthy b = true -> truthy (or a b) = true.
Proof. unfold or. destruct (truthy a) eqn:E; auto. Qed.

(** A call of Libre always issues its one request, whatever comes
    back, and a result it returns carries a truthy translation and its
    name. *)
Lemma translateWithLibre_spec (text : value) (w : World) :
  exists out, translateWithLibre text w = (out, push_request (ReqLibre text) w)
    /\ forall r, out = Val r ->
         truthy (translation r) = true /\ provider r = "LibreTranslate".
Proof.
  unfold Background.translateWithLibre, bind, fetch.
  destruct (net _ _) as [|status body]; [eexists; split; [reflexivity|discriminate]|].
  destruct (status_ok status); simpl;
    [|eexists; split; [reflexivity|discriminate]].
  destruct body as [data|]; simpl;
    [|eexists; split; [reflexivity|discriminate]].
  unfold lift.
  destruct (get data "translatedText") as [t1|] eqn:E1;
    [|eexists; split; [reflexivity|discriminate]].
  destruct (get data "translation") as [t2|] eqn:E2;
    [|eexists; split; [reflexivity|discriminate]].
  destruct (get data "translated_text") as [t3|] eqn:E3;
    [|eexists; split; [reflexivity|discriminate]].
  destruct (truthy (or (or t1 t2) t3)) eqn:T; simpl;
    eexists; (split; [reflexivity|]); [|discriminate].
  intros r [= <-]. simpl. auto.
Qed.

Lemma issuedRequests_sublist (providerKey : string) (text : value) :
  sublist (issuedRequests providerKey text) (requestsOf providerKey text).
Proof.
  unfold issuedRequests.
  destruct (String.eqb providerKey "mymemory" && hasLoneSurrogate (to_string text));
    [apply sublist_nil_l|reflexivity].
Qed.

(** A call of MyMemory issues its one request unless the text cannot
    be encoded, and then it throws; a result it returns carries a truthy
    translation and its name. *)
Lemma translateWithMyMemory_spec (text : value) (w : World) :
  exists out, translateWithMyMemory text w
              = (out, push_requests (issuedRequests "mymemory" text) w)
    /\ forall r, out = Val r ->
         truthy (translation r) = true /\ provider r = "MyMemory"
         /\ hasLoneSurrogate (to_string text) = false.
Proof.
  unfold Background.translateWithMyMemory, issuedRequests, requestsOf.
  cbn [String.eqb Ascii.eqb Bool.eqb andb].
  unfold bind at 1, lift at 1, encodeURIComponent.
  destruct (hasLoneSurrogate (to_string text));
    [eexists; split; [reflexivity|discriminate]|].
  cbn [push_requests fold_left].
  unfold bind, fetch.
  destruct (net _ _) as [|status body]; [eexists; split; [reflexivity|discriminate]|].
  destruct (status_ok status); simpl;
    [|eexists; split; [reflexivity|discriminate]].
  destruct body as [data|]; simpl;
    [|eexists; split; [reflexivity|discriminate]].
  set (primary := get_opt (get_opt data "responseData") "translatedText").
  destruct (truthy primary) eqn:Tp.
  - unfold ret at 1. rewrite Tp. simpl.
    eexists; split; [reflexivity|]. intros r [= <-]. simpl. auto.
  - assert (Hfin : forall (t : res value) (w1 : World),
      exists out,
        (match t with
         | Val a => (if negb (truthy a)
                     then throw (Error "MyMemory 未返回翻译结果")
                     else ret {| translation := a; provider := "MyMemory" |}) w1
         | Throw e => (Throw e, w1)
         end) = (out, w1)
        /\ forall r, out = Val r ->
             truthy (translation r) = true /\ provider r = "MyMemory"
             /\ false = false).
    { intros [a|e] w1; [|eexists; split; [reflexivity|discriminate]].
      destruct (truthy a) eqn:Ta; simpl;
        eexists; (split; [reflexivity|]); [|discriminate].
      intros r [= <-]. simpl. auto. }
    destruct (get_opt data "matches") as [| | | | |[|m0 ms]|];
      try apply (Hfin (Val (Str "")));
      apply (Hfin (get m0 "translation")).
Qed.

Lemma callProvider_spec (providerKey : string) (text : value) (w : World) :
  exists out,
    callProvider providerKey text w
    = (out, push_requests (issuedRequests providerKey text) w)
    /\ forall r, out = Val (Some r) ->
         truthy (translation r) = true
         /\ provider r = providerName providerKey
         /\ (providerKey = "libre" \/ providerKey = "mymemory")
         /\ issuedRequests providerKey text = requestsOf providerKey text.
Proof.
  unfold Background.callProvider, providerName.
  destruct (String.eqb_spec providerKey "libre") as [->|Hl].
  - destruct (translateWithLibre_spec text w) as (out & E & H).
    unfold bind. rewrite E. destruct out as [r|e]; simpl.
    + eexists; split; [reflexivity|]. intros r' [= <-].
      destruct (H r eq_refl). auto.
    + eexists; split; [reflexivity|discriminate].
  - destruct (String.eqb_spec providerKey "mymemory") as [->|Hm].
    + destruct (translateWithMyMemory_spec text w) as (out & E & H).
      unfold bind. rewrite E. destruct out as [r|e]; simpl.
      * eexists; split; [reflexivity|]. intros r' [= <-].
        destruct (H r eq_refl) as (? & ? & Hs).
        unfold issuedRequests. rewrite Hs. auto.
      * eexists; split; [reflexivity|discriminate].
    + unfold issuedRequests, requestsOf.
      destruct (String.eqb_spec providerKey "libre"); [contradiction|].
      destruct (String.eqb_spec providerKey "mymemory"); [contradiction|].
      eexists; split; [reflexivity|discriminate].
Qed.

(** One turn of the loop. *)
Lemma translationPhase_cons (providerKey : string) (rest : list string)
    (text : value) (lastError : option exn) (w : World) :
  translationPhase (providerKey :: rest) text lastError w =
  match translationCache w !! cacheKey providerKey text with
  | Some cached => (Val (Some cached, lastError), w)
  | None =>
      match callProvider providerKey text w with
      | (Val (Some r), w1) =>
          if truthy (translation r)
          then (Val (Some r, lastError),
                set_translationCache (insert (cacheKey providerKey text) r) w1)
          else translationPhase rest text lastError w1
      | (Val None, w1) => translationPhase rest text lastError w1
      | (Throw err, w1) =>
          translationPhase rest text (Some err)
            (push_console (mkLog warn ["翻译 Provider 失败"; providerKey]
                                 (Some err)) w1)
      end
  end.
Proof.
  cbn [Background.translationPhase]. unfold bind at 1, read at 1.
  destruct (translationCache w !! cacheKey providerKey text); [reflexivity|].
  unfold bind at 1, try_catch, bind at 1.
  destruct (callProvider providerKey text w) as [[[r|]|err] w1];
    [destruct (truthy (translation r))| |]; reflexivity.
Qed.

Lemma translationPhase_nil (text : value) (lastError : option exn) (w : World) :
  translationPhase [] text lastError w = (Val (None, lastError), w).
Proof. reflexivity. Qed.

Lemma netlog_push_requests (rqs : list Request) (w : World) :
  netlog (push_requests rqs w) = (netlog w ++ rqs)%list.
Proof.
  revert w. induction rqs as [|rq rqs IH]; intros w; simpl.
  - by rewrite app_nil_r.
  - unfold push_requests in IH. rewrite IH. simpl. by rewrite <- app_assoc.
Qed.

Lemma push_requests_frame (rqs : list Request) (w : World) :
  translationCache (push_requests rqs w) = translationCache w
  /\ dictCache (push_requests rqs w) = dictCache w
  /\ storageReads (push_requests rqs w) = storageReads w.
Proof.
  revert w. induction rqs as [|rq rqs IH]; intros w; simpl; [auto|].
  unfold push_requests in IH. destruct (IH (push_request rq w)) as (? & ? & ?).
  auto.
Qed.

(** What a traversal does, in one statement: it never throws; it leaves
    the dictionary cache and the read count alone; it calls, in order
    and at most once each, only providers whose key was not cached; and
    the translation cache changes by at most the one entry it returns. *)
Lemma translationPhase_spec (order : list string) (text : value) :
  forall (lastError : option exn) (w : World),
  exists tr le w',
    translationPhase order text lastError w = (Val (tr, le), w')
    /\ dictCache w' = dictCache w
    /\ storageReads w' = storageReads w
    /\ (exists added,
          netlog w' = (netlog w ++ added)%list
          /\ sublist added (candidateRequests (translationCache w) order text))
    /\ match tr with
       | None =>
           translationCache w' = translationCache w
           /\ Forall (fun pk => translationCache w !! cacheKey pk text = None)
                     order
       | Some r =>
           exists pk, In pk order
             /\ ((translationCache w !! cacheKey pk text = Some r
                  /\ translationCache w' = translationCache w)
                 \/ (translationCache w !! cacheKey pk text = None
                     /\ translationCache w'
                        = <[cacheKey pk text := r]> (translationCache w)
                     /\ truthy (translation r) = true
                     /\ provider r = providerName pk
                     /\ (pk = "libre" \/ pk = "mymemory")
                     /\ (exists before,
                           netlog w'
                           = (netlog w ++ before ++ requestsOf pk text)%list)
                     /\ exists w0 w1,
                          callProvider pk text w0 = (Val (Some r), w1)))
       end.
Proof.
  induction order as [|pk rest IH]; intros lastError w.
  - exists None, lastError, w. rewrite translationPhase_nil.
    repeat split; auto. exists []. split; [by rewrite app_nil_r|constructor].
  - rewrite translationPhase_cons. unfold candidateRequests. cbn [List.filter].
    unfold cached at 1.
    destruct (translationCache w !! cacheKey pk text) as [hit|] eqn:Hit.
    { exists (Some hit), lastError, w. repeat split; auto.
      - exists []. split; [by rewrite app_nil_r|apply sublist_nil_l].
      - exists pk. split; [left; reflexivity|]. left. auto. }
    cbn [negb flat_map].
    destruct (callProvider_spec pk text w) as (out & E & Hout). rewrite E.
    destruct (push_requests_frame (issuedRequests pk text) w) as (Ft & Fd & Fs).
    pose proof (netlog_push_requests (issuedRequests pk text) w) as Fn.
    set (w1 := push_requests (issuedRequests pk text) w) in *.
    assert (Hrest : forall le0 w2,
      translationCache w2 = translationCache w ->
      dictCache w2 = dictCache w -> storageReads w2 = storageReads w ->
      netlog w2 = (netlog w ++ issuedRequests pk text)%list ->
      exists tr le w',
        translationPhase rest text le0 w2 = (Val (tr, le), w')
        /\ dictCache w' = dictCache w
        /\ storageReads w' = storageReads w
        /\ (exists added,
              netlog w' = (netlog w ++ added)%list
              /\ sublist added
                   (requestsOf pk text ++
                    flat_map (fun pk0 => requestsOf pk0 text)
                      (List.filter
                         (fun pk0 => negb (cached (translationCache w) text pk0))
                         rest))%list)
        /\ match tr with
           | None =>
               translationCache w' = translationCache w
               /\ Forall (fun pk0 =>
                            translationCache w !! cacheKey pk0 text = None)
                         (pk :: rest)
           | Some r =>
               exists pk0, In pk0 (pk :: rest)
                 /\ ((translationCache w !! cacheKey pk0 text = Some r
                      /\ translationCache w' = translationCache w)
                     \/ (translationCache w !! cacheKey pk0 text = None
                         /\ translationCache w'
                            = <[cacheKey pk0 text := r]> (translationCache w)
                         /\ truthy (translation r) = true
                         /\ provider r = providerName pk0
                         /\ (pk0 = "libre" \/ pk0 = "mymemory")
                         /\ (exists before,
                               netlog w'
                               = (netlog w ++ before ++ requestsOf pk0 text)%list)
                         /\ exists w0 w1,
                              callProvider pk0 text w0 = (Val (Some r), w1)))
           end).
    { intros le0 w2 Et Ed Es En.
      destruct (IH le0 w2) as (tr & le & w' & Ep & Hd & Hs & (added & Hn & Hsub) & Hc).
      exists tr, le, w'. split; [exact Ep|].
      split; [congruence|]. split; [congruence|]. split.
      - exists (issuedRequests pk text ++ added)%list. split.
        + rewrite Hn, En. by rewrite <- app_assoc.
        + apply sublist_app; [apply issuedRequests_sublist|].
          unfold candidateRequests in Hsub. by rewrite Et in Hsub.
      - destruct tr as [r|].
        + destruct Hc as (pk0 & Hin & Hc). exists pk0.
          split; [right; exact Hin|]. rewrite Et in Hc.
          destruct Hc as [Hc|(H1 & H2 & H3 & H4 & H5 & (before & H6) & H7)];
            [left; exact Hc|right].
          repeat (split; [assumption|]). split; [|exact H7].
          exists (issuedRequests pk text ++ before)%list.
          rewrite H6, En. by rewrite <- !app_assoc.
        + destruct Hc as [Hc1 Hc2]. split; [congruence|].
          constructor; [exact Hit|]. by rewrite Et in Hc2. }
    destruct out as [[r|]|err].
    + destruct (Hout r eq_refl) as (Tr & Pr & Pk & Hiss). rewrite Tr.
      rewrite Hiss in Fn.
      exists (Some r), lastError,
        (set_translationCache (insert (cacheKey pk text) r) w1).
      split; [reflexivity|]. split; [exact Fd|]. split; [exact Fs|]. split.
      * exists (requestsOf pk text). split; [exact Fn|].
        apply sublist_inserts_r. reflexivity.
      * exists pk. split; [left; reflexivity|]. right.
        split; [exact Hit|]. split; [simpl; by rewrite Ft|].
        repeat split; auto; [exists []; exact Fn|exists w, w1; exact E].
    + apply Hrest; auto.
    + apply Hrest; auto.
Qed.

(** The settings read: always a value, at the cost of one read and, on
    a failed read, one console line. *)
Lemma getUserSettings_spec (w : World) :
  exists settings w',
    getUserSettings w = (Val settings, w')
    /\ translationCache w' = translationCache w
    /\ dictCache w' = dictCache w
    /\ netlog w' = netlog w
    /\ storageReads w' = S (storageReads w)
    /\ match storage (storageReads w) with
       | GetThrows _ | LastError _ =>
           settings = DEFAULT_SETTINGS
           /\ exists line, console w' = (console w ++ [line])%list
       | Items result =>
           console w' = console w
           /\ s_provider settings
              = or (get_opt (assoc "settings" result) "provider") (Str "auto")
       end.
Proof.
  unfold Background.getUserSettings, bind, read, modify. simpl.
  destruct (storage (storageReads w)) as [e|message|result].
  - do 2 eexists. split; [reflexivity|]. simpl. repeat split; eauto.
  - do 2 eexists. split; [reflexivity|]. simpl. repeat split; eauto.
  - unfold lift.
    set (stored := or (assoc "settings" result) (Obj [])).
    assert (Ts : truthy stored = true) by (apply or_truthy_r; reflexivity).
    assert (Hg : forall k, get stored k = Val (get_opt stored k)).
    { intros k. destruct stored; simpl in *; try discriminate; reflexivity. }
    rewrite !Hg. do 2 eexists. split; [reflexivity|]. simpl.
    repeat split; auto.
    f_equal. unfold stored, or.
    destruct (truthy (assoc "settings" result)) eqn:T; [reflexivity|].
    destruct (assoc "settings" result); simpl in *; try discriminate;
      reflexivity.
Qed.

(** A dictionary lookup of a string issues its one request, when the
    lower-cased word can be encoded, and nothing else. *)
Lemma fetchDictionary_spec (word : string) (w : World) :
  exists out,
    fetchDictionary (Str word) w
    = (out, push_requests (issuedDictionary (toLowerCase word)) w)
    /\ (hasLoneSurrogate (toLowerCase word) = true -> out = Throw URIError).
Proof.
  unfold Background.fetchDictionary, issuedDictionary.
  unfold bind at 1, lift at 1. cbn [call_toLowerCase].
  unfold bind at 1, lift at 1, encodeURIComponent.
  destruct (hasLoneSurrogate (toLowerCase word));
    [eexists; split; [reflexivity|reflexivity]|].
  cbn [push_requests fold_left].
  unfold bind, lift, fetch.
  destruct (net _ _) as [|status body];
    [eexists; split; [reflexivity|discriminate]|].
  destruct (status_ok status); simpl;
    [|eexists; split; [reflexivity|discriminate]].
  destruct body as [data|]; simpl;
    [|eexists; split; [reflexivity|discriminate]].
  destruct data as [| | | | |[|d0 ds]|];
    try (eexists; split; [reflexivity|discriminate]).
  assert (Te : truthy (or d0 (Obj [])) = true) by (apply or_truthy_r; reflexivity).
  destruct (get_truthy _ "phonetics" Te) as [ph ->].
  match goal with |- context [if ?c then _ else _] => destruct c end;
    eexists; (split; [reflexivity|discriminate]).
Qed.

Lemma issuedDictionary_cases (lower : string) :
  issuedDictionary lower = [] \/ issuedDictionary lower = [ReqDictionary lower].
Proof. unfold issuedDictionary. destruct (hasLoneSurrogate lower); auto. Qed.

Lemma dictionaryPhase_spec (text : string) (isWord : value) (w : World) :
  exists d w',
    dictionaryPhase (Str text) isWord w = (Val d, w')
    /\ translationCache w' = translationCache w
    /\ storageReads w' = storageReads w
    /\ if truthy isWord then
         match dictCache w !! ("DICT::" +:+ toLowerCase text) with
         | Some entry => d = Some entry /\ w' = w
         | None =>
             netlog w' = (netlog w ++ issuedDictionary (toLowerCase text))%list
             /\ match fst (fetchDictionary (Str text) w) with
                | Val (Some entry) =>
                    d = Some entry
                    /\ dictCache w'
                       = <["DICT::" +:+ toLowerCase text := entry]> (dictCache w)
                | _ => d = None /\ dictCache w' = dictCache w
                end
         end
       else d = None /\ w' = w.
Proof.
  unfold Background.dictionaryPhase.
  destruct (truthy isWord); [|exists None, w; auto].
  unfold bind at 1, lift at 1. simpl. unfold bind at 1, read at 1.
  destruct (dictCache w !! ("DICT::" +:+ toLowerCase text)) as [entry|] eqn:Hit.
  { exists (Some entry), w. auto. }
  unfold try_catch, bind at 1.
  destruct (fetchDictionary_spec text w) as (out & E & _). rewrite E.
  destruct (push_requests_frame (issuedDictionary (toLowerCase text)) w)
    as (Ft & Fd & Fs).
  pose proof (netlog_push_requests (issuedDictionary (toLowerCase text)) w) as Fn.
  cbn [fst].
  destruct out as [[entry|]|err]; cbn [fst snd];
    do 2 eexists; (split; [reflexivity|]); simpl; rewrite ?Fd; auto.
Qed.

(** The handler on a message that carries a string: settings, then the
    traversal, then the dictionary, none of which throws. *)
Lemma handle_string_message (message : value) (text : string)
    (isWord : value) (w : World) :
  get message "text" = Val (Str text) ->
  get message "isWord" = Val isWord ->
  exists settings w1 tr le w2 d w3,
    getUserSettings w = (Val settings, w1)
    /\ translationPhase (getProvidersOrder (s_provider settings)) (Str text)
         None w1 = (Val (tr, le), w2)
    /\ dictionaryPhase (Str text) isWord w2 = (Val d, w3)
    /\ handleTranslateAndDefine message w
       = (Val match tr with
              | None => failureResponse d
              | Some r => successResponse r d
              end, w3).
Proof.
  intros Ht Hw.
  destruct (getUserSettings_spec w) as (settings & w1 & Es & _).
  destruct (translationPhase_spec (getProvidersOrder (s_provider settings))
              (Str text) None w1) as (tr & le & w2 & Ep & _).
  destruct (dictionaryPhase_spec text isWord w2) as (d & w3 & Ed & _).
  exists settings, w1, tr, le, w2, d, w3.
  repeat (split; [assumption|]).
  unfold Background.handleTranslateAndDefine, bind, lift.
  rewrite Ht, Hw, Es, Ep. simpl. rewrite Ed. destruct tr; reflexivity.
Qed.

Lemma translationPhase_all_fail (order : list string) (text : value)
    (lastError : option exn) (w : World) :
  (forall pk, In pk order ->
     translationCache w !! cacheKey pk text = None
     /\ providerFails net pk text) ->
  exists le w', translationPhase order text lastError w = (Val (None, le), w').
Proof.
  intros Hfail.
  destruct (translationPhase_spec order text lastError w)
    as (tr & le & w' & Ep & _ & _ & _ & Hc).
  destruct tr as [r|]; [|eauto].
  destruct Hc as (pk & Hin & [[Hhit _]|(_ & _ & _ & _ & _ & _ & w0 & w1 & Hcall)]);
    destruct (Hfail pk Hin) as [Hmiss Hf].
  - congruence.
  - exfalso. apply (Hf w0 r). by rewrite Hcall.
Qed.

(** The dictionary phase on any message content: at most one request,
    to the dictionary, and none unless [isWord] is truthy; the
    translation cache is not touched. *)
Lemma dictionaryPhase_calls (text isWord : value) (w : World) :
  exists out w' dpart,
    dictionaryPhase text isWord w = (out, w')
    /\ translationCache w' = translationCache w
    /\ netlog w' = (netlog w ++ dpart)%list
    /\ (dpart = [] \/ exists lower, dpart = [ReqDictionary lower])
    /\ (truthy isWord = false -> out = Val None /\ w' = w).
Proof.
  destruct text as [| | | |text| |];
    try (unfold Background.dictionaryPhase; destruct (truthy isWord);
         [exists (Throw TypeError), w, []|exists (Val None), w, []];
         (split; [reflexivity|]); (split; [reflexivity|]);
         (split; [by rewrite app_nil_r|]); (split; [by left|]);
         (discriminate || auto)).
  destruct (dictionaryPhase_spec text isWord w) as (d & w' & E & Ft & _ & H).
  destruct (truthy isWord).
  - destruct (dictCache w !! ("DICT::" +:+ toLowerCase text)).
    + destruct H as [_ ->]. exists (Val d), w, [].
      split; [exact E|]. split; [reflexivity|].
      split; [by rewrite app_nil_r|]. split; [by left|discriminate].
    + destruct H as [Hn _].
      exists (Val d), w', (issuedDictionary (toLowerCase text)).
      split; [exact E|]. split; [exact Ft|]. split; [exact Hn|].
      split; [|discriminate].
      destruct (issuedDictionary_cases (toLowerCase text)) as [->| ->]; eauto.
  - destruct H as [-> ->]. exists (Val None), w, [].
    split; [exact E|]. split; [reflexivity|].
    split; [by rewrite app_nil_r|]. split; [by left|auto].
Qed.

(** The handler on any object: the three steps, of which only the
    dictionary phase can throw. *)
Lemma handle_object (fields : list (string * value)) (w : World) :
  exists settings w1 tr le w2 out w3,
    getUserSettings w = (Val settings, w1)
    /\ translationPhase (getProvidersOrder (s_provider settings))
         (assoc "text" fields) None w1 = (Val (tr, le), w2)
    /\ dictionaryPhase (assoc "text" fields) (assoc "isWord" fields) w2
       = (out, w3)
    /\ handleTranslateAndDefine (Obj fields) w
       = (match out with
          | Val d => Val match tr with
                         | None => failureResponse d
                         | Some r => successResponse r d
                         end
          | Throw e => Throw e
          end, w3).
Proof.
  destruct (getUserSettings_spec w) as (settings & w1 & Es & _).
  destruct (translationPhase_spec (getProvidersOrder (s_provider settings))
              (assoc "text" fields) None w1) as (tr & le & w2 & Ep & _).
  destruct (dictionaryPhase (assoc "text" fields) (assoc "isWord" fields) w2)
    as [out w3] eqn:Ed.
  exists settings, w1, tr, le, w2, out, w3.
  split; [exact Es|]. split; [exact Ep|]. split; [exact Ed|].
  unfold Background.handleTranslateAndDefine, bind, lift. simpl.
  rewrite Es, Ep. simpl. rewrite Ed. destruct out, tr; reflexivity.
Qed.

(** The network calls of one request: those of the traversal, among the
    providers of the order whose key is not cached, then at most one to
    the dictionary. *)
Lemma handle_calls (fields : list (string * value)) (w : World) :
  exists settings w1 tpart dpart,
    getUserSettings w = (Val settings, w1)
    /\ netlog (snd (handleTranslateAndDefine (Obj fields) w))
       = (netlog w ++ tpart ++ dpart)%list
    /\ sublist tpart
         (candidateRequests (translationCache w)
            (getProvidersOrder (s_provider settings)) (assoc "text" fields))
    /\ (dpart = [] \/ exists lower, dpart = [ReqDictionary lower])
    /\ (truthy (assoc "isWord" fields) = false -> dpart = []).
Proof.
  destruct (handle_object fields w)
    as (settings & w1 & tr & le & w2 & out & w3 & Es & Ep & Ed & Eh).
  destruct (getUserSettings_spec w) as (? & ? & Es' & Ft1 & _ & Fn1 & _).
  rewrite Es in Es'. injection Es' as <- <-.
  destruct (translationPhase_spec (getProvidersOrder (s_provider settings))
              (assoc "text" fields) None w1)
    as (? & ? & ? & Ep' & _ & _ & (tpart & Hn & Hsub) & _).
  rewrite Ep in Ep'. injection Ep' as <- <- <-.
  destruct (dictionaryPhase_calls (assoc "text" fields) (assoc "isWord" fields) w2)
    as (out' & w3' & dpart & Ed' & _ & Hdn & Hd & Hno).
  rewrite Ed in Ed'. injection Ed' as <- <-.
  exists settings, w1, tpart, dpart. split; [exact Es|].
  rewrite Eh. simpl. rewrite Hdn, Hn, Fn1, Ft1 in *.
  split; [by rewrite app_assoc|]. split; [exact Hsub|]. split; [exact Hd|].
  intros Hf. destruct (Hno Hf) as [_ ->].
  rewrite Hn in Hdn. apply (f_equal length) in Hdn.
  rewrite !length_app in Hdn.
  destruct dpart; [reflexivity|simpl in Hdn; lia].
Qed.

(** C1. For a request carrying a string, the response says [success]
    exactly when the traversal of the providers produced a translation,
    whatever the dictionary did. When every provider of the order fails
    (no cached entry, no result from its call) the response is the
    failure object with the fixed message, and it still carries the
    dictionary entry: for a word, a cached entry or the entry a
    successful lookup returns is attached whether or not the translation
    succeeded. *)
Theorem success_iff_translation (text : string) (isWord : bool) (w : World) :
  exists settings w1 tr le w2 d w3 resp,
    getUserSettings w = (Val settings, w1)
    /\ translationPhase (getProvidersOrder (s_provider settings)) (Str text)
         None w1 = (Val (tr, le), w2)
    /\ dictionaryPhase (Str text) (Bool isWord) w2 = (Val d, w3)
    /\ handleTranslateAndDefine (Content.requestMessage text isWord) w
       = (Val resp, w3)
    /\ (success resp = true <-> is_Some tr)
    /\ (tr = None ->
        resp = {| success := false;
                  r_error := Some "翻译失败，请稍后重试。";
                  r_provider := None; r_translation := Null; r_dict := d |})
    /\ ((forall pk, In pk (getProvidersOrder (s_provider settings)) ->
           translationCache w !! cacheKey pk (Str text) = None
           /\ providerFails net pk (Str text)) ->
        tr = None)
    /\ r_dict resp = d
    /\ (isWord = true ->
        forall entry,
          dictCache w !! ("DICT::" +:+ toLowerCase text) = Some entry
          \/ (dictCache w !! ("DICT::" +:+ toLowerCase text) = None
              /\ fst (fetchDictionary (Str text) w2) = Val (Some entry)) ->
          r_dict resp = Some entry).
Proof.
  destruct (handle_string_message (Content.requestMessage text isWord) text
              (Bool isWord) w eq_refl eq_refl)
    as (settings & w1 & tr & le & w2 & d & w3 & Es & Ep & Ed & Eh).
  exists settings, w1, tr, le, w2, d, w3.
  eexists. split; [exact Es|]. split; [exact Ep|]. split; [exact Ed|].
  split; [exact Eh|].
  destruct (getUserSettings_spec w) as (settings' & w1' & Es' & Ft1 & Fd1 & _).
  rewrite Es in Es'. injection Es' as <- <-.
  assert (Hd : r_dict match tr with
                      | Some r => successResponse r d
                      | None => failureResponse d
                      end = d) by (destruct tr; reflexivity).
  split; [|split; [|split; [|split]]].
  - destruct tr; simpl; split; intros H; eauto; try discriminate.
    destruct H as [? H]; discriminate.
  - intros ->. reflexivity.
  - intros Hfail.
    destruct (translationPhase_all_fail
                (getProvidersOrder (s_provider settings)) (Str text) None w1)
      as (le' & w' & E').
    { intros pk Hin. rewrite Ft1. auto. }
    rewrite Ep in E'. congruence.
  - exact Hd.
  - intros -> entry Hentry. rewrite Hd.
    destruct (dictionaryPhase_spec text (Bool true) w2)
      as (d' & w3' & Ed' & _ & _ & Hdict).
    rewrite Ed in Ed'. injection Ed' as <- <-. simpl in Hdict.
    destruct (translationPhase_spec (getProvidersOrder (s_provider settings))
                (Str text) None w1) as (? & ? & ? & Ep' & Fd2 & _).
    rewrite Ep in Ep'. injection Ep' as <- <- <-.
    rewrite Fd2, Fd1 in Hdict.
    destruct Hentry as [Hhit|[Hmiss Hfetch]].
    + rewrite Hhit in Hdict. tauto.
    + rewrite Hmiss, Hfetch in Hdict. tauto.
Qed.

Lemma getProvidersOrder_cases (v : value) :
  getProvidersOrder v = ["libre"]
  \/ getProvidersOrder v = ["mymemory"]
  \/ getProvidersOrder v = ["libre"; "mymemory"].
Proof.
  destruct v; simpl; auto.
  destruct (String.eqb s "libre"); auto.
  destruct (String.eqb s "mymemory"); auto.
Qed.

Lemma callsTo_app (pk : string) (l1 l2 : list Request) :
  callsTo pk (l1 ++ l2) = callsTo pk l1 + callsTo pk l2.
Proof. unfold callsTo. by rewrite List.filter_app, length_app. Qed.

Lemma callsTo_sublist (pk : string) (l1 l2 : list Request) :
  sublist l1 l2 -> callsTo pk l1 <= callsTo pk l2.
Proof.
  unfold callsTo. induction 1 as [|x l1 l2 _ IH|x l1 l2 _ IH]; simpl.
  - lia.
  - destruct (String.eqb (target x) pk); simpl; lia.
  - destruct (String.eqb (target x) pk); simpl; lia.
Qed.

Lemma candidateRequests_cons (cache : gmap string TranslationResult)
    (pk : string) (rest : list string) (text : value) :
  candidateRequests cache (pk :: rest) text
  = ((if cached cache text pk then [] else requestsOf pk text)
     ++ candidateRequests cache rest text)%list.
Proof.
  unfold candidateRequests. cbn [List.filter].
  destruct (cached cache text pk); reflexivity.
Qed.

Lemma callsTo_candidates (cache : gmap string TranslationResult)
    (setting text : value) (pk : string) :
  callsTo pk (candidateRequests cache (getProvidersOrder setting) text) <= 1
  /\ callsTo "dictionary"
       (candidateRequests cache (getProvidersOrder setting) text) = 0.
Proof.
  assert (Hl : requestsOf "libre" text = [ReqLibre text]) by reflexivity.
  assert (Hm : requestsOf "mymemory" text = [ReqMyMemory (to_string text)])
    by reflexivity.
  assert (Hnil : candidateRequests cache [] text = []) by reflexivity.
  destruct (getProvidersOrder_cases setting) as [-> | [-> | ->]];
    rewrite !candidateRequests_cons, Hnil, ?Hl, ?Hm;
    repeat destruct (cached cache text _);
    (split; [|reflexivity]);
    unfold callsTo; cbn [app List.filter target];
    repeat match goal with
           | |- context [String.eqb ?a pk] =>
               destruct (String.eqb_spec a pk); subst
           end; simpl; lia.
Qed.

Lemma candidates_mymemory (cache : gmap string TranslationResult)
    (text : value) (rq : Request) :
  In rq (candidateRequests cache ["mymemory"] text) -> target rq = "mymemory".
Proof.
  unfold candidateRequests. cbn [List.filter].
  destruct (cached cache text "mymemory"); simpl; [tauto|].
  intros [<-|[]]. reflexivity.
Qed.

(** C2. The stored preference selects the providers: "auto" and every
    value other than "libre" and "mymemory" give Libre then MyMemory;
    "libre" gives Libre alone; "mymemory" gives MyMemory alone. So a
    request handled under the preference "mymemory" sends nothing to
    Libre, whatever MyMemory answers. *)
Theorem provider_preference_order :
  getProvidersOrder (Str "auto") = ["libre"; "mymemory"]
  /\ (forall v, v <> Str "libre" -> v <> Str "mymemory" ->
        getProvidersOrder v = ["libre"; "mymemory"])
  /\ getProvidersOrder (Str "libre") = ["libre"]
  /\ getProvidersOrder (Str "mymemory") = ["mymemory"]
  /\ (forall fields w settings w1,
        getUserSettings w = (Val settings, w1) ->
        s_provider settings = Str "mymemory" ->
        exists added,
          netlog (snd (handleTranslateAndDefine (Obj fields) w))
          = (netlog w ++ added)%list
          /\ Forall (fun rq => target rq <> "libre") added).
Proof.
  split; [reflexivity|]. split; [|split; [reflexivity|split; [reflexivity|]]].
  - intros v Hl Hm. destruct v; try reflexivity. simpl.
    destruct (String.eqb_spec s "libre") as [->|_]; [congruence|].
    destruct (String.eqb_spec s "mymemory") as [->|_]; [congruence|].
    reflexivity.
  - intros fields w settings w1 Es Hp.
    destruct (handle_calls fields w)
      as (settings' & w1' & tpart & dpart & Es' & Hn & Hsub & Hd & _).
    rewrite Es in Es'. injection Es' as <- <-.
    rewrite Hp in Hsub. simpl in Hsub.
    exists (tpart ++ dpart)%list. split; [exact Hn|].
    apply Forall_app. split.
    + apply Forall_forall. intros rq Hin.
      assert (Hin' : In rq (candidateRequests (translationCache w)
                              ["mymemory"] (assoc "text" fields))).
      { apply list_elem_of_In. eapply sublist_subseteq; [exact Hsub|].
        exact Hin. }
      rewrite (candidates_mymemory _ _ _ Hin'). discriminate.
    + destruct Hd as [->|[lower ->]]; repeat constructor. discriminate.
Qed.

(** A key belongs to one provider only. *)
Lemma cache_ok_provider (cache : gmap string TranslationResult)
    (pk : string) (text : value) (r : TranslationResult) :
  cache_ok cache -> pk = "libre" \/ pk = "mymemory" ->
  cache !! cacheKey pk text = Some r ->
  truthy (translation r) = true /\ provider r = providerName pk.
Proof.
  intros Hok Hpk Hit. destruct (Hok _ _ Hit) as (Tr & pk' & t' & Hpk' & Hk & Hp).
  split; [exact Tr|]. rewrite Hp.
  destruct Hpk as [-> | ->], Hpk' as [-> | ->]; try reflexivity;
    unfold cacheKey in Hk; simpl in Hk; discriminate.
Qed.

(** No provider is called twice in one request. *)
Lemma handle_at_most_once (fields : list (string * value)) (w : World) :
  exists added,
    netlog (snd (handleTranslateAndDefine (Obj fields) w))
    = (netlog w ++ added)%list
    /\ forall pk, callsTo pk added <= 1.
Proof.
  destruct (handle_calls fields w)
    as (settings & w1 & tpart & dpart & _ & Hn & Hsub & Hd & _).
  exists (tpart ++ dpart)%list. split; [exact Hn|]. intros pk.
  rewrite callsTo_app.
  pose proof (callsTo_sublist pk _ _ Hsub) as Hpk.
  pose proof (callsTo_sublist "dictionary" _ _ Hsub) as Hdict.
  destruct (callsTo_candidates (translationCache w) (s_provider settings)
              (assoc "text" fields) pk) as [H1 H0].
  destruct Hd as [->|[lower ->]]; [unfold callsTo at 2; simpl; lia|].
  unfold callsTo at 2. cbn [List.filter target].
  destruct (String.eqb_spec "dictionary" pk) as [<-|_]; simpl; lia.
Qed.

(** C4. One request walks the provider list once. Across the request no
    provider (and not the dictionary either) is called more than one
    time. The walk ends at the first provider that has a result: on a
    cache hit nothing is called and the world is as before; on a network
    success the only call is that provider's. In particular, when the
    primary provider succeeds, by cache hit or over the network, the
    response names the primary provider and carries its translation,
    and no provider placed after it is called. *)
Theorem traversal_once_first_success :
  (forall fields w,
     exists added,
       netlog (snd (handleTranslateAndDefine (Obj fields) w))
       = (netlog w ++ added)%list
       /\ forall pk, callsTo pk added <= 1)
  /\ (forall primary rest text le w r,
        translationCache w !! cacheKey primary text = Some r ->
        translationPhase (primary :: rest) text le w = (Val (Some r, le), w))
  /\ (forall primary rest text le w r w1,
        translationCache w !! cacheKey primary text = None ->
        callProvider primary text w = (Val (Some r), w1) ->
        translationPhase (primary :: rest) text le w
        = (Val (Some r, le),
           set_translationCache (insert (cacheKey primary text) r) w1)
        /\ netlog w1 = (netlog w ++ requestsOf primary text)%list)
  /\ (forall text isWord w settings w1 primary rest r,
        cache_ok (translationCache w) ->
        getUserSettings w = (Val settings, w1) ->
        getProvidersOrder (s_provider settings) = primary :: rest ->
        translationCache w !! cacheKey primary (Str text) = Some r
        \/ (translationCache w !! cacheKey primary (Str text) = None
            /\ exists w', callProvider primary (Str text) w1
                          = (Val (Some r), w')) ->
        exists resp w3 added,
          handleTranslateAndDefine (Content.requestMessage text isWord) w
          = (Val resp, w3)
          /\ success resp = true
          /\ r_provider resp = Some (providerName primary)
          /\ r_translation resp = translation r
          /\ netlog w3 = (netlog w ++ added)%list
          /\ forall secondary, In secondary rest ->
               callsTo secondary added = 0).
Proof.
  split; [|split; [|split]].
  - exact handle_at_most_once.
  - intros primary rest text le w r Hit.
    rewrite translationPhase_cons, Hit. reflexivity.
  - intros primary rest text le w r w1 Hmiss Hcall.
    destruct (callProvider_spec primary text w) as (out & E & Hout).
    rewrite Hcall in E. injection E as <- ->.
    destruct (Hout r eq_refl) as (Tr & _ & _ & Hiss).
    rewrite translationPhase_cons, Hmiss, Hcall, Tr.
    split; [reflexivity|]. by rewrite netlog_push_requests, Hiss.
  - intros text isWord w settings w1 primary rest r Hok Es Ho Hsucc.
    destruct (handle_string_message (Content.requestMessage text isWord) text
                (Bool isWord) w eq_refl eq_refl)
      as (settings' & w1' & tr & le & w2 & d & w3 & Es' & Ep & Ed & Eh).
    rewrite Es in Es'. injection Es' as <- <-.
    destruct (getUserSettings_spec w) as (? & ? & Es' & Ft1 & _ & Fn1 & _).
    rewrite Es in Es'. injection Es' as <- <-.
    destruct (dictionaryPhase_calls (Str text) (Bool isWord) w2)
      as (out' & w3' & dpart & Ed' & _ & Hdn & Hd & _).
    rewrite Ed in Ed'. injection Ed' as <- <-.
    assert (Hprim : primary = "libre" \/ primary = "mymemory").
    { destruct (getProvidersOrder_cases (s_provider settings)) as [H|[H|H]];
        rewrite H in Ho; injection Ho as <- <-; auto. }
    assert (Hsec : forall secondary, In secondary rest ->
               callsTo secondary (requestsOf primary (Str text)) = 0
               /\ callsTo secondary dpart = 0).
    { intros secondary Hin.
      destruct (getProvidersOrder_cases (s_provider settings)) as [H|[H|H]];
        rewrite H in Ho; injection Ho as <- <-; try destruct Hin as [<-|[]];
        try contradiction.
      split; [reflexivity|]. destruct Hd as [->|[lower ->]]; reflexivity. }
    rewrite Ho, translationPhase_cons, Ft1 in Ep.
    destruct Hsucc as [Hit|[Hmiss [w' Hcall]]].
    + rewrite Hit in Ep. injection Ep as <- <- <-.
      destruct (cache_ok_provider _ _ _ _ Hok Hprim Hit) as [_ Hp].
      exists (successResponse r d), w3, dpart. split; [exact Eh|].
      split; [reflexivity|]. split; [simpl; by rewrite Hp|].
      split; [reflexivity|]. split; [by rewrite Hdn, Fn1|].
      intros secondary Hin. apply Hsec, Hin.
    + destruct (callProvider_spec primary (Str text) w1) as (out & E & Hout).
      rewrite Hcall in E. injection E as <- ->.
      destruct (Hout r eq_refl) as (Tr & Hp & _ & Hiss).
      rewrite Hmiss, Hcall, Tr in Ep. injection Ep as <- <- <-.
      exists (successResponse r d), w3,
        (requestsOf primary (Str text) ++ dpart)%list.
      split; [exact Eh|]. split; [reflexivity|].
      split; [simpl; by rewrite Hp|]. split; [reflexivity|]. split.
      * rewrite Hdn. simpl. rewrite netlog_push_requests, Fn1, Hiss.
        by rewrite <- app_assoc.
      * intros secondary Hin. rewrite callsTo_app.
        destruct (Hsec secondary Hin) as [-> ->]. reflexivity.
Qed.

(** The two loops find the first sub-entry that exposes the field, and
    give its string trimmed. *)
Lemma first_trimmed_exposed (field : string) (phonetics : list value) :
  first_trimmed field phonetics
  = default "" (trim <$> firstExposed field phonetics)
  /\ or_null (first_trimmed field phonetics)
     = trim <$> firstExposed field phonetics.
Proof.
  unfold firstExposed.
  induction phonetics as [|p ps [IH1 IH2]]; [split; reflexivity|].
  assert (Hcons : omap (exposes field) (p :: ps)
                  = match exposes field p with
                    | Some t => t :: omap (exposes field) ps
                    | None => omap (exposes field) ps
                    end) by reflexivity.
  rewrite Hcons. clear Hcons. cbn [first_trimmed].
  destruct p as [| |b|r|t|l|fields]; simpl truthy; cbn [exposes get_opt];
    try (destruct b); try (destruct (negb _)); auto.
  destruct (assoc field fields) as [| | | |t| |]; auto.
  destruct (forallb is_space_char (utf8_chars t)) eqn:E.
  - apply trim_empty_iff in E. rewrite E. simpl. auto.
  - assert (Ht : String.eqb (trim t) "" = false).
    { destruct (String.eqb_spec (trim t) "") as [H|]; [|reflexivity].
      apply trim_empty_iff in H. congruence. }
    rewrite Ht. simpl. split; [reflexivity|].
    unfold or_null, truthy. by rewrite Ht.
Qed.

(** C5, as the code has it. When the dictionary answers the request
    for a word (one whose lower-case form can be written into the
    address, so that the request is sent) with an array whose first
    element is an object with a list of phonetic sub-entries, the lookup
    returns, and its entry has as [ipa] the transcription of the first
    sub-entry whose transcription is a string holding something other
    than white space and, independently, as [audio] the address of the
    first sub-entry whose address is a string holding something other
    than white space; of either string the entry keeps what lies between
    the white space at its two ends. When no sub-entry exposes either,
    the lookup gives [null]. *)
Theorem dictionary_first_match (word : string) (w : World) (status : nat)
    (entry : list (string * value)) (others phonetics : list value) :
  hasLoneSurrogate (toLowerCase word) = false ->
  net (length (netlog w)) (ReqDictionary (toLowerCase word))
  = Responded status (Some (Arr (Obj entry :: others))) ->
  status_ok status = true ->
  assoc "phonetics" entry = Arr phonetics ->
  exists i a,
    fetchDictionary (Str word) w
    = (Val match i, a with
           | None, None => None
           | _, _ => Some {| ipa := i; audio := a |}
           end,
       push_request (ReqDictionary (toLowerCase word)) w)
    /\ keeps (firstExposed "text" phonetics) i
    /\ keeps (firstExposed "audio" phonetics) a.
Proof.
  intros Hs Hnet Hok Hph.
  exists (or_null (first_trimmed "text" phonetics)),
         (or_null (first_trimmed "audio" phonetics)).
  split.
  - unfold Background.fetchDictionary, bind, lift, fetch, encodeURIComponent.
    cbn [call_toLowerCase]. rewrite Hs, Hnet, Hok. simpl. rewrite Hph.
    unfold or_null, truthy.
    destruct (String.eqb (first_trimmed "text" phonetics) "");
      destruct (String.eqb (first_trimmed "audio" phonetics) "");
      reflexivity.
  - destruct (first_trimmed_exposed "text" phonetics) as [_ ->].
    destruct (first_trimmed_exposed "audio" phonetics) as [_ ->].
    split.
    + destruct (firstExposed "text" phonetics); simpl;
        [apply trim_stripped|exact I].
    + destruct (firstExposed "audio" phonetics); simpl;
        [apply trim_stripped|exact I].
Qed.

(** C6. Reading the settings never throws: whatever the store does, a
    settings object comes back. When the read fails (the call throws,
    or the callback sees [lastError]) it is the hardcoded default, whose
    provider is "auto"; so it is when what is stored under the key is
    missing or is not an object. Apart from the read itself, counted
    here, and one console line on a failed read, nothing changes: caches
    and network log are as before. *)
Theorem settings_never_throw (w : World) :
  exists settings w',
    getUserSettings w = (Val settings, w')
    /\ translationCache w' = translationCache w
    /\ dictCache w' = dictCache w
    /\ netlog w' = netlog w
    /\ storageReads w' = S (storageReads w)
    /\ match storage (storageReads w) with
       | GetThrows _ | LastError _ =>
           settings = DEFAULT_SETTINGS
           /\ s_provider settings = Str "auto"
           /\ exists line, console w' = (console w ++ [line])%list
       | Items result =>
           console w' = console w
           /\ match assoc "settings" result with
              | Obj _ => True
              | _ => settings = DEFAULT_SETTINGS
              end
       end.
Proof.
  destruct (getUserSettings_spec w)
    as (settings & w' & E & Ft & Fd & Fn & Fs & H).
  exists settings, w'. repeat (split; [assumption|]).
  destruct (storage (storageReads w)) as [e|message|result] eqn:Hs.
  - destruct H as [-> Hc]. auto.
  - destruct H as [-> Hc]. auto.
  - destruct H as [Hc _]. split; [exact Hc|].
    assert (Hdef : (forall k, get (or (assoc "settings" result) (Obj [])) k
                              = Val Undefined) ->
                   settings = DEFAULT_SETTINGS).
    { intros Hg. unfold Background.getUserSettings, bind, read, modify in E.
      simpl in E. rewrite Hs in E. unfold lift in E. rewrite !Hg in E.
      cbn in E. unfold ret in E. injection E as <- _. reflexivity. }
    destruct (assoc "settings" result) as [| |b|r|t|l|fields];
      try exact I; apply Hdef; intros k; unfold or;
      try reflexivity; destruct (truthy _); reflexivity.
Qed.

Lemma fetchDictionary_fails (word : string) (w : World) :
  dictionaryFails (net (length (netlog w)) (ReqDictionary (toLowerCase word))) ->
  forall entry, fst (fetchDictionary (Str word) w) <> Val (Some entry).
Proof.
  intros Hfail entry.
  unfold Background.fetchDictionary, bind, lift, fetch, encodeURIComponent.
  cbn [call_toLowerCase].
  destruct (hasLoneSurrogate (toLowerCase word)); [discriminate|].
  destruct (net _ _) as [|status body]; [discriminate|].
  cbn [dictionaryFails] in Hfail.
  destruct (status_ok status) eqn:Hok; cbn [negb]; [|discriminate].
  destruct Hfail as [Hf|Hf]; [discriminate|].
  destruct body as [data|]; cbn [json]; [|discriminate].
  unfold ret at 1.
  destruct data as [| | | | |[|d0 ds]|]; try discriminate.
  assert (Hph : exists ps,
            get (or d0 (Obj [])) "phonetics" = Val ps
            /\ forall l, ps = Arr l ->
                 firstExposed "text" l = None /\ firstExposed "audio" l = None).
  { unfold or. destruct (truthy d0) eqn:Td.
    - destruct d0; simpl in Td; try discriminate; cbn [get get_opt] in *;
        eexists; (split; [reflexivity|]); try discriminate.
      intros l Hl. rewrite Hl in Hf. exact Hf.
    - eexists; split; [reflexivity|discriminate]. }
  destruct Hph as (ps & -> & Hps).
  assert (Hnone : forall l, (match ps with Arr l0 => l0 | _ => [] end) = l ->
            first_trimmed "text" l = "" /\ first_trimmed "audio" l = "").
  { intros l <-. destruct ps as [| | | | |l|]; try (split; reflexivity).
    destruct (Hps l eq_refl) as [Ht Ha].
    destruct (first_trimmed_exposed "text" l) as [-> _].
    destruct (first_trimmed_exposed "audio" l) as [-> _].
    rewrite Ht, Ha. split; reflexivity. }
  destruct (Hnone _ eq_refl) as [-> ->]. discriminate.
Qed.

(** C7. For a word, a failing dictionary (no response, a status outside
    2xx, a malformed body, or an entry with neither transcription nor
    audio) does not fail the request: the handler still returns a
    response, whose [success] is decided by the translation alone, whose
    [dict] is what the dictionary cache already held (null on a miss),
    and the dictionary cache is left as it was. When [isWord] is false
    the dictionary is not called at all. *)
Theorem dictionary_failure_harmless (text : string) (w : World) :
  (exists settings w1 tr le w2 resp w3,
     getUserSettings w = (Val settings, w1)
     /\ translationPhase (getProvidersOrder (s_provider settings)) (Str text)
          None w1 = (Val (tr, le), w2)
     /\ handleTranslateAndDefine (Content.requestMessage text true) w
        = (Val resp, w3)
     /\ (success resp = true <-> is_Some tr)
     /\ (dictionaryFails
           (net (length (netlog w2)) (ReqDictionary (toLowerCase text))) ->
         r_dict resp = dictCache w !! ("DICT::" +:+ toLowerCase text)
         /\ dictCache w3 = dictCache w))
  /\ (exists resp w3 added,
        handleTranslateAndDefine (Content.requestMessage text false) w
        = (Val resp, w3)
        /\ r_dict resp = None
        /\ dictCache w3 = dictCache w
        /\ netlog w3 = (netlog w ++ added)%list
        /\ callsTo "dictionary" added = 0).
Proof.
  split.
  - destruct (handle_string_message (Content.requestMessage text true) text
                (Bool true) w eq_refl eq_refl)
      as (settings & w1 & tr & le & w2 & d & w3 & Es & Ep & Ed & Eh).
    exists settings, w1, tr, le, w2. eexists. exists w3.
    split; [exact Es|]. split; [exact Ep|]. split; [exact Eh|]. split.
    { destruct tr; simpl; split; intros H; eauto; try discriminate.
      destruct H as [? H]; discriminate. }
    intros Hfail.
    destruct (getUserSettings_spec w) as (? & ? & Es' & _ & Fd1 & _).
    rewrite Es in Es'. injection Es' as <- <-.
    destruct (translationPhase_spec (getProvidersOrder (s_provider settings))
                (Str text) None w1) as (? & ? & ? & Ep' & Fd2 & _).
    rewrite Ep in Ep'. injection Ep' as <- <- <-.
    destruct (dictionaryPhase_spec text (Bool true) w2)
      as (d' & w3' & Ed' & _ & _ & Hdict).
    rewrite Ed in Ed'. injection Ed' as <- <-. simpl in Hdict.
    rewrite Fd2, Fd1 in Hdict.
    assert (Hd : r_dict match tr with
                        | Some r => successResponse r d
                        | None => failureResponse d
                        end = d) by (destruct tr; reflexivity).
    rewrite Hd.
    destruct (dictCache w !! ("DICT::" +:+ toLowerCase text)) as [hit|].
    + destruct Hdict as [-> ->]. split; [reflexivity|congruence].
    + destruct Hdict as [_ Hdict].
      pose proof (fetchDictionary_fails text w2 Hfail) as Hno.
      destruct (fst (fetchDictionary (Str text) w2)) as [[entry|]|err].
      * exfalso. by apply (Hno entry).
      * destruct Hdict as [-> ->]. split; [reflexivity|congruence].
      * destruct Hdict as [-> ->]. split; [reflexivity|congruence].
  - destruct (handle_string_message (Content.requestMessage text false) text
                (Bool false) w eq_refl eq_refl)
      as (settings & w1 & tr & le & w2 & d & w3 & Es & Ep & Ed & Eh).
    destruct (getUserSettings_spec w) as (? & ? & Es' & _ & Fd1 & Fn1 & _).
    rewrite Es in Es'. injection Es' as <- <-.
    destruct (translationPhase_spec (getProvidersOrder (s_provider settings))
                (Str text) None w1)
      as (? & ? & ? & Ep' & Fd2 & _ & (added & Hn & Hsub) & _).
    rewrite Ep in Ep'. injection Ep' as <- <- <-.
    destruct (dictionaryPhase_spec text (Bool false) w2)
      as (d' & w3' & Ed' & _ & _ & Hdict).
    rewrite Ed in Ed'. injection Ed' as <- <-. simpl in Hdict.
    destruct Hdict as [-> ->].
    eexists. exists w2, added. split; [exact Eh|].
    split; [destruct tr; reflexivity|]. split; [congruence|].
    split; [by rewrite Hn, Fn1|].
    pose proof (callsTo_sublist "dictionary" _ _ Hsub) as Hle.
    destruct (callsTo_candidates (translationCache w1) (s_provider settings)
                (Str text) "dictionary") as [_ H0].
    lia.
Qed.

(** C9. A message whose [type] is "TRANSLATE_AND_DEFINE" gets exactly
    one response, and the listener itself never throws: the response is
    the handler's result when the handler returns, and the failure
    object (no translation, no provider, no dictionary entry, the fixed
    message) when the handler throws. Either way the response has the
    fixed shape: a failure carries the message and neither translation
    nor provider; a success carries a provider and no message. *)
Theorem listener_always_responds (message : value) (w : World) :
  get message "type" = Val (Str "TRANSLATE_AND_DEFINE") ->
  exists resp w',
    onMessage message w = (Val (Bool true, [resp]), w')
    /\ match fst (handleTranslateAndDefine message w) with
       | Val result => resp = result
       | Throw _ =>
           resp = {| success := false;
                     r_error := Some "翻译失败，请稍后重试。";
                     r_provider := None; r_translation := Null;
                     r_dict := None |}
       end
    /\ if success resp
       then r_error resp = None /\ is_Some (r_provider resp)
       else r_error resp = Some "翻译失败，请稍后重试。"
            /\ r_provider resp = None /\ r_translation resp = Null.
Proof.
  intros Hty.
  destruct message as [| | | | | |fields]; simpl in Hty; try discriminate.
  injection Hty as Hty.
  destruct (handle_object fields w)
    as (settings & w1 & tr & le & w2 & out & w3 & _ & _ & _ & Eh).
  unfold Background.onMessage. cbn [truthy negb].
  unfold bind at 1, lift at 1. cbn [get]. rewrite Hty.
  cbn [String.eqb Ascii.eqb Bool.eqb]. cbn iota.
  unfold bind at 1, try_catch, bind at 1. rewrite Eh.
  destruct out as [d|err]; simpl.
  - do 2 eexists. split; [reflexivity|]. split; [reflexivity|].
    destruct tr; simpl; eauto.
  - do 2 eexists. split; [reflexivity|]. split; [reflexivity|]. simpl. auto.
Qed.

(** A traversal of a list in two parts. *)
Lemma translationPhase_app (pre rest : list string) (text : value) :
  forall (lastError : option exn) (w : World),
  translationPhase (pre ++ rest) text lastError w
  = match translationPhase pre text lastError w with
    | (Val (None, le), w1) => translationPhase rest text le w1
    | other => other
    end.
Proof.
  induction pre as [|pk pre IH]; intros lastError w; [reflexivity|].
  rewrite <- app_comm_cons, !translationPhase_cons.
  destruct (translationCache w !! cacheKey pk text); [reflexivity|].
  destruct (callProvider pk text w) as [[[r|]|err] w1]; auto.
  destruct (truthy (translation r)); auto.
Qed.

Lemma cacheKey_inj_provider (pk pk' : string) (text text' : value) :
  pk = "libre" \/ pk = "mymemory" -> pk' = "libre" \/ pk' = "mymemory" ->
  cacheKey pk text = cacheKey pk' text' -> pk = pk'.
Proof.
  intros [-> | ->] [-> | ->] H; try reflexivity;
    unfold cacheKey in H; simpl in H; discriminate.
Qed.

Lemma callsTo_requestsOf (pk : string) (text : value) :
  pk = "libre" \/ pk = "mymemory" -> callsTo pk (requestsOf pk text) = 1.
Proof. intros [-> | ->]; reflexivity. Qed.

(** A provider whose key is cached is not called. *)
Lemma callsTo_cached (cache : gmap string TranslationResult)
    (setting text : value) (pk : string) :
  pk = "libre" \/ pk = "mymemory" ->
  cached cache text pk = true ->
  callsTo pk (candidateRequests cache (getProvidersOrder setting) text) = 0.
Proof.
  intros Hpk Hc.
  assert (Hnil : candidateRequests cache [] text = []) by reflexivity.
  destruct (getProvidersOrder_cases setting) as [-> | [-> | ->]];
    rewrite !candidateRequests_cons, Hnil;
    destruct Hpk as [-> | ->]; rewrite ?Hc;
    repeat destruct (cached cache text _); reflexivity.
Qed.

Lemma handle_cached_no_call (fields : list (string * value)) (w : World)
    (pk : string) :
  pk = "libre" \/ pk = "mymemory" ->
  cached (translationCache w) (assoc "text" fields) pk = true ->
  exists added,
    netlog (snd (handleTranslateAndDefine (Obj fields) w))
    = (netlog w ++ added)%list
    /\ callsTo pk added = 0.
Proof.
  intros Hpk Hc.
  destruct (handle_calls fields w)
    as (settings & w1 & tpart & dpart & _ & Hn & Hsub & Hd & _).
  exists (tpart ++ dpart)%list. split; [exact Hn|].
  rewrite callsTo_app.
  pose proof (callsTo_sublist pk _ _ Hsub) as Hle.
  rewrite (callsTo_cached _ _ _ _ Hpk Hc) in Hle.
  assert (Hd0 : callsTo pk dpart = 0).
  { destruct Hd as [->|[lower ->]]; [reflexivity|].
    destruct Hpk as [-> | ->]; reflexivity. }
  lia.
Qed.

(** When the head provider is not cached, what its call issues comes
    next in the network log. *)
Lemma callsTo_issuedRequests (pk : string) (text : value) :
  pk = "libre" \/ pk = "mymemory" ->
  callsTo pk (issuedRequests pk text)
  = if String.eqb pk "mymemory" && hasLoneSurrogate (to_string text)
    then 0 else 1.
Proof.
  unfold issuedRequests.
  intros [-> | ->]; cbn [String.eqb Ascii.eqb Bool.eqb andb];
    [reflexivity|].
  destruct (hasLoneSurrogate (to_string text)); reflexivity.
Qed.

Lemma translationPhase_miss_calls (primary : string) (rest : list string)
    (text : value) (lastError : option exn) (w : World) :
  translationCache w !! cacheKey primary text = None ->
  exists more,
    netlog (snd (translationPhase (primary :: rest) text lastError w))
    = (netlog w ++ issuedRequests primary text ++ more)%list
    /\ sublist more (candidateRequests (translationCache w) rest text).
Proof.
  intros Hmiss. rewrite translationPhase_cons, Hmiss.
  destruct (callProvider_spec primary text w) as (out & E & _). rewrite E.
  pose proof (netlog_push_requests (issuedRequests primary text) w) as Fn.
  destruct (push_requests_frame (issuedRequests primary text) w) as (Ft & _).
  set (w1 := push_requests (issuedRequests primary text) w) in *.
  assert (Hrest : forall le0 w2, netlog w2 = netlog w1 ->
            translationCache w2 = translationCache w1 ->
            exists more,
              netlog (snd (translationPhase rest text le0 w2))
              = (netlog w ++ issuedRequests primary text ++ more)%list
              /\ sublist more (candidateRequests (translationCache w) rest text)).
  { intros le0 w2 En Et.
    destruct (translationPhase_spec rest text le0 w2)
      as (tr & le & w' & Ep & _ & _ & (added & Hn & Hsub) & _).
    exists added. rewrite Ep. simpl. rewrite Hn, En, Fn.
    split; [by rewrite <- app_assoc|]. by rewrite Et, Ft in Hsub. }
  destruct out as [[r|]|err].
  - destruct (truthy (translation r)).
    + exists []. simpl. split; [by rewrite app_nil_r|apply sublist_nil_l].
    + apply Hrest; reflexivity.
  - apply Hrest; reflexivity.
  - apply Hrest; reflexivity.
Qed.

(** The providers behind the head of an order are other providers. *)
Lemma callsTo_rest (cache : gmap string TranslationResult)
    (setting text : value) (primary : string) (rest : list string) :
  getProvidersOrder setting = primary :: rest ->
  callsTo primary (candidateRequests cache rest text) = 0.
Proof.
  intros Ho.
  destruct (getProvidersOrder_cases setting) as [H|[H|H]];
    rewrite H in Ho; injection Ho as <- <-; try reflexivity.
  rewrite candidateRequests_cons.
  destruct (cached cache text "mymemory"); reflexivity.
Qed.

(** The invariant is kept, and what a request adds to the cache is the
    result some provider call returned. *)
Lemma handle_cache_step (fields : list (string * value)) (w : World) :
  (cache_ok (translationCache w) ->
   cache_ok (translationCache (snd (handleTranslateAndDefine (Obj fields) w))))
  /\ forall k r,
       translationCache (snd (handleTranslateAndDefine (Obj fields) w)) !! k
       = Some r ->
       translationCache w !! k = Some r
       \/ (translationCache w !! k = None
           /\ truthy (translation r) = true
           /\ exists pk w0 w1,
                k = cacheKey pk (assoc "text" fields)
                /\ provider r = providerName pk
                /\ callProvider pk (assoc "text" fields) w0
                   = (Val (Some r), w1)).
Proof.
  destruct (handle_object fields w)
    as (settings & w1 & tr & le & w2 & out & w3 & Es & Ep & Ed & Eh).
  destruct (getUserSettings_spec w) as (? & ? & Es' & Ft1 & _).
  rewrite Es in Es'. injection Es' as <- <-.
  destruct (translationPhase_spec (getProvidersOrder (s_provider settings))
              (assoc "text" fields) None w1)
    as (? & ? & ? & Ep' & _ & _ & _ & Hc).
  rewrite Ep in Ep'. injection Ep' as <- <- <-.
  destruct (dictionaryPhase_calls (assoc "text" fields) (assoc "isWord" fields) w2)
    as (out' & w3' & dpart & Ed' & Ft3 & _).
  rewrite Ed in Ed'. injection Ed' as <- <-.
  rewrite Eh. simpl. rewrite Ft3. rewrite Ft1 in Hc.
  assert (Hsame : translationCache w2 = translationCache w
                  \/ exists pk r,
                       translationCache w !! cacheKey pk (assoc "text" fields)
                       = None
                       /\ translationCache w2
                          = <[cacheKey pk (assoc "text" fields) := r]>
                              (translationCache w)
                       /\ truthy (translation r) = true
                       /\ provider r = providerName pk
                       /\ (pk = "libre" \/ pk = "mymemory")
                       /\ exists w0 w1',
                            callProvider pk (assoc "text" fields) w0
                            = (Val (Some r), w1')).
  { destruct tr as [r|]; [|left; tauto].
    destruct Hc as (pk & _ & [[_ H]|(H1 & H2 & H3 & H4 & H5 & _ & H7)]);
      [left; exact H|right].
    exists pk, r. repeat (split; [assumption|]). exact H7. }
  destruct Hsame as [->|(pk & r & Hmiss & -> & Tr & Hp & Hpk & w0 & w1' & Hcall)].
  { split; [auto|]. intros k r H. left. exact H. }
  split.
  - intros Hok k r' Hk.
    destruct (decide (cacheKey pk (assoc "text" fields) = k)) as [<-|Hne].
    + rewrite lookup_insert_eq in Hk. injection Hk as <-.
      split; [exact Tr|]. exists pk, (assoc "text" fields). auto.
    + rewrite lookup_insert_ne in Hk by exact Hne. apply Hok, Hk.
  - intros k r' Hk.
    destruct (decide (cacheKey pk (assoc "text" fields) = k)) as [<-|Hne].
    + rewrite lookup_insert_eq in Hk. injection Hk as <-. right.
      split; [exact Hmiss|]. split; [exact Tr|].
      exists pk, w0, w1'. auto.
    + rewrite lookup_insert_ne in Hk by exact Hne. left. exact Hk.
Qed.

Lemma order_head_provider (setting : value) (primary : string)
    (rest : list string) :
  getProvidersOrder setting = primary :: rest ->
  primary = "libre" \/ primary = "mymemory".
Proof.
  intros Ho.
  destruct (getProvidersOrder_cases setting) as [H|[H|H]];
    rewrite H in Ho; injection Ho as <- <-; auto.
Qed.

(** C3, as the code has it. A provider whose key is in the cache is not
    called during the request, and a traversal that reaches it returns
    the cached result without any further call. When a request obtains
    its result from a provider over the network (the key was absent
    before and holds the result after), that request called the provider
    exactly once and an identical second request, under the same
    provider order, does not call it again: one call to it across the
    two. The second request returns the same translation and provider
    when that provider is the primary one; behind a primary that failed
    the first time and is asked again, it need not. *)
Theorem cache_hit_and_repeat :
  (forall fields w pk r,
     pk = "libre" \/ pk = "mymemory" ->
     translationCache w !! cacheKey pk (assoc "text" fields) = Some r ->
     exists added,
       netlog (snd (handleTranslateAndDefine (Obj fields) w))
       = (netlog w ++ added)%list
       /\ callsTo pk added = 0)
  /\ (forall pre pk rest text le w r le1 w1,
        translationCache w !! cacheKey pk text = Some r ->
        translationPhase pre text le w = (Val (None, le1), w1) ->
        translationPhase (pre ++ pk :: rest) text le w
        = (Val (Some r, le1), w1))
  /\ (forall text isWord w settings w1 settings2 wA1 pk r resp1 wA,
        pk = "libre" \/ pk = "mymemory" ->
        getUserSettings w = (Val settings, w1) ->
        handleTranslateAndDefine (Content.requestMessage text isWord) w
        = (Val resp1, wA) ->
        getUserSettings wA = (Val settings2, wA1) ->
        getProvidersOrder (s_provider settings2)
        = getProvidersOrder (s_provider settings) ->
        translationCache w !! cacheKey pk (Str text) = None ->
        translationCache wA !! cacheKey pk (Str text) = Some r ->
        exists resp2 wB added1 added2,
          handleTranslateAndDefine (Content.requestMessage text isWord) wA
          = (Val resp2, wB)
          /\ netlog wA = (netlog w ++ added1)%list
          /\ netlog wB = (netlog wA ++ added2)%list
          /\ callsTo pk added1 = 1
          /\ callsTo pk added2 = 0
          /\ success resp1 = true
          /\ r_translation resp1 = translation r
          /\ r_provider resp1 = Some (provider r)
          /\ (forall rest,
                getProvidersOrder (s_provider settings) = pk :: rest ->
                success resp2 = true
                /\ r_translation resp2 = r_translation resp1
                /\ r_provider resp2 = r_provider resp1)).
Proof.
  split; [|split].
  - intros fields w pk r Hpk Hit. apply handle_cached_no_call; [exact Hpk|].
    unfold cached. by rewrite Hit.
  - intros pre pk rest text le w r le1 w1 Hit Hpre.
    rewrite translationPhase_app, Hpre, translationPhase_cons.
    destruct (translationPhase_spec pre text le w)
      as (tr & le' & w' & Ep & _ & _ & _ & Hc).
    rewrite Hpre in Ep. injection Ep as <- <- <-.
    destruct Hc as [-> _]. by rewrite Hit.
  - intros text isWord w settings w1 settings2 wA1 pk r resp1 wA
      Hpk Es E1 Es2 Hord Hmiss Hstored.
    set (fields := [("type", Str "TRANSLATE_AND_DEFINE"); ("text", Str text);
                    ("isWord", Bool isWord)]).
    change (Content.requestMessage text isWord) with (Obj fields) in *.
    (* the first request *)
    destruct (handle_string_message (Obj fields) text (Bool isWord) w
                eq_refl eq_refl)
      as (settings' & w1' & tr & le & w2 & d & w3 & Es' & Ep & Ed & Eh).
    rewrite Es in Es'. injection Es' as <- <-.
    rewrite Eh in E1. injection E1 as <- <-.
    destruct (getUserSettings_spec w) as (? & ? & Es' & Ft1 & _ & Fn1 & _).
    rewrite Es in Es'. injection Es' as <- <-.
    destruct (translationPhase_spec (getProvidersOrder (s_provider settings))
                (Str text) None w1) as (? & ? & ? & Ep' & _ & _ & _ & Hc).
    rewrite Ep in Ep'. injection Ep' as <- <- <-.
    destruct (dictionaryPhase_calls (Str text) (Bool isWord) w2)
      as (out' & w3' & dpart & Ed' & Ft3 & Hdn & Hd & _).
    rewrite Ed in Ed'. injection Ed' as <- <-.
    rewrite Ft3 in Hstored. rewrite Ft1 in Hc.
    assert (Hfirst : tr = Some r
              /\ exists before,
                   netlog w2
                   = (netlog w1 ++ before ++ requestsOf pk (Str text))%list).
    { destruct tr as [r'|].
      - destruct Hc as (pk0 & _ & [[_ Hsame]|(_ & Hins & _ & _ & Hpk0 & Hb & _)]).
        + rewrite Hsame in Hstored. congruence.
        + rewrite Hins in Hstored.
          destruct (decide (cacheKey pk0 (Str text) = cacheKey pk (Str text)))
            as [Hk|Hk].
          * rewrite Hk, lookup_insert_eq in Hstored. injection Hstored as ->.
            rewrite (cacheKey_inj_provider _ _ _ _ Hpk0 Hpk Hk) in Hb. auto.
          * rewrite lookup_insert_ne in Hstored by exact Hk. congruence.
      - destruct Hc as [Hsame _]. rewrite Hsame in Hstored. congruence. }
    destruct Hfirst as [-> (before & Hb)].
    assert (Hn1 : netlog w3
                  = (netlog w
                     ++ (before ++ requestsOf pk (Str text)) ++ dpart)%list).
    { rewrite Hdn, Hb, Fn1. by rewrite <- !app_assoc. }
    assert (Hone : callsTo pk ((before ++ requestsOf pk (Str text)) ++ dpart) = 1).
    { destruct (handle_at_most_once fields w) as (added & Hn & Hle).
      rewrite Eh in Hn. simpl in Hn. rewrite Hn1 in Hn.
      apply app_inv_head in Hn. subst added.
      specialize (Hle pk). rewrite !callsTo_app in *.
      rewrite (callsTo_requestsOf pk (Str text) Hpk) in *. lia. }
    (* the second request *)
    destruct (handle_string_message (Obj fields) text (Bool isWord) w3
                eq_refl eq_refl)
      as (settings2' & wA1' & tr2 & le2 & wB2 & d2 & wB & Es2' & Ep2 & Ed2 & Eh2).
    rewrite Es2 in Es2'. injection Es2' as <- <-.
    destruct (getUserSettings_spec w3) as (? & ? & Es2' & Ft4 & _).
    rewrite Es2 in Es2'. injection Es2' as <- <-.
    destruct (handle_cached_no_call fields w3 pk Hpk) as (added2 & Hn2 & H0).
    { unfold cached. simpl assoc. rewrite Ft3. by rewrite Hstored. }
    rewrite Eh2 in Hn2. simpl in Hn2.
    eexists. exists wB, ((before ++ requestsOf pk (Str text)) ++ dpart)%list,
      added2.
    split; [exact Eh2|]. split; [exact Hn1|]. split; [exact Hn2|].
    split; [exact Hone|]. split; [exact H0|].
    split; [reflexivity|]. split; [reflexivity|]. split; [reflexivity|].
    intros rest Ho. rewrite Hord, Ho, translationPhase_cons, Ft4, Ft3 in Ep2.
    rewrite Hstored in Ep2. injection Ep2 as <- _ _. auto.
Qed.

(** C10, as the code has it. Every entry of the translation cache has a
    truthy translation (a string there is non-empty; a provider that
    answers with a number or an object where text belongs gets that
    value cached) and sits under the key of the provider it names; a
    request keeps this, and the one entry it may add is the result a
    provider call returned for this text. A request that ends without a
    translation leaves the translation cache as it was, and a retry of
    the same text under the same order asks the primary provider again:
    over the network, once, except that MyMemory is not reached for a
    text with a lone surrogate, which cannot be written into its
    address. *)
Theorem cache_holds_successes :
  cache_ok (translationCache emptyWorld)
  /\ (forall fields w,
        cache_ok (translationCache w) ->
        cache_ok (translationCache
                    (snd (handleTranslateAndDefine (Obj fields) w))))
  /\ (forall fields w k r,
        translationCache (snd (handleTranslateAndDefine (Obj fields) w)) !! k
        = Some r ->
        translationCache w !! k = Some r
        \/ (translationCache w !! k = None
            /\ truthy (translation r) = true
            /\ exists pk w0 w1,
                 k = cacheKey pk (assoc "text" fields)
                 /\ provider r = providerName pk
                 /\ callProvider pk (assoc "text" fields) w0
                    = (Val (Some r), w1)))
  /\ (forall text isWord w resp wA,
        handleTranslateAndDefine (Content.requestMessage text isWord) w
        = (Val resp, wA) ->
        success resp = false ->
        translationCache wA = translationCache w
        /\ forall settings w1 settings2 wA1 primary rest,
             getUserSettings w = (Val settings, w1) ->
             getUserSettings wA = (Val settings2, wA1) ->
             getProvidersOrder (s_provider settings2)
             = getProvidersOrder (s_provider settings) ->
             getProvidersOrder (s_provider settings) = primary :: rest ->
             exists added,
               netlog (snd (handleTranslateAndDefine
                              (Content.requestMessage text isWord) wA))
               = (netlog wA ++ added)%list
               /\ callsTo primary added
                  = if String.eqb primary "mymemory" && hasLoneSurrogate text
                    then 0 else 1).
Proof.
  split; [|split; [|split]].
  - intros k r H. simpl in H. by rewrite lookup_empty in H.
  - intros fields w. apply handle_cache_step.
  - intros fields w. apply handle_cache_step.
  - intros text isWord w resp wA E1 Hfail.
    set (fields := [("type", Str "TRANSLATE_AND_DEFINE"); ("text", Str text);
                    ("isWord", Bool isWord)]).
    change (Content.requestMessage text isWord) with (Obj fields) in *.
    destruct (handle_string_message (Obj fields) text (Bool isWord) w
                eq_refl eq_refl)
      as (settings & w1 & tr & le & w2 & d & w3 & Es & Ep & Ed & Eh).
    rewrite Eh in E1. injection E1 as <- <-.
    destruct (getUserSettings_spec w) as (? & ? & Es' & Ft1 & _).
    rewrite Es in Es'. injection Es' as <- <-.
    destruct (translationPhase_spec (getProvidersOrder (s_provider settings))
                (Str text) None w1) as (? & ? & ? & Ep' & _ & _ & _ & Hc).
    rewrite Ep in Ep'. injection Ep' as <- <- <-.
    destruct (dictionaryPhase_calls (Str text) (Bool isWord) w2)
      as (out' & w3' & dpart & Ed' & Ft3 & _).
    rewrite Ed in Ed'. injection Ed' as <- <-.
    destruct tr as [r|]; [discriminate Hfail|].
    destruct Hc as [Hsame Hmiss]. rewrite Ft1 in Hsame, Hmiss.
    split; [congruence|].
    intros settings' w1' settings2 wA1 primary rest Es' Es2 Hord Ho.
    rewrite Es in Es'. injection Es' as <- <-.
    rewrite Ho in Hmiss. apply Forall_inv in Hmiss.
    destruct (handle_string_message (Obj fields) text (Bool isWord) w3
                eq_refl eq_refl)
      as (settings2' & wA1' & tr2 & le2 & wB2 & d2 & wB & Es2' & Ep2 & Ed2 & Eh2).
    rewrite Es2 in Es2'. injection Es2' as <- <-.
    destruct (getUserSettings_spec w3) as (? & ? & Es2' & Ft4 & _ & Fn4 & _).
    rewrite Es2 in Es2'. injection Es2' as <- <-.
    destruct (translationPhase_miss_calls primary rest (Str text) None wA1)
      as (more & Hmore & Hsub).
    { rewrite Ft4, Ft3, Hsame. exact Hmiss. }
    rewrite Hord, Ho in Ep2. rewrite Ep2 in Hmore. simpl in Hmore.
    destruct (dictionaryPhase_calls (Str text) (Bool isWord) wB2)
      as (out2 & wB' & dpart2 & Ed2' & _ & Hdn2 & Hd2 & _).
    rewrite Ed2 in Ed2'. injection Ed2' as <- <-.
    exists (issuedRequests primary (Str text) ++ more ++ dpart2)%list.
    split.
    { rewrite Eh2. simpl. rewrite Hdn2, Hmore, Fn4. by rewrite <- !app_assoc. }
    pose proof (order_head_provider _ _ _ Ho) as Hprim.
    apply (callsTo_sublist primary) in Hsub.
    rewrite (callsTo_rest _ _ _ _ _ Ho) in Hsub.
    assert (Hd0 : callsTo primary dpart2 = 0).
    { destruct Hd2 as [->|[lower ->]]; [reflexivity|].
      destruct Hprim as [-> | ->]; reflexivity. }
    rewrite !callsTo_app, (callsTo_issuedRequests _ _ Hprim), Hd0.
    cbn [to_string]. lia.
Qed.

End WorkerFacts.

(* ================================================================== *)
(** ** The gate in front of the worker *)
(* ================================================================== *)

Section ExtensionFacts.
Import Js Background.

(** C8. A selection whose text is empty or white space only is rejected
    by the content script before anything is sent: no message leaves,
    the state of the script is untouched, and the worker's world (its
    network log included) is as before, so neither a translation
    provider nor the dictionary is contacted. *)
Theorem blank_selection_rejected (net : nat -> Request -> FetchOutcome)
    (storage : nat -> StorageOutcome) (toLowerCase : string -> string)
    (sel : Content.Selection) (now : Z) (overlay_ok : bool)
    (st : Content.State) (w : World) :
  Extension.blank (Content.selected sel) = true ->
  Content.triggerTranslateFromSelection (Some sel) now overlay_ok st
  = (st, None)
  /\ Extension.gesture net storage toLowerCase (Some sel) now overlay_ok st w
     = (Val (st, []), w).
Proof.
  intros Hblank.
  assert (Ht : Content.triggerTranslateFromSelection (Some sel) now
                 overlay_ok st = (st, None)).
  { unfold Content.triggerTranslateFromSelection.
    destruct (Content.isCollapsed sel); [reflexivity|].
    rewrite (trim_blank _ Hblank). reflexivity. }
  split; [exact Ht|]. unfold Extension.gesture. rewrite Ht. reflexivity.
Qed.

End ExtensionFacts.

(* ================================================================== *)
(** ** The model run on concrete environments *)
(* ================================================================== *)

Section Runs.
Import Js Background Scenario.

Lemma cache_ok_empty : cache_ok (translationCache emptyWorld).
Proof. intros k r H. simpl in H. rewrite lookup_empty in H. discriminate H. Defined.

(** Both translation providers answer 503 and the dictionary answers:
    the response is the failure object, with the dictionary entry. *)
Lemma success_iff_translation_witness :
  exists resp w',
    handleTranslateAndDefine netNoTranslation storageEmpty asciiLower
      (Content.requestMessage "Test" true) emptyWorld = (Val resp, w')
    /\ success resp = false
    /\ r_error resp = Some "翻译失败，请稍后重试。"
    /\ r_dict resp = Some {| ipa := Some "/tɛst/"; audio := Some "a.mp3" |}.
Proof.
  destruct (success_iff_translation netNoTranslation storageEmpty asciiLower
              "Test" true emptyWorld)
    as (settings & w1 & tr & le & w2 & d & w3 & resp
        & Es & Ep & Ed & Eh & Hiff & Hnone & Hall & Hd & Hentry).
  vm_compute in Es. injection Es as <- <-.
  exists resp, w3. split; [exact Eh|].
  assert (Htr : tr = None).
  { apply Hall. intros pk Hin. split.
    - destruct Hin as [<-|[<-|[]]]; reflexivity.
    - intros w r. destruct Hin as [<-|[<-|[]]]; vm_compute; discriminate. }
  rewrite (Hentry eq_refl {| ipa := Some "/tɛst/"; audio := Some "a.mp3" |}).
  - rewrite (Hnone Htr). repeat split.
  - right. split; [reflexivity|]. subst tr.
    vm_compute in Ep. injection Ep as <- <-. reflexivity.
Defined.

(** Under the preference "mymemory" with the network down, the only
    translation request goes to MyMemory. *)
Lemma provider_preference_order_witness :
  exists added,
    netlog (snd (handleTranslateAndDefine netDown
                   (storageWith (Str "mymemory")) asciiLower
                   (Obj [("text", Str "Test")]) emptyWorld))
    = (netlog emptyWorld ++ added)%list
    /\ Forall (fun rq => target rq <> "libre") added.
Proof.
  destruct (provider_preference_order netDown (storageWith (Str "mymemory"))
              asciiLower) as (_ & _ & _ & _ & H).
  eapply H; reflexivity.
Defined.

(** The entry of the specification's example with white space around
    what it holds: the first transcription, white space only, is passed
    over, and what is kept has lost the spaces around it. *)
Lemma dictionary_first_match_witness :
  (exists i a,
     fetchDictionary netPadded asciiLower (Str "Test") emptyWorld
     = (Val match i, a with
            | None, None => None
            | _, _ => Some {| ipa := i; audio := a |}
            end,
        push_request (ReqDictionary "test") emptyWorld)
     /\ keeps (firstExposed "text" paddedPhonetics) i
     /\ keeps (firstExposed "audio" paddedPhonetics) a)
  /\ firstExposed "text" paddedPhonetics = Some "　/tɛst/ "
  /\ firstExposed "audio" paddedPhonetics = Some " a.mp3 "
  /\ fetchDictionary netPadded asciiLower (Str "Test") emptyWorld
     = (Val (Some {| ipa := Some "/tɛst/"; audio := Some "a.mp3" |}),
        push_request (ReqDictionary "test") emptyWorld).
Proof.
  split; [|repeat split; reflexivity].
  exact (dictionary_first_match netPadded asciiLower "Test" emptyWorld 200
           _ _ _ eq_refl eq_refl eq_refl eq_refl).
Defined.

(** The example of the specification: the transcription of the third
    sub-entry, the address of the second. *)
Remark dictionary_example :
  fetchDictionary netUp asciiLower (Str "Test") emptyWorld
  = (Val (Some {| ipa := Some "/tɛst/"; audio := Some "a.mp3" |}),
     push_request (ReqDictionary "test") emptyWorld).
Proof. reflexivity. Qed.

(** An audio address that is a space is a non-empty string, and it is
    passed over; the address behind it is taken, without the spaces
    around it. *)
Lemma spaced_audio_counterexample :
  exists entry,
    fetchDictionary netSpacedAudio asciiLower (Str "Test") emptyWorld
    = (Val (Some entry), push_request (ReqDictionary "test") emptyWorld)
    /\ audio entry = Some "b.mp3"
    /\ firstNonEmpty "audio" spacedAudio = Some " "
    /\ audio entry <> firstNonEmpty "audio" spacedAudio.
Proof.
  eexists. split; [reflexivity|]. split; [reflexivity|].
  split; [reflexivity|]. discriminate.
Qed.

(** A selection of a space, an ideographic space and a space. *)
Lemma blank_selection_rejected_witness :
  Content.triggerTranslateFromSelection
    (Some (Content.mkSelection false " 　 ")) 1000 true Content.initialState
  = (Content.initialState, None)
  /\ Extension.gesture netUp storageEmpty asciiLower
       (Some (Content.mkSelection false " 　 ")) 1000 true
       Content.initialState emptyWorld
     = (Val (Content.initialState, []), emptyWorld).
Proof.
  exact (blank_selection_rejected netUp storageEmpty asciiLower
           (Content.mkSelection false " 　 ") 1000 true Content.initialState
           emptyWorld eq_refl).
Defined.

(** Everything answers and nothing is cached: the primary provider
    succeeds over the network and MyMemory is not called. *)
Lemma traversal_once_first_success_witness :
  exists resp w' added,
    handleTranslateAndDefine netUp storageEmpty asciiLower
      (Content.requestMessage "Test" true) emptyWorld = (Val resp, w')
    /\ success resp = true
    /\ r_provider resp = Some "LibreTranslate"
    /\ netlog w' = (netlog emptyWorld ++ added)%list
    /\ callsTo "mymemory" added = 0.
Proof.
  destruct (traversal_once_first_success netUp storageEmpty asciiLower)
    as (_ & _ & _ & H).
  destruct (H "Test" true emptyWorld DEFAULT_SETTINGS (count_read emptyWorld)
              "libre" ["mymemory"]
              {| translation := Str "测试"; provider := "LibreTranslate" |}
              cache_ok_empty eq_refl eq_refl)
    as (resp & w' & added & E & Hs & Hp & _ & Hn & Hsec).
  { right. split; [reflexivity|]. eexists. reflexivity. }
  exists resp, w', added. repeat (split; [assumption|]).
  apply Hsec. left. reflexivity.
Defined.

(** The dictionary answers 404 for a word: the request succeeds, without
    a dictionary entry and without a new cache entry. *)
Lemma dictionary_failure_harmless_witness :
  exists resp w',
    handleTranslateAndDefine netNoDictionary storageEmpty asciiLower
      (Content.requestMessage "Test" true) emptyWorld = (Val resp, w')
    /\ success resp = true
    /\ r_dict resp = None
    /\ dictCache w' = dictCache emptyWorld.
Proof.
  destruct (dictionary_failure_harmless netNoDictionary storageEmpty
              asciiLower "Test" emptyWorld)
    as ((settings & w1 & tr & le & w2 & resp & w3
         & Es & Ep & Eh & Hiff & Hfail) & _).
  vm_compute in Es. injection Es as <- <-.
  vm_compute in Ep. injection Ep as <- <- <-.
  exists resp, w3. split; [exact Eh|].
  split; [apply Hiff; eexists; reflexivity|].
  apply Hfail. left. reflexivity.
Defined.

(** A message whose text is the number 42 and whose [isWord] is true:
    the handler throws at [text.toLowerCase()], and the listener answers
    with the failure object. *)
Lemma listener_always_responds_witness :
  exists resp w',
    onMessage netUp storageEmpty asciiLower
      (Obj [("type", Str "TRANSLATE_AND_DEFINE"); ("text", Num "42");
            ("isWord", Bool true)]) emptyWorld
    = (Val (Bool true, [resp]), w')
    /\ fst (handleTranslateAndDefine netUp storageEmpty asciiLower
              (Obj [("type", Str "TRANSLATE_AND_DEFINE"); ("text", Num "42");
                    ("isWord", Bool true)]) emptyWorld)
       = Throw TypeError
    /\ resp = {| success := false;
                 r_error := Some "翻译失败，请稍后重试。";
                 r_provider := None; r_translation := Null;
                 r_dict := None |}.
Proof.
  destruct (listener_always_responds netUp storageEmpty asciiLower
              (Obj [("type", Str "TRANSLATE_AND_DEFINE"); ("text", Num "42");
                    ("isWord", Bool true)]) emptyWorld eq_refl)
    as (resp & w' & E & Hm & _).
  exists resp, w'. split; [exact E|]. split; [reflexivity|].
  exact Hm.
Defined.

(** The literal reading of C3 fails. Under the order Libre, MyMemory,
    Libre is down for the first request, which MyMemory answers; the
    identical second request asks Libre again, over the network, and
    returns Libre's translation: two calls to Libre, and two different
    translation results. *)
Lemma repeat_differs_counterexample :
  exists resp1 w1 resp2 w2,
    handleTranslateAndDefine netLibreLate storageEmpty asciiLower
      (Content.requestMessage "Test" false) emptyWorld = (Val resp1, w1)
    /\ handleTranslateAndDefine netLibreLate storageEmpty asciiLower
         (Content.requestMessage "Test" false) w1 = (Val resp2, w2)
    /\ success resp1 = true /\ success resp2 = true
    /\ r_provider resp1 = Some "MyMemory"
    /\ r_provider resp2 = Some "LibreTranslate"
    /\ r_translation resp1 <> r_translation resp2
    /\ netlog w2 = [ReqLibre (Str "Test"); ReqMyMemory "Test";
                    ReqLibre (Str "Test")]
    /\ callsTo "libre" (netlog w2) = 2.
Proof.
  do 4 eexists.
  split; [vm_compute; reflexivity|].
  split; [vm_compute; reflexivity|].
  repeat split. discriminate.
Qed.

(** Everything answers: the first request caches Libre's result, the
    second is served from the cache. *)
Lemma cache_hit_and_repeat_witness :
  exists resp1 wA resp2 wB added1 added2,
    handleTranslateAndDefine netUp storageEmpty asciiLower
      (Content.requestMessage "Test" false) emptyWorld = (Val resp1, wA)
    /\ handleTranslateAndDefine netUp storageEmpty asciiLower
         (Content.requestMessage "Test" false) wA = (Val resp2, wB)
    /\ netlog wA = (netlog emptyWorld ++ added1)%list
    /\ netlog wB = (netlog wA ++ added2)%list
    /\ callsTo "libre" added1 = 1
    /\ callsTo "libre" added2 = 0
    /\ r_translation resp2 = r_translation resp1
    /\ r_provider resp2 = r_provider resp1.
Proof.
  destruct (cache_hit_and_repeat netUp storageEmpty asciiLower)
    as (_ & _ & H).
  pose (r := {| translation := Str "测试"; provider := "LibreTranslate" |}).
  assert (E1 : handleTranslateAndDefine netUp storageEmpty asciiLower
                 (Content.requestMessage "Test" false) emptyWorld
               = (Val (successResponse r None),
                  set_translationCache (insert "libre::Test" r)
                    (push_request (ReqLibre (Str "Test"))
                       (count_read emptyWorld)))) by reflexivity.
  destruct (H "Test" false emptyWorld DEFAULT_SETTINGS (count_read emptyWorld)
              DEFAULT_SETTINGS
              (count_read
                 (set_translationCache (insert "libre::Test" r)
                    (push_request (ReqLibre (Str "Test"))
                       (count_read emptyWorld))))
              "libre" r _ _
              (or_introl eq_refl) eq_refl E1 eq_refl eq_refl eq_refl)
    as (resp2 & wB & added1 & added2 & E2 & Hn1 & Hn2 & H1 & H0 & _ & _ & _ & Hsame).
  { simpl. apply lookup_insert_eq. }
  destruct (Hsame ["mymemory"] eq_refl) as (_ & Ht & Hp).
  eexists _, _, resp2, wB, added1, added2.
  split; [exact E1|]. split; [exact E2|]. auto 10.
Defined.

(** Two runs. Libre answers with the number 42 where the translated
    text belongs, and the number is cached: an entry whose translation
    is not a string. Under the preference for MyMemory, every service
    answering, a text with a lone surrogate fails, and its retry sends
    nothing over the network. *)
Lemma cached_number_counterexample :
  (exists resp w1 r,
     handleTranslateAndDefine netLibreNumber storageEmpty asciiLower
       (Content.requestMessage "Test" false) emptyWorld = (Val resp, w1)
     /\ translationCache w1 !! "libre::Test" = Some r
     /\ translation r = Num "42"
     /\ is_string (translation r) = false)
  /\ (exists resp wA,
        handleTranslateAndDefine netUp (storageWith (Str "mymemory"))
          asciiLower (Content.requestMessage unpairedText false) emptyWorld
        = (Val resp, wA)
        /\ success resp = false
        /\ netlog (snd (handleTranslateAndDefine netUp
                          (storageWith (Str "mymemory")) asciiLower
                          (Content.requestMessage unpairedText false) wA))
           = netlog wA).
Proof.
  split.
  - do 3 eexists. split; [vm_compute; reflexivity|].
    split; [vm_compute; reflexivity|]. split; reflexivity.
  - do 2 eexists. split; [vm_compute; reflexivity|].
    split; vm_compute; reflexivity.
Qed.

(** The network is down: the request fails, caches nothing, and its
    retry calls Libre again. *)
Lemma cache_holds_successes_witness :
  exists resp wA added,
    handleTranslateAndDefine netDown storageEmpty asciiLower
      (Content.requestMessage "Test" false) emptyWorld = (Val resp, wA)
    /\ success resp = false
    /\ translationCache wA = translationCache emptyWorld
    /\ netlog (snd (handleTranslateAndDefine netDown storageEmpty asciiLower
                      (Content.requestMessage "Test" false) wA))
       = (netlog wA ++ added)%list
    /\ callsTo "libre" added = 1.
Proof.
  destruct (cache_holds_successes netDown storageEmpty asciiLower)
    as (_ & _ & _ & H).
  destruct (handleTranslateAndDefine netDown storageEmpty asciiLower
              (Content.requestMessage "Test" false) emptyWorld)
    as [out wA] eqn:E1.
  assert (Hout : out = Val (failureResponse None))
    by (vm_compute in E1; injection E1 as <- _; reflexivity).
  subst out.
  destruct (H "Test" false emptyWorld _ wA E1 eq_refl) as (Hc & Hretry).
  destruct (getUserSettings storageEmpty wA) as [s2 wA1] eqn:Es2.
  assert (Hs2 : s2 = Val DEFAULT_SETTINGS)
    by (unfold getUserSettings, bind, read, modify in Es2; simpl in Es2;
        injection Es2 as <- _; reflexivity).
  subst s2.
  destruct (Hretry DEFAULT_SETTINGS (count_read emptyWorld) DEFAULT_SETTINGS
              wA1 "libre" ["mymemory"] eq_refl eq_refl eq_refl eq_refl)
    as (added & Hn & H1).
  exists (failureResponse None), wA, added. auto.
Defined.

(** The handler itself does not look at the text: handed an empty text
    directly, it asks the providers. The check of C8 is the content
    script's. *)
Remark handler_accepts_empty_text :
  netlog (snd (handleTranslateAndDefine netDown storageEmpty asciiLower
                 (Content.requestMessage "" false) emptyWorld))
  = [ReqLibre (Str ""); ReqMyMemory ""].
Proof. reflexivity. Qed.

(** A read that ends in [lastError] gives the default and one console
    line. *)
Remark settings_after_failed_read :
  getUserSettings storageBroken emptyWorld
  = (Val DEFAULT_SETTINGS,
     push_console
       (mkLog warn ["读取设置失败，使用默认设置"; "storage unavailable"] None)
       (count_read emptyWorld)).
Proof. reflexivity. Qed.

(** A stored provider that is not a string comes back as it is, and the
    order falls back to both providers. *)
Remark malformed_provider_setting :
  exists settings w',
    getUserSettings (storageWith (Num "7")) emptyWorld = (Val settings, w')
    /\ s_provider settings = Num "7"
    /\ getProvidersOrder (s_provider settings) = ["libre"; "mymemory"].
Proof. do 2 eexists. split; [reflexivity|]. split; reflexivity. Qed.

End Runs.

(* ================================================================== *)
(** ** More about the worker *)
(* ================================================================== *)

Section MoreWorkerFacts.
Import Js Background.

Variable net : nat -> Request -> FetchOutcome.
Variable storage : nat -> StorageOutcome.
Variable toLowerCase : string -> string.

Local Notation callProvider := (callProvider net).
Local Notation translationPhase := (translationPhase net).
Local Notation fetchDictionary := (fetchDictionary net toLowerCase).
Local Notation dictionaryPhase := (dictionaryPhase net toLowerCase).
Local Notation getUserSettings := (getUserSettings storage).
Local Notation handleTranslateAndDefine :=
  (handleTranslateAndDefine net storage toLowerCase).
Local Notation onMessage := (onMessage net storage toLowerCase).

(** What the dictionary phase does to the world, whatever the message
    carried: the read count stays, and the dictionary cache stays or
    gains one entry under a key it did not hold. *)
Lemma dictionaryPhase_frame (text isWord : value) (w : World) :
  storageReads (snd (dictionaryPhase text isWord w)) = storageReads w
  /\ (dictCache (snd (dictionaryPhase text isWord w)) = dictCache w
      \/ exists k entry,
           dictCache w !! k = None
           /\ dictCache (snd (dictionaryPhase text isWord w))
              = <[k := entry]> (dictCache w)).
Proof.
  destruct text as [| | | |text| |];
    try solve [unfold Background.dictionaryPhase; destruct (truthy isWord);
               simpl; auto].
  destruct (dictionaryPhase_spec net toLowerCase text isWord w)
    as (d & w' & E & _ & Fs & H).
  rewrite E. simpl. split; [exact Fs|].
  destruct (truthy isWord); [|destruct H as [_ ->]; auto].
  destruct (dictCache w !! ("DICT::" +:+ toLowerCase text)) eqn:Hit.
  - destruct H as [_ ->]. auto.
  - destruct H as [_ H].
    destruct (fst (fetchDictionary (Str text) w)) as [[entry|]|err].
    + destruct H as [_ ->]. right. eauto.
    + destruct H as [_ ->]. auto.
    + destruct H as [_ ->]. auto.
Qed.

(** For a word, what the response carries as [dict] is what the
    dictionary cache holds for it after the request. *)
Lemma dictionaryPhase_lookup (text : string) (isWord : value) (w : World)
    (d : option DictionaryEntry) (w' : World) :
  truthy isWord = true ->
  dictionaryPhase (Str text) isWord w = (Val d, w') ->
  dictCache w' !! ("DICT::" +:+ toLowerCase text) = d.
Proof.
  intros Hw E.
  destruct (dictionaryPhase_spec net toLowerCase text isWord w)
    as (d' & w'' & E' & _ & _ & H).
  rewrite E in E'. injection E' as <- <-. rewrite Hw in H.
  destruct (dictCache w !! ("DICT::" +:+ toLowerCase text)) eqn:Hit.
  - destruct H as [-> ->]. exact Hit.
  - destruct H as [_ H].
    destruct (fst (fetchDictionary (Str text) w)) as [[entry|]|err].
    + destruct H as [-> ->]. apply lookup_insert_eq.
    + destruct H as [-> ->]. exact Hit.
    + destruct H as [-> ->]. exact Hit.
Qed.

(** The pieces of a request for a string, with the frame facts of each
    step. *)
Lemma handle_string_steps (text : string) (isWord : bool) (w : World) :
  exists settings w1 tr le w2 d w3,
    getUserSettings w = (Val settings, w1)
    /\ translationPhase (getProvidersOrder (s_provider settings)) (Str text)
         None w1 = (Val (tr, le), w2)
    /\ dictionaryPhase (Str text) (Bool isWord) w2 = (Val d, w3)
    /\ handleTranslateAndDefine (Content.requestMessage text isWord) w
       = (Val match tr with
              | None => failureResponse d
              | Some r => successResponse r d
              end, w3)
    /\ translationCache w1 = translationCache w
    /\ dictCache w2 = dictCache w
    /\ netlog w1 = netlog w
    /\ translationCache w3 = translationCache w2.
Proof.
  destruct (handle_string_message net storage toLowerCase
              (Content.requestMessage text isWord) text (Bool isWord) w
              eq_refl eq_refl)
    as (settings & w1 & tr & le & w2 & d & w3 & Es & Ep & Ed & Eh).
  exists settings, w1, tr, le, w2, d, w3.
  destruct (getUserSettings_spec storage w) as (? & ? & Es' & Ft1 & Fd1 & Fn1 & _).
  rewrite Es in Es'. injection Es' as <- <-.
  destruct (translationPhase_spec net (getProvidersOrder (s_provider settings))
              (Str text) None w1) as (? & ? & ? & Ep' & Fd2 & _).
  rewrite Ep in Ep'. injection Ep' as <- <- <-.
  destruct (dictionaryPhase_spec net toLowerCase text (Bool isWord) w2)
    as (? & ? & Ed' & Ft3 & _).
  rewrite Ed in Ed'. injection Ed' as <- <-.
  repeat (split; [assumption|]). split; [congruence|]. auto.
Qed.


(** X2. Once a request for a word has come back with a dictionary
    entry, a later request for a word with the same lower-case form
    (the same word, or the word in other letter case) gets the same
    entry from the cache: the dictionary is not called and its cache
    does not change. *)
Theorem dictionary_cache_round_trip (text text' : string) (w : World)
    (resp1 : Response) (wA : World) (entry : DictionaryEntry) :
  handleTranslateAndDefine (Content.requestMessage text true) w
  = (Val resp1, wA) ->
  r_dict resp1 = Some entry ->
  toLowerCase text' = toLowerCase text ->
  exists resp2 wB added,
    handleTranslateAndDefine (Content.requestMessage text' true) wA
    = (Val resp2, wB)
    /\ r_dict resp2 = Some entry
    /\ netlog wB = (netlog wA ++ added)%list
    /\ callsTo "dictionary" added = 0
    /\ dictCache wB = dictCache wA.
Proof.
  intros E1 Hd1 Hlow.
  destruct (handle_string_steps text true w)
    as (settings & w1 & tr & le & w2 & d & w3
        & Es & Ep & Ed & Eh & _).
  rewrite Eh in E1. injection E1 as <- <-.
  assert (Hd : d = Some entry) by (destruct tr; exact Hd1).
  subst d.
  pose proof (dictionaryPhase_lookup text (Bool true) w2 _ w3 eq_refl Ed) as Hit.
  destruct (handle_string_steps text' true w3)
    as (settings2 & wa & tr2 & le2 & wb & d2 & wB
        & Es2 & Ep2 & Ed2 & Eh2 & Ft1 & Fd2 & Fn1 & _).
  destruct (translationPhase_spec net (getProvidersOrder (s_provider settings2))
              (Str text') None wa)
    as (? & ? & ? & Ep' & _ & _ & (added & Hn & Hsub) & _).
  rewrite Ep2 in Ep'. injection Ep' as <- <- <-.
  destruct (dictionaryPhase_spec net toLowerCase text' (Bool true) wb)
    as (? & ? & Ed' & _ & _ & H).
  rewrite Ed2 in Ed'. injection Ed' as <- <-. simpl in H.
  rewrite Fd2, Hlow, Hit in H. destruct H as [-> ->].
  eexists. exists wb, added. split; [exact Eh2|].
  split; [destruct tr2; reflexivity|]. split; [by rewrite Hn, Fn1|].
  split; [|exact Fd2].
  pose proof (callsTo_sublist "dictionary" _ _ Hsub) as Hle.
  destruct (callsTo_candidates (translationCache wa) (s_provider settings2)
              (Str text') "dictionary") as [_ H0].
  lia.
Qed.

(** X3. A lookup that found nothing is not remembered: when a request
    for a word comes back without a dictionary entry, the dictionary
    cache has no entry for the word afterwards, and the next request
    for it looks the word up again: it calls the dictionary, once,
    unless the lower-cased word holds a lone surrogate and cannot be
    written into the address, in which case it does not call it. *)
Theorem dictionary_miss_not_cached (text : string) (w : World)
    (resp1 : Response) (wA : World) :
  handleTranslateAndDefine (Content.requestMessage text true) w
  = (Val resp1, wA) ->
  r_dict resp1 = None ->
  dictCache wA !! ("DICT::" +:+ toLowerCase text) = None
  /\ exists added,
       netlog (snd (handleTranslateAndDefine
                      (Content.requestMessage text true) wA))
       = (netlog wA ++ added)%list
       /\ callsTo "dictionary" added
          = if hasLoneSurrogate (toLowerCase text) then 0 else 1.
Proof.
  intros E1 Hd1.
  destruct (handle_string_steps text true w)
    as (settings & w1 & tr & le & w2 & d & w3
        & Es & Ep & Ed & Eh & _).
  rewrite Eh in E1. injection E1 as <- <-.
  assert (Hd : d = None) by (destruct tr; exact Hd1).
  subst d.
  pose proof (dictionaryPhase_lookup text (Bool true) w2 _ w3 eq_refl Ed) as Hmiss.
  split; [exact Hmiss|].
  destruct (handle_string_steps text true w3)
    as (settings2 & wa & tr2 & le2 & wb & d2 & wB
        & Es2 & Ep2 & Ed2 & Eh2 & Ft1 & Fd2 & Fn1 & _).
  destruct (translationPhase_spec net (getProvidersOrder (s_provider settings2))
              (Str text) None wa)
    as (? & ? & ? & Ep' & _ & _ & (added & Hn & Hsub) & _).
  rewrite Ep2 in Ep'. injection Ep' as <- <- <-.
  destruct (dictionaryPhase_spec net toLowerCase text (Bool true) wb)
    as (? & ? & Ed' & _ & _ & H).
  rewrite Ed2 in Ed'. injection Ed' as <- <-. simpl in H.
  rewrite Fd2, Hmiss in H. destruct H as [Hdn _].
  exists (added ++ issuedDictionary (toLowerCase text))%list.
  rewrite Eh2. simpl. split; [rewrite Hdn, Hn, Fn1; by rewrite <- app_assoc|].
  rewrite callsTo_app.
  pose proof (callsTo_sublist "dictionary" _ _ Hsub) as Hle.
  destruct (callsTo_candidates (translationCache wa) (s_provider settings2)
              (Str text) "dictionary") as [_ H0].
  unfold issuedDictionary.
  destruct (hasLoneSurrogate (toLowerCase text)).
  - change (callsTo "dictionary" []) with 0. lia.
  - change (callsTo "dictionary" [ReqDictionary (toLowerCase text)]) with 1.
    lia.
Qed.

(** X4. A message that is not a "TRANSLATE_AND_DEFINE" request (no
    message, no string [type], another type) is left alone: the
    listener returns [undefined] without answering, reads no settings
    and calls nothing. *)
Theorem listener_ignores_other_messages (message : value) (w : World) :
  get_opt message "type" <> Str "TRANSLATE_AND_DEFINE" ->
  onMessage message w = (Val (Undefined, []), w).
Proof.
  intros Hty. unfold Background.onMessage.
  destruct (truthy message) eqn:T; [|reflexivity]. cbn [negb].
  destruct message as [| |b|r|t|l|fields]; try discriminate T;
    try reflexivity.
  cbn [get_opt] in Hty. unfold bind, lift. cbn [get].
  destruct (assoc "type" fields) as [| | | |t| |]; try reflexivity.
  destruct (String.eqb_spec t "TRANSLATE_AND_DEFINE") as [->|_];
    [congruence|reflexivity].
Qed.

(** How one request changes the translation cache. *)
Lemma handle_translationCache_grows (fields : list (string * value))
    (w : World) :
  translationCache (snd (handleTranslateAndDefine (Obj fields) w))
  = translationCache w
  \/ exists k r,
       translationCache w !! k = None
       /\ translationCache (snd (handleTranslateAndDefine (Obj fields) w))
          = <[k := r]> (translationCache w).
Proof.
  destruct (handle_object net storage toLowerCase fields w)
    as (settings & w1 & tr & le & w2 & out & w3 & Es & Ep & Ed & Eh).
  destruct (getUserSettings_spec storage w) as (? & ? & Es' & Ft1 & _).
  rewrite Es in Es'. injection Es' as <- <-.
  destruct (translationPhase_spec net (getProvidersOrder (s_provider settings))
              (assoc "text" fields) None w1)
    as (? & ? & ? & Ep' & _ & _ & _ & Hc).
  rewrite Ep in Ep'. injection Ep' as <- <- <-.
  destruct (dictionaryPhase_calls net toLowerCase (assoc "text" fields)
              (assoc "isWord" fields) w2)
    as (out' & w3' & dpart & Ed' & Ft3 & _).
  rewrite Ed in Ed'. injection Ed' as <- <-.
  rewrite Eh. simpl. rewrite Ft3. rewrite Ft1 in Hc.
  destruct tr as [r|]; [|left; tauto].
  destruct Hc as (pk & _ & [[_ H]|(H1 & H2 & _)]); [left; exact H|right].
  eauto.
Qed.

(** X5. The caches only grow: whatever the message and the network, a
    request keeps every entry of the translation cache and of the
    dictionary cache as it was, and adds at most one entry to each. *)
Theorem caches_only_grow (fields : list (string * value)) (w : World) :
  (forall k r,
     translationCache w !! k = Some r ->
     translationCache (snd (handleTranslateAndDefine (Obj fields) w)) !! k
     = Some r)
  /\ (forall k entry,
        dictCache w !! k = Some entry ->
        dictCache (snd (handleTranslateAndDefine (Obj fields) w)) !! k
        = Some entry)
  /\ size (translationCache (snd (handleTranslateAndDefine (Obj fields) w)))
     <= S (size (translationCache w))
  /\ size (dictCache (snd (handleTranslateAndDefine (Obj fields) w)))
     <= S (size (dictCache w)).
Proof.
  assert (Hdict : dictCache (snd (handleTranslateAndDefine (Obj fields) w))
                  = dictCache w
                  \/ exists k entry,
                       dictCache w !! k = None
                       /\ dictCache (snd (handleTranslateAndDefine
                                            (Obj fields) w))
                          = <[k := entry]> (dictCache w)).
  { destruct (handle_object net storage toLowerCase fields w)
      as (settings & w1 & tr & le & w2 & out & w3 & Es & Ep & Ed & Eh).
    destruct (getUserSettings_spec storage w) as (? & ? & Es' & _ & Fd1 & _).
    rewrite Es in Es'. injection Es' as <- <-.
    destruct (translationPhase_spec net
                (getProvidersOrder (s_provider settings))
                (assoc "text" fields) None w1) as (? & ? & ? & Ep' & Fd2 & _).
    rewrite Ep in Ep'. injection Ep' as <- <- <-.
    destruct (dictionaryPhase_frame (assoc "text" fields)
                (assoc "isWord" fields) w2) as [_ H].
    rewrite Ed in H. simpl in H. rewrite Eh. simpl.
    rewrite Fd2, Fd1 in H. exact H. }
  destruct (handle_translationCache_grows fields w)
    as [->|(k & r & Hk & ->)];
    destruct Hdict as [->|(k' & e' & Hk' & ->)];
    repeat split; intros; auto;
    try (rewrite lookup_insert_ne; [assumption|congruence]);
    try (rewrite map_size_insert_None by assumption); lia.
Qed.

(** X6. Whatever object the handler is given, one request reads the
    settings exactly once and makes at most three network calls, at
    most two when [isWord] is not truthy. *)
Theorem request_effects_bounded (fields : list (string * value))
    (w : World) :
  storageReads (snd (handleTranslateAndDefine (Obj fields) w))
  = S (storageReads w)
  /\ exists added,
       netlog (snd (handleTranslateAndDefine (Obj fields) w))
       = (netlog w ++ added)%list
       /\ length added <= 3
       /\ (truthy (assoc "isWord" fields) = false -> length added <= 2).
Proof.
  split.
  - destruct (handle_object net storage toLowerCase fields w)
      as (settings & w1 & tr & le & w2 & out & w3 & Es & Ep & Ed & Eh).
    destruct (getUserSettings_spec storage w)
      as (? & ? & Es' & _ & _ & _ & Fs1 & _).
    rewrite Es in Es'. injection Es' as <- <-.
    destruct (translationPhase_spec net
                (getProvidersOrder (s_provider settings))
                (assoc "text" fields) None w1) as (? & ? & ? & Ep' & _ & Fs2 & _).
    rewrite Ep in Ep'. injection Ep' as <- <- <-.
    destruct (dictionaryPhase_frame (assoc "text" fields)
                (assoc "isWord" fields) w2) as [Fs3 _].
    rewrite Ed in Fs3. simpl in Fs3. rewrite Eh. simpl. congruence.
  - destruct (handle_calls net storage toLowerCase fields w)
      as (settings & w1 & tpart & dpart & _ & Hn & Hsub & Hd & Hno).
    exists (tpart ++ dpart)%list. split; [exact Hn|].
    apply sublist_length in Hsub.
    assert (Hc : length (candidateRequests (translationCache w)
                           (getProvidersOrder (s_provider settings))
                           (assoc "text" fields)) <= 2).
    { assert (Hnil : candidateRequests (translationCache w) []
                       (assoc "text" fields) = []) by reflexivity.
      destruct (getProvidersOrder_cases (s_provider settings))
        as [-> | [-> | ->]];
        rewrite !candidateRequests_cons, Hnil;
        repeat destruct (cached _ _ _); simpl; lia. }
    rewrite length_app. split.
    + destruct Hd as [->|[lower ->]]; simpl; lia.
    + intros Hf. rewrite (Hno Hf). simpl. lia.
Qed.


(** The listener on a request of the content script. *)
Lemma onMessage_request (text : string) (isWord : bool) (w : World)
    (resp : Response) (w' : World) :
  handleTranslateAndDefine (Content.requestMessage text isWord) w
  = (Val resp, w') ->
  onMessage (Content.requestMessage text isWord) w
  = (Val (Bool true, [resp]), w').
Proof.
  intros E. unfold Background.onMessage, Content.requestMessage in *.
  cbn [truthy negb]. unfold bind at 1, lift at 1. cbn [get assoc].
  cbn [String.eqb Ascii.eqb Bool.eqb]. cbn iota.
  unfold bind at 1, try_catch, bind at 1. rewrite E. reflexivity.
Qed.

End MoreWorkerFacts.

(* ================================================================== *)
(** ** Settings on the page side *)
(* ================================================================== *)

Section SettingsFacts.
Import Js.

Lemma or_truthy_l (a b : value) : truthy a = true -> or a b = a.
Proof. intros H. unfold or. by rewrite H. Qed.

(** Where every property read succeeds, the result is well typed. *)
Lemma normalize_total (raw : value) :
  (forall k, get raw k = Val (get_opt raw k)) ->
  exists u, UserSettings.normalizeSettings raw = Val u
            /\ UserSettings.wellTyped u.
Proof.
  intros Hg. unfold UserSettings.normalizeSettings.
  rewrite !Hg. cbn [UserSettings.res_bind]. eexists. split; [reflexivity|].
  unfold UserSettings.wellTyped. cbn.
  repeat split; try (apply or_truthy_r; reflexivity).
  - destruct (Background.typeof_number (get_opt raw "ttsRate")) eqn:E1;
      [|reflexivity].
    destruct (Background.isNaN (get_opt raw "ttsRate")) eqn:E2;
      [reflexivity|exact E1].
  - destruct (Background.typeof_number (get_opt raw "ttsRate")) eqn:E1;
      [|reflexivity].
    destruct (Background.isNaN (get_opt raw "ttsRate")) eqn:E2;
      [reflexivity|exact E2].
  - destruct (Background.typeof_boolean (get_opt raw "showPronounce"))
      eqn:E; [exact E|reflexivity].
  - destruct (Background.typeof_boolean (get_opt raw "autoPopupOnSelect"))
      eqn:E; [exact E|reflexivity].
Qed.

Lemma get_total (raw : value) :
  raw <> Undefined -> raw <> Null ->
  forall k, get raw k = Val (get_opt raw k).
Proof. intros H1 H2 k. destruct raw; try reflexivity; congruence. Qed.

(** X8. [normalizeSettings] throws on [null] and [undefined] only; on
    any other value it gives a settings object every field of which has
    the expected kind: provider, theme and voice truthy, the rate a
    number that is not NaN, the two switches booleans. *)
Theorem normalizeSettings_well_typed (raw : value) :
  match raw with
  | Undefined | Null => UserSettings.normalizeSettings raw = Throw TypeError
  | _ => exists u,
           UserSettings.normalizeSettings raw = Val u
           /\ UserSettings.wellTyped u
  end.
Proof.
  destruct raw; try reflexivity;
    apply normalize_total; apply get_total; discriminate.
Qed.

Lemma normalize_well_typed_fixed (u : UserSettings.t) :
  UserSettings.wellTyped u ->
  UserSettings.normalizeSettings (UserSettings.toValue u) = Val u.
Proof.
  intros (Hp & Hth & (Hr1 & Hr2) & Hv & Hs & Ha). destruct u; simpl in *.
  unfold UserSettings.normalizeSettings, UserSettings.toValue.
  cbn [get assoc String.eqb Ascii.eqb Bool.eqb UserSettings.res_bind].
  cbn iota. cbn [UserSettings.provider UserSettings.theme UserSettings.ttsRate
                 UserSettings.ttsVoice UserSettings.showPronounce
                 UserSettings.autoPopupOnSelect UserSettings.DEFAULT_SETTINGS].
  rewrite !or_truthy_l by assumption. rewrite Hr1, Hr2, Hs, Ha. reflexivity.
Qed.

(** X9. Normalizing is idempotent: the object [normalizeSettings]
    returns, normalized again, comes back unchanged. *)
Theorem normalizeSettings_idempotent (raw : value) (u : UserSettings.t) :
  UserSettings.normalizeSettings raw = Val u ->
  UserSettings.normalizeSettings (UserSettings.toValue u) = Val u.
Proof.
  intros E. apply normalize_well_typed_fixed.
  destruct (normalize_total raw) as (u' & E' & Hwt).
  - apply get_total; intros ->; discriminate E.
  - congruence.
Qed.

(** X7. The worker and the page read the same settings: when the store
    answers, the five fields [getUserSettings] resolves are the fields
    [normalizeSettings] computes from the same stored value. *)
Theorem settings_agree (storage : nat -> Background.StorageOutcome)
    (w : Background.World) (result : list (string * value)) :
  storage (Background.storageReads w) = Background.Items result ->
  exists u,
    UserSettings.normalizeSettings (or (assoc "settings" result) (Obj []))
    = Val u
    /\ fst (Background.getUserSettings storage w)
       = Val {| Background.s_provider := UserSettings.provider u;
                Background.s_theme := UserSettings.theme u;
                Background.s_ttsRate := UserSettings.ttsRate u;
                Background.s_ttsVoice := UserSettings.ttsVoice u;
                Background.s_showPronounce := UserSettings.showPronounce u |}.
Proof.
  intros Hs.
  set (stored := or (assoc "settings" result) (Obj [])).
  assert (Hg : forall k, get stored k = Val (get_opt stored k)).
  { apply get_total; unfold stored, or;
      (destruct (truthy (assoc "settings" result)) eqn:T; [|discriminate]);
      destruct (assoc "settings" result); discriminate. }
  unfold UserSettings.normalizeSettings, Background.getUserSettings,
    Background.bind, Background.read, Background.modify, Background.lift.
  simpl. rewrite Hs. fold stored. rewrite !Hg.
  cbn [UserSettings.res_bind]. eexists. split; reflexivity.
Qed.

End SettingsFacts.

(* ================================================================== *)
(** ** Gestures, requests and responses *)
(* ================================================================== *)

Section GestureFacts.
Import Js.

(** The checks [triggerTranslateFromSelection] makes, read back from a
    message it sent. *)
Lemma trigger_sent (selection : option Content.Selection) (now : Z)
    (overlay_ok : bool) (st st' : Content.State) (msg : value) :
  Content.triggerTranslateFromSelection selection now overlay_ok st
  = (st', Some msg) ->
  exists sel,
    selection = Some sel
    /\ Content.isCollapsed sel = false
    /\ trim (Content.selected sel) <> ""
    /\ Content.isProbablyEnglish (trim (Content.selected sel)) = true
    /\ (String.eqb (trim (Content.selected sel)) (Content.lastTriggerText st)
        && (now - Content.lastTriggerAt st <? 300)%Z = false)
    /\ overlay_ok = true
    /\ st' = {| Content.lastTriggerText := trim (Content.selected sel);
                Content.lastTriggerAt := now;
                Content.currentRequestId := S (Content.currentRequestId st) |}
    /\ msg = Content.requestMessage (trim (Content.selected sel))
               (Content.isSingleWord (trim (Content.selected sel))).
Proof.
  unfold Content.triggerTranslateFromSelection.
  destruct selection as [sel|]; [|discriminate].
  destruct (Content.isCollapsed sel) eqn:Hc; [discriminate|].
  destruct (String.eqb_spec (trim (Content.selected sel)) "") as [He|He].
  { rewrite He. discriminate. }
  assert (Ht : truthy (Str (trim (Content.selected sel))) = true).
  { simpl. destruct (String.eqb_spec (trim (Content.selected sel)) "");
      [contradiction|reflexivity]. }
  rewrite Ht. cbn [negb].
  destruct (Content.isProbablyEnglish _) eqn:En; [|discriminate]. cbn [negb].
  destruct (_ && _) eqn:Hdeb; [discriminate|].
  destruct overlay_ok; [|discriminate].
  intros [= <- <-]. exists sel. repeat split; auto.
Qed.

(** X10. Whatever the content script sends is a well-formed request: the
    trimmed, non-empty, probably-English text of the selection, with
    [isWord] telling whether it is a single word. The worker's handler
    does not throw on it, and the gesture gets exactly one response,
    the handler's own. *)
Theorem sent_message_answered (net : nat -> Background.Request ->
                                     Background.FetchOutcome)
    (storage : nat -> Background.StorageOutcome)
    (toLowerCase : string -> string)
    (selection : option Content.Selection) (now : Z) (overlay_ok : bool)
    (st st' : Content.State) (msg : value) (w : Background.World) :
  Content.triggerTranslateFromSelection selection now overlay_ok st
  = (st', Some msg) ->
  exists sel text resp w',
    selection = Some sel
    /\ text = trim (Content.selected sel)
    /\ text <> ""
    /\ Content.isProbablyEnglish text = true
    /\ msg = Content.requestMessage text (Content.isSingleWord text)
    /\ Background.handleTranslateAndDefine net storage toLowerCase msg w
       = (Val resp, w')
    /\ Extension.gesture net storage toLowerCase selection now overlay_ok st w
       = (Val (st', [resp]), w').
Proof.
  intros Ht.
  destruct (trigger_sent _ _ _ _ _ _ Ht)
    as (sel & -> & _ & Hne & Hen & _ & _ & _ & ->).
  destruct (handle_string_steps net storage toLowerCase
              (trim (Content.selected sel))
              (Content.isSingleWord (trim (Content.selected sel))) w)
    as (settings & w1 & tr & le & w2 & d & w3 & _ & _ & _ & Eh & _).
  exists sel, (trim (Content.selected sel)). eexists. exists w3.
  repeat (split; [auto; fail|]). split; [exact Eh|].
  unfold Extension.gesture. rewrite Ht.
  unfold Background.bind.
  rewrite (onMessage_request net storage toLowerCase _ _ _ _ _ Eh).
  reflexivity.
Qed.

(** X11. After a request for a text, selecting the same text again
    within 300 ms sends nothing and changes nothing; from 300 ms on it
    sends the same request again, under the next request number. *)
Theorem repeated_selection_debounced (sel sel' : Content.Selection)
    (now now' : Z) (overlay_ok overlay_ok' : bool)
    (st st1 : Content.State) (msg : value) :
  Content.triggerTranslateFromSelection (Some sel) now overlay_ok st
  = (st1, Some msg) ->
  Content.isCollapsed sel' = false ->
  trim (Content.selected sel') = trim (Content.selected sel) ->
  ((now' - now < 300)%Z ->
   Content.triggerTranslateFromSelection (Some sel') now' overlay_ok' st1
   = (st1, None))
  /\ ((300 <= now' - now)%Z ->
      Content.triggerTranslateFromSelection (Some sel') now' true st1
      = ({| Content.lastTriggerText := trim (Content.selected sel);
            Content.lastTriggerAt := now';
            Content.currentRequestId := S (Content.currentRequestId st1) |},
         Some msg)).
Proof.
  intros Ht Hc Hsame.
  destruct (trigger_sent _ _ _ _ _ _ Ht)
    as (sel0 & [= <-] & _ & Hne & Hen & _ & _ & -> & ->).
  assert (Htr : truthy (Str (trim (Content.selected sel))) = true).
  { simpl. destruct (String.eqb_spec (trim (Content.selected sel)) "");
      [contradiction|reflexivity]. }
  unfold Content.triggerTranslateFromSelection.
  rewrite Hc, Hsame, Htr, Hen. cbn [negb Content.lastTriggerText
                                    Content.lastTriggerAt
                                    Content.currentRequestId].
  rewrite String.eqb_refl. cbn [andb]. split; intros Hlt.
  - apply Z.ltb_lt in Hlt. rewrite Hlt. reflexivity.
  - apply Z.ltb_ge in Hlt. rewrite Hlt. reflexivity.
Qed.

(** X12. After a request for a text, a mouse-up over a selection with
    the same text never sends another one, however late it comes and
    whatever the settings: the automatic popup is for new text only. *)
Theorem mouseup_same_text_silent (sel sel' : Content.Selection)
    (now now' : Z) (overlay_ok overlay_ok' : bool)
    (st st1 : Content.State) (msg : value) (autoPopup : value)
    (event : Mouse.Event) (rectUnchanged : bool) :
  Content.triggerTranslateFromSelection (Some sel) now overlay_ok st
  = (st1, Some msg) ->
  trim (Content.selected sel') = trim (Content.selected sel) ->
  Mouse.handleMouseUpForSelection autoPopup event (Some sel') rectUnchanged
    now' overlay_ok' st1 = (st1, None).
Proof.
  intros Ht Hsame.
  destruct (trigger_sent _ _ _ _ _ _ Ht)
    as (sel0 & [= <-] & _ & _ & _ & _ & _ & -> & _).
  unfold Mouse.handleMouseUpForSelection.
  destruct (Mouse.insideOverlay event); [reflexivity|].
  destruct (truthy autoPopup); [|reflexivity]. cbn [negb].
  destruct (Mouse.button event =? 0)%Z; [|reflexivity]. cbn [negb].
  destruct (1 <? Mouse.detail event)%nat; [reflexivity|].
  destruct (Content.isCollapsed sel'); [reflexivity|].
  destruct (negb (truthy (Str (trim (Content.selected sel'))))); [reflexivity|].
  rewrite Hsame. cbn [Content.lastTriggerText].
  rewrite String.eqb_refl. reflexivity.
Qed.

(** Request numbers never go down, and go up by one with each message
    sent. *)
Lemma step_request_id (g : Mouse.Gesture) (st : Content.State) :
  Content.currentRequestId st <= Content.currentRequestId (fst (Mouse.step g st))
  /\ forall st' msg,
       Mouse.step g st = (st', Some msg) ->
       Content.currentRequestId st' = S (Content.currentRequestId st).
Proof.
  assert (Ht : forall selection now ok,
    Content.currentRequestId st
    <= Content.currentRequestId
         (fst (Content.triggerTranslateFromSelection selection now ok st))).
  { intros selection now ok. unfold Content.triggerTranslateFromSelection.
    destruct selection as [sel|]; [|simpl; lia].
    destruct (Content.isCollapsed sel); [simpl; lia|].
    destruct (negb _); [simpl; lia|].
    destruct (negb _); [simpl; lia|].
    destruct (_ && _); [simpl; lia|].
    destruct ok; simpl; lia. }
  split.
  - destruct g as [selection now ok|auto event selection rect now ok];
      [apply Ht|].
    unfold Mouse.step, Mouse.handleMouseUpForSelection.
    destruct (Mouse.insideOverlay event); [simpl; lia|].
    destruct (negb _); [simpl; lia|].
    destruct (negb _); [simpl; lia|].
    destruct (_ <? _)%nat; [simpl; lia|].
    destruct selection as [sel|]; [|simpl; lia].
    destruct (Content.isCollapsed sel); [simpl; lia|].
    destruct (negb _); [simpl; lia|].
    destruct (String.eqb _ _); [simpl; lia|].
    destruct rect; [simpl; lia|]. apply Ht.
  - intros st' msg Hs.
    assert (Hsent : exists selection now ok,
              Content.triggerTranslateFromSelection selection now ok st
              = (st', Some msg)).
    { destruct g as [selection now ok|auto event selection rect now ok];
        [eauto|].
      unfold Mouse.step, Mouse.handleMouseUpForSelection in Hs.
      destruct (Mouse.insideOverlay event); [discriminate|].
      destruct (negb _); [discriminate|].
      destruct (negb _); [discriminate|].
      destruct (_ <? _)%nat; [discriminate|].
      destruct selection as [sel|]; [|discriminate].
      destruct (Content.isCollapsed sel); [discriminate|].
      destruct (negb _); [discriminate|].
      destruct (String.eqb _ _); [discriminate|].
      destruct rect; [discriminate|]. eauto. }
    destruct Hsent as (selection & now & ok & Hsent).
    destruct (trigger_sent _ _ _ _ _ _ Hsent)
      as (sel & _ & _ & _ & _ & _ & _ & -> & _).
    reflexivity.
Qed.

Lemma run_request_id (gs : list Mouse.Gesture) (st : Content.State) :
  Content.currentRequestId st <= Content.currentRequestId (Mouse.run gs st).
Proof.
  revert st. induction gs as [|g gs IH]; intros st; [simpl; lia|].
  unfold Mouse.run in *. simpl.
  pose proof (proj1 (step_request_id g st)).
  specialize (IH (fst (Mouse.step g st))). lia.
Qed.

(** X13. A response that arrives after a newer request was sent is
    dropped: once any later gesture (double click or mouse-up) has sent
    a message, the callback of the earlier request leaves the overlay
    exactly as it is, whatever the response says and whatever gestures
    came in between or after. *)
Theorem stale_response_dropped (showPronounce : value)
    (g g2 : Mouse.Gesture) (gs gs' : list Mouse.Gesture)
    (st st1 st2 : Content.State) (msg msg2 : value)
    (text : string) (lastError : bool) (response : value)
    (v : Overlay.View) :
  Mouse.step g st = (st1, Some msg) ->
  Mouse.step g2 (Mouse.run gs st1) = (st2, Some msg2) ->
  Overlay.onResponse showPronounce (Content.currentRequestId st1) text
    lastError response (Mouse.run gs' st2) v = v.
Proof.
  intros H1 H2.
  pose proof (run_request_id gs st1) as Hm.
  pose proof (proj2 (step_request_id g2 _) _ _ H2) as Hs.
  pose proof (run_request_id gs' st2) as Hm'.
  unfold Overlay.onResponse.
  destruct (Nat.eqb_spec (Content.currentRequestId st1)
              (Content.currentRequestId (Mouse.run gs' st2))) as [He|_];
    [lia|reflexivity].
Qed.

End GestureFacts.

(* ================================================================== *)
(** ** What the overlay shows, what the play button does *)
(* ================================================================== *)

Section OverlayFacts.
Import Js.


Lemma length_utf16_take (units : list N) :
  80 < length units -> length (take 77 units ++ Overlay.ellipsis)%list = 80.
Proof.
  intros H. rewrite length_app, length_take.
  rewrite Nat.min_l by lia. reflexivity.
Qed.

(** X17. The header never holds more than 80 code units: a text of at
    most 80 units is shown whole, a longer one as its first 77 units
    followed by three full stops, 80 units in all. Loading, success and
    failure all set the header this way and keep the whole text as the
    title. *)
Theorem header_at_most_80 (text : string) (showPronounce payload : value)
    (v : Overlay.View) :
  length (Overlay.displayText text) <= 80
  /\ (length (Overlay.utf16 text) <= 80 ->
      Overlay.displayText text = Overlay.utf16 text)
  /\ (80 < length (Overlay.utf16 text) ->
      Overlay.displayText text
      = (take 77 (Overlay.utf16 text) ++ [46; 46; 46]%N)%list
      /\ length (Overlay.displayText text) = 80)
  /\ Overlay.headerText (Overlay.updateOverlayLoading showPronounce text v)
     = Overlay.displayText text
  /\ Overlay.headerText
       (Overlay.updateOverlaySuccess showPronounce text payload v)
     = Overlay.displayText text
  /\ Overlay.headerText
       (Overlay.updateOverlayFailure showPronounce text payload v)
     = Overlay.displayText text
  /\ Overlay.headerTitle
       (Overlay.updateOverlaySuccess showPronounce text payload v) = text.
Proof.
  split; [|split; [|split; [|repeat split; reflexivity]]];
    unfold Overlay.displayText;
    destruct (Nat.ltb_spec 80 (length (Overlay.utf16 text))) as [Hlt|Hge];
    rewrite ?(length_utf16_take _ Hlt); auto; try lia.
Qed.

(** X18. When the browser cannot speak, a click on the play button
    after a successful response that carries a dictionary audio address
    plays exactly that address: at once without speech support; after a
    console warning when a speech call throws before [cancel()] has run;
    after the cancelling of running speech and the console warning when
    [speak()] throws. *)
Theorem dictionary_audio_fallback (toLowerCase : string -> string)
    (settings : UserSettings.t) (voicesLoaded : bool)
    (voices : list Speech.Voice) (showPronounce : value)
    (st : Content.State) (v : Overlay.View) (text : string)
    (resp : Background.Response) (entry : Background.DictionaryEntry)
    (url : string) :
  text <> "" ->
  Background.success resp = true ->
  Background.r_dict resp = Some entry ->
  Background.audio entry = Some url ->
  url <> "" ->
  let data := Overlay.currentData
                (Overlay.onResponse showPronounce (Content.currentRequestId st)
                   text false (Overlay.responseValue resp) st v) in
  (forall speech,
     Speech.handlePlayClick toLowerCase false speech settings voicesLoaded
       voices data = [Speech.PlayAudio (Str url)])
  /\ Speech.handlePlayClick toLowerCase true Speech.ThrowsBeforeCancel
       settings voicesLoaded voices data
     = [Speech.Warn "TTS 调用失败，尝试回退到字典音频";
        Speech.PlayAudio (Str url)]
  /\ Speech.handlePlayClick toLowerCase true Speech.ThrowsAtSpeak
       settings voicesLoaded voices data
     = [Speech.CancelSpeech;
        Speech.Warn "TTS 调用失败，尝试回退到字典音频";
        Speech.PlayAudio (Str url)].
Proof.
  intros Hne Hs Hd Ha Hu data. subst data.
  unfold Overlay.onResponse. rewrite Nat.eqb_refl. cbn [negb].
  destruct resp as [s e p t d]. simpl in Hs, Hd. subst s d.
  destruct entry as [i a]. simpl in Ha. subst a.
  assert (Hsucc : truthy (get_opt (Overlay.responseValue
                    {| Background.success := true; Background.r_error := e;
                       Background.r_provider := p;
                       Background.r_translation := t;
                       Background.r_dict :=
                         Some {| Background.ipa := i;
                                 Background.audio := Some url |} |})
                    "success") = true) by reflexivity.
  assert (Htruthy : truthy (Overlay.responseValue
                    {| Background.success := true; Background.r_error := e;
                       Background.r_provider := p;
                       Background.r_translation := t;
                       Background.r_dict :=
                         Some {| Background.ipa := i;
                                 Background.audio := Some url |} |}) = true)
    by reflexivity.
  rewrite Hsucc, Htruthy. cbn [negb orb].
  assert (Haudio : Overlay.cd_audio
            (Overlay.currentData
               (Overlay.updateOverlaySuccess showPronounce text
                  (Overlay.responseValue
                     {| Background.success := true; Background.r_error := e;
                        Background.r_provider := p;
                        Background.r_translation := t;
                        Background.r_dict :=
                          Some {| Background.ipa := i;
                                  Background.audio := Some url |} |}) v))
            = Str url).
  { unfold Overlay.updateOverlaySuccess, Overlay.responseValue.
    cbn [Overlay.currentData Overlay.cd_audio Background.success
         Background.r_error Background.r_translation Background.r_provider
         Background.r_dict Overlay.dictValue Background.ipa Background.audio
         Overlay.optionValue].
    assert (Hdict : forall pre,
              get_opt (Obj (pre ++ [("translation", t);
                                    ("provider", Overlay.optionValue p);
                                    ("dict", Obj [("ipa", Overlay.optionValue i);
                                                  ("audio", Str url)])])%list)
                "dict"
              = Obj [("ipa", Overlay.optionValue i); ("audio", Str url)]
              \/ exists x, In ("dict", x) pre).
    { intros pre. induction pre as [|[k x] pre IH]; [left; reflexivity|].
      cbn [get_opt assoc app].
      destruct (String.eqb_spec "dict" k) as [<-|Hk].
      - right. exists x. left. reflexivity.
      - destruct IH as [IH|[y Hy]]; [left; exact IH|right].
        exists y. right. exact Hy. }
    destruct e as [msg|];
      cbn [app get_opt assoc String.eqb Ascii.eqb Bool.eqb]; cbn iota;
      unfold Overlay.field_or_null;
      cbn [truthy get_opt assoc String.eqb Ascii.eqb Bool.eqb]; cbn iota;
      destruct (String.eqb_spec url "") as [->|_]; try contradiction;
      reflexivity. }
  assert (Htext : Overlay.cd_text
            (Overlay.currentData
               (Overlay.updateOverlaySuccess showPronounce text
                  (Overlay.responseValue
                     {| Background.success := true; Background.r_error := e;
                        Background.r_provider := p;
                        Background.r_translation := t;
                        Background.r_dict :=
                          Some {| Background.ipa := i;
                                  Background.audio := Some url |} |}) v))
            = text) by reflexivity.
  unfold Speech.handlePlayClick, Speech.fallbackAudio.
  rewrite Htext, Haudio.
  assert (Ht : truthy (Str text) = true).
  { simpl. destruct (String.eqb_spec text ""); [contradiction|reflexivity]. }
  assert (Hut : truthy (Str url) = true).
  { simpl. destruct (String.eqb_spec url ""); [contradiction|reflexivity]. }
  rewrite Ht, Hut. split; [|split]; reflexivity.
Qed.

End OverlayFacts.

Section SpeechFacts.
Import Js.

Variable toLowerCase : string -> string.

Lemma find_english_sound (voices : list Speech.Voice) (v : Speech.Voice) :
  List.find (Speech.english toLowerCase) voices = Some v ->
  In v voices /\ Speech.lang v <> "".
Proof.
  intros H. apply List.find_some in H as [Hin He]. split; [exact Hin|].
  unfold Speech.english in He. apply andb_prop in He as [He _].
  simpl in He. intros Heq. rewrite Heq in He. discriminate He.
Qed.

(** X19. The voice chosen for speaking is one of the loaded voices and
    has a language tag; and when the setting asks for en-US or en-GB and
    some loaded voice has exactly that language, the chosen voice has
    exactly that language. *)
Theorem preferred_voice_sound (voicesLoaded : bool)
    (voices : list Speech.Voice) (ttsVoice : value) (v : Speech.Voice) :
  Speech.getPreferredVoice toLowerCase voicesLoaded voices ttsVoice = Some v ->
  In v voices
  /\ Speech.lang v <> ""
  /\ forall p,
       p = "en-US" \/ p = "en-GB" ->
       ttsVoice = Str p ->
       (exists v0, In v0 voices /\ Speech.lang v0 = p) ->
       Speech.lang v = p.
Proof.
  unfold Speech.getPreferredVoice.
  destruct (negb voicesLoaded || (length voices =? 0)%nat); [discriminate|].
  intros H.
  assert (Hexact : forall p,
            p = "en-US" \/ p = "en-GB" ->
            match List.find (Speech.exactly p) voices with
            | Some v1 => Some v1
            | None => match List.find (Speech.english toLowerCase) voices with
                      | Some v1 => Some v1
                      | None => None
                      end
            end = Some v ->
            In v voices /\ Speech.lang v <> ""
            /\ ((exists v0, In v0 voices /\ Speech.lang v0 = p) ->
                Speech.lang v = p)).
  { intros p Hp Hf.
    destruct (List.find (Speech.exactly p) voices) as [v1|] eqn:F1.
    - injection Hf as ->. apply List.find_some in F1 as [Hin He].
      unfold Speech.exactly in He. apply String.eqb_eq in He.
      split; [exact Hin|]. split; [|auto].
      rewrite He. destruct Hp as [-> | ->]; discriminate.
    - destruct (List.find (Speech.english toLowerCase) voices) as [v1|] eqn:F2;
        [|discriminate].
      injection Hf as ->. destruct (find_english_sound _ _ F2) as [Hin Hl].
      split; [exact Hin|]. split; [exact Hl|].
      intros (v0 & Hin0 & Hl0). exfalso.
      pose proof (List.find_none _ _ F1 v0 Hin0) as Hno.
      unfold Speech.exactly in Hno. rewrite Hl0, String.eqb_refl in Hno.
      discriminate Hno. }
  assert (Hplain : match List.find (Speech.english toLowerCase) voices with
                   | Some v1 => Some v1
                   | None => None
                   end = Some v ->
                   In v voices /\ Speech.lang v <> "").
  { destruct (List.find (Speech.english toLowerCase) voices) as [v1|] eqn:F2;
      [|discriminate].
    intros [= ->]. apply find_english_sound, F2. }
  destruct (or ttsVoice (Str "auto")) as [| |b|r|p0|l|fs] eqn:Hpref;
    cbn [app] in H;
    try (destruct (Hplain H) as [Hin Hl]; split; [exact Hin|];
         split; [exact Hl|]; intros p Hp ->;
         destruct Hp as [-> | ->]; discriminate Hpref).
  destruct (String.eqb_spec p0 "en-US") as [->|Hus].
  - cbn [orb app] in H. destruct (Hexact "en-US" (or_introl eq_refl) H)
      as (Hin & Hl & Hex).
    split; [exact Hin|]. split; [exact Hl|].
    intros p Hp -> Hv0. destruct Hp as [-> | ->]; [auto|discriminate Hpref].
  - destruct (String.eqb_spec p0 "en-GB") as [->|Hgb].
    + cbn [orb app] in H. destruct (Hexact "en-GB" (or_intror eq_refl) H)
        as (Hin & Hl & Hex).
      split; [exact Hin|]. split; [exact Hl|].
      intros p Hp -> Hv0. destruct Hp as [-> | ->]; [discriminate Hpref|auto].
    + cbn [orb app] in H. destruct (Hplain H) as [Hin Hl].
      split; [exact Hin|]. split; [exact Hl|].
      intros p Hp -> _. exfalso.
      destruct Hp as [-> | ->]; cbv in Hpref; injection Hpref as <-;
        congruence.
Qed.

Lemma spell_length (text : string) :
  text <> "" -> String.length (Speech.spell text) = 2 * String.length text - 1.
Proof.
  induction text as [|a rest IH]; [congruence|]. intros _.
  destruct rest as [|b rest]; [reflexivity|].
  change (Speech.spell (String a (String b rest)))
    with (String a (String " " (Speech.spell (String b rest)))).
  cbn [String.length]. rewrite IH by discriminate. cbn [String.length]. lia.
Qed.

Lemma withoutSpaces_spell (text : string) :
  Content.all_bytes Speech.is_upper text = true ->
  Speech.withoutSpaces (Speech.spell text) = text.
Proof.
  assert (Hup : forall a, Speech.is_upper a = true -> Ascii.eqb a " " = false).
  { intros a Ha. destruct (Ascii.eqb_spec a " ") as [->|]; [|reflexivity].
    discriminate Ha. }
  induction text as [|a rest IH]; [reflexivity|].
  cbn [Content.all_bytes]. intros H. apply andb_prop in H as [Ha Hrest].
  destruct rest as [|b rest].
  - cbn [Speech.spell Speech.withoutSpaces]. by rewrite (Hup a Ha).
  - change (Speech.spell (String a (String b rest)))
      with (String a (String " " (Speech.spell (String b rest)))).
    cbn [Speech.withoutSpaces]. rewrite (Hup a Ha).
    change (Ascii.eqb " " " ") with true. cbn iota.
    by rewrite (IH Hrest).
Qed.

(** X20. An acronym (two to ten capital letters) is spoken letter by
    letter: when the browser can speak, the play button cancels any
    running speech and speaks the letters of the text separated by
    single spaces, which is 2n - 1 characters for n letters and gives
    the text back when the spaces are taken out. *)
Theorem acronym_spelled_out (settings : UserSettings.t) (voicesLoaded : bool)
    (voices : list Speech.Voice) (cd : Overlay.CurrentData) :
  Speech.isAcronym (Overlay.cd_text cd) = true ->
  exists u,
    Speech.handlePlayClick toLowerCase true Speech.Speaks settings voicesLoaded
      voices cd = [Speech.CancelSpeech; Speech.Speak u]
    /\ Speech.spoken u = Speech.spell (Overlay.cd_text cd)
    /\ String.length (Speech.spoken u)
       = 2 * String.length (Overlay.cd_text cd) - 1
    /\ Speech.withoutSpaces (Speech.spoken u) = Overlay.cd_text cd.
Proof.
  intros Hac. pose proof Hac as Hac'. unfold Speech.isAcronym in Hac'.
  apply andb_prop in Hac' as [Hac' _]. apply andb_prop in Hac' as [Hup Hlen].
  apply Nat.leb_le in Hlen.
  assert (Hne : Overlay.cd_text cd <> "").
  { intros He. rewrite He in Hlen. simpl in Hlen. lia. }
  assert (Ht : truthy (Str (Overlay.cd_text cd)) = true).
  { simpl. destruct (String.eqb_spec (Overlay.cd_text cd) "");
      [contradiction|reflexivity]. }
  unfold Speech.handlePlayClick. rewrite Ht, Hac. cbn [negb].
  destruct (Speech.getPreferredVoice toLowerCase voicesLoaded voices
              (UserSettings.ttsVoice settings));
    eexists; (split; [reflexivity|]); cbn [Speech.spoken];
    auto using spell_length, withoutSpaces_spell.
Qed.

End SpeechFacts.

(* ================================================================== *)
(** ** More runs *)
(* ================================================================== *)

Section MoreRuns.
Import Js Background Scenario.


(** "Test" looked up, then "TEST" served from the cache. *)
Lemma dictionary_cache_round_trip_witness :
  exists resp1 wA resp2 wB added,
    handleTranslateAndDefine netUp storageEmpty asciiLower
      (Content.requestMessage "Test" true) emptyWorld = (Val resp1, wA)
    /\ handleTranslateAndDefine netUp storageEmpty asciiLower
         (Content.requestMessage "TEST" true) wA = (Val resp2, wB)
    /\ r_dict resp2 = r_dict resp1
    /\ netlog wB = (netlog wA ++ added)%list
    /\ callsTo "dictionary" added = 0.
Proof.
  destruct (handleTranslateAndDefine netUp storageEmpty asciiLower
              (Content.requestMessage "Test" true) emptyWorld)
    as [out wA] eqn:E1.
  assert (Hout : out = Val (successResponse
                              {| translation := Str "测试";
                                 provider := "LibreTranslate" |}
                              (Some {| ipa := Some "/tɛst/";
                                       audio := Some "a.mp3" |})))
    by (vm_compute in E1; injection E1 as <- _; reflexivity).
  subst out.
  destruct (dictionary_cache_round_trip netUp storageEmpty asciiLower
              "Test" "TEST" emptyWorld _ wA _ E1 eq_refl eq_refl)
    as (resp2 & wB & added & E2 & Hd & Hn & H0 & _).
  eexists _, wA, resp2, wB, added. split; [reflexivity|]. auto.
Defined.

(** The dictionary answers 404 twice. *)
Lemma dictionary_miss_not_cached_witness :
  exists resp1 wA added,
    handleTranslateAndDefine netNoDictionary storageEmpty asciiLower
      (Content.requestMessage "Test" true) emptyWorld = (Val resp1, wA)
    /\ dictCache wA !! "DICT::test" = None
    /\ netlog (snd (handleTranslateAndDefine netNoDictionary storageEmpty
                      asciiLower (Content.requestMessage "Test" true) wA))
       = (netlog wA ++ added)%list
    /\ callsTo "dictionary" added = 1.
Proof.
  destruct (handleTranslateAndDefine netNoDictionary storageEmpty asciiLower
              (Content.requestMessage "Test" true) emptyWorld)
    as [out wA] eqn:E1.
  assert (Hout : out = Val (successResponse
                              {| translation := Str "测试";
                                 provider := "LibreTranslate" |} None))
    by (vm_compute in E1; injection E1 as <- _; reflexivity).
  subst out.
  destruct (dictionary_miss_not_cached netNoDictionary storageEmpty asciiLower
              "Test" emptyWorld _ wA E1 eq_refl) as (Hmiss & added & Hn & H1).
  eexists _, wA, added. split; [reflexivity|]. auto.
Defined.

(** A word with a lone surrogate is not looked up: its address cannot
    be written. Libre, which takes the text in a JSON body, translates
    it, and the response carries no dictionary entry. *)
Remark unpaired_word_not_looked_up :
  exists resp wA,
    handleTranslateAndDefine netUp storageEmpty asciiLower
      (Content.requestMessage unpairedText true) emptyWorld = (Val resp, wA)
    /\ success resp = true
    /\ r_dict resp = None
    /\ netlog wA = [ReqLibre (Str unpairedText)].
Proof.
  do 2 eexists. split; [vm_compute; reflexivity|]. repeat split.
Qed.

Lemma listener_ignores_other_messages_witness :
  onMessage netUp storageEmpty asciiLower
    (Obj [("type", Str "PING"); ("text", Str "Test")]) emptyWorld
  = (Val (Undefined, []), emptyWorld).
Proof.
  apply listener_ignores_other_messages. discriminate.
Defined.

(** A stored object with a provider and a rate that is not a number. *)
Lemma settings_agree_witness :
  exists u,
    UserSettings.normalizeSettings
      (Obj [("provider", Str "mymemory"); ("ttsRate", Str "fast")]) = Val u
    /\ fst (getUserSettings
              (fun _ => Items [("settings",
                                Obj [("provider", Str "mymemory");
                                     ("ttsRate", Str "fast")])])
              emptyWorld)
       = Val {| s_provider := Str "mymemory"; s_theme := Str "auto";
                s_ttsRate := Num "1"; s_ttsVoice := Str "auto";
                s_showPronounce := Bool true |}.
Proof.
  destruct (settings_agree
              (fun _ => Items [("settings",
                                Obj [("provider", Str "mymemory");
                                     ("ttsRate", Str "fast")])])
              emptyWorld _ eq_refl) as (u & Hu & Hg).
  exists u. split; [exact Hu|]. reflexivity.
Defined.

Lemma normalizeSettings_idempotent_witness :
  UserSettings.normalizeSettings
    (UserSettings.toValue
       {| UserSettings.provider := Str "libre";
          UserSettings.theme := Str "auto";
          UserSettings.ttsRate := Num "1";
          UserSettings.ttsVoice := Str "auto";
          UserSettings.showPronounce := Bool false;
          UserSettings.autoPopupOnSelect := Bool true |})
  = Val {| UserSettings.provider := Str "libre";
           UserSettings.theme := Str "auto";
           UserSettings.ttsRate := Num "1";
           UserSettings.ttsVoice := Str "auto";
           UserSettings.showPronounce := Bool false;
           UserSettings.autoPopupOnSelect := Bool true |}.
Proof.
  apply (normalizeSettings_idempotent
           (Obj [("provider", Str "libre"); ("ttsRate", Str "fast");
                 ("showPronounce", Bool false)])).
  reflexivity.
Defined.

(** The selection " hello " at time 1000. *)
Lemma sent_message_answered_witness :
  exists resp w',
    Extension.gesture netUp storageEmpty asciiLower
      (Some (Content.mkSelection false " hello ")) 1000 true
      Content.initialState emptyWorld
    = (Val ({| Content.lastTriggerText := "hello";
               Content.lastTriggerAt := 1000;
               Content.currentRequestId := 1 |}, [resp]), w')
    /\ handleTranslateAndDefine netUp storageEmpty asciiLower
         (Content.requestMessage "hello" true) emptyWorld = (Val resp, w').
Proof.
  destruct (sent_message_answered netUp storageEmpty asciiLower
              (Some (Content.mkSelection false " hello ")) 1000 true
              Content.initialState _ _ emptyWorld eq_refl)
    as (sel & text & resp & w' & _ & _ & _ & _ & _ & Eh & Eg).
  exists resp, w'. split; [exact Eg|exact Eh].
Defined.

Lemma repeated_selection_debounced_witness :
  Content.triggerTranslateFromSelection
    (Some (Content.mkSelection false "hello  ")) 1200 true
    {| Content.lastTriggerText := "hello"; Content.lastTriggerAt := 1000;
       Content.currentRequestId := 1 |}
  = ({| Content.lastTriggerText := "hello"; Content.lastTriggerAt := 1000;
        Content.currentRequestId := 1 |}, None).
Proof.
  apply (proj1 (repeated_selection_debounced
                  (Content.mkSelection false " hello ")
                  (Content.mkSelection false "hello  ") 1000 1200 true true
                  Content.initialState _ _ eq_refl eq_refl eq_refl)).
  reflexivity.
Defined.

Lemma mouseup_same_text_silent_witness :
  Mouse.handleMouseUpForSelection (Bool true)
    {| Mouse.insideOverlay := false; Mouse.button := 0; Mouse.detail := 1 |}
    (Some (Content.mkSelection false "hello")) false 9000 true
    {| Content.lastTriggerText := "hello"; Content.lastTriggerAt := 1000;
       Content.currentRequestId := 1 |}
  = ({| Content.lastTriggerText := "hello"; Content.lastTriggerAt := 1000;
        Content.currentRequestId := 1 |}, None).
Proof.
  apply (mouseup_same_text_silent (Content.mkSelection false " hello ")
           (Content.mkSelection false "hello") 1000 9000 true true
           Content.initialState _ _ (Bool true) _ false eq_refl eq_refl).
Defined.

(** A request for "hello", then one for "world"; the answer to the first
    arrives afterwards. *)
Lemma stale_response_dropped_witness :
  Overlay.onResponse (Bool true) 1 "hello" false
    (Overlay.responseValue
       (successResponse {| translation := Str "你好";
                           provider := "LibreTranslate" |} None))
    {| Content.lastTriggerText := "world"; Content.lastTriggerAt := 2000;
       Content.currentRequestId := 2 |}
    Overlay.initialView
  = Overlay.initialView.
Proof.
  apply (stale_response_dropped (Bool true)
           (Mouse.DoubleClick (Some (Content.mkSelection false "hello"))
              1000 true)
           (Mouse.DoubleClick (Some (Content.mkSelection false "world"))
              2000 true)
           [] [] Content.initialState _ _ _ _ "hello" false _
           Overlay.initialView eq_refl eq_refl).
Defined.


(** The response of the example, with no voice loaded. *)
Lemma dictionary_audio_fallback_witness :
  let data :=
    Overlay.currentData
      (Overlay.onResponse (Bool true) 0 "Test" false
         (Overlay.responseValue
            (successResponse {| translation := Str "测试";
                                provider := "LibreTranslate" |}
               (Some {| ipa := None; audio := Some "a.mp3" |})))
         Content.initialState Overlay.initialView) in
  (forall speech,
     Speech.handlePlayClick asciiLower false speech
       UserSettings.DEFAULT_SETTINGS false [] data
     = [Speech.PlayAudio (Str "a.mp3")])
  /\ Speech.handlePlayClick asciiLower true Speech.ThrowsBeforeCancel
       UserSettings.DEFAULT_SETTINGS false [] data
     = [Speech.Warn "TTS 调用失败，尝试回退到字典音频";
        Speech.PlayAudio (Str "a.mp3")]
  /\ Speech.handlePlayClick asciiLower true Speech.ThrowsAtSpeak
       UserSettings.DEFAULT_SETTINGS false [] data
     = [Speech.CancelSpeech;
        Speech.Warn "TTS 调用失败，尝试回退到字典音频";
        Speech.PlayAudio (Str "a.mp3")].
Proof.
  exact (dictionary_audio_fallback asciiLower
           UserSettings.DEFAULT_SETTINGS false [] (Bool true)
           Content.initialState Overlay.initialView "Test"
           (successResponse {| translation := Str "测试";
                               provider := "LibreTranslate" |}
              (Some {| ipa := None; audio := Some "a.mp3" |}))
           {| ipa := None; audio := Some "a.mp3" |} "a.mp3"
           ltac:(discriminate) eq_refl eq_refl eq_refl
           ltac:(discriminate)).
Defined.

(** A British and an American voice, the setting asking for en-US. *)
Lemma preferred_voice_sound_witness :
  Speech.lang {| Speech.voiceName := "Samantha"; Speech.lang := "en-US" |}
  = "en-US"
  /\ Speech.getPreferredVoice asciiLower true
       [{| Speech.voiceName := "Daniel"; Speech.lang := "en-GB" |};
        {| Speech.voiceName := "Samantha"; Speech.lang := "en-US" |}]
       (Str "en-US")
     = Some {| Speech.voiceName := "Samantha"; Speech.lang := "en-US" |}.
Proof.
  assert (E : Speech.getPreferredVoice asciiLower true
                [{| Speech.voiceName := "Daniel"; Speech.lang := "en-GB" |};
                 {| Speech.voiceName := "Samantha"; Speech.lang := "en-US" |}]
                (Str "en-US")
              = Some {| Speech.voiceName := "Samantha";
                        Speech.lang := "en-US" |}) by reflexivity.
  destruct (preferred_voice_sound asciiLower true _ _ _ E) as (_ & _ & H).
  split; [|exact E].
  apply (H "en-US" (or_introl eq_refl) eq_refl).
  eexists. split; [right; left; reflexivity|reflexivity].
Defined.

Lemma acronym_spelled_out_witness :
  exists u,
    Speech.handlePlayClick asciiLower true Speech.Speaks UserSettings.DEFAULT_SETTINGS
      false []
      {| Overlay.cd_text := "NASA"; Overlay.cd_translation := Str "";
         Overlay.cd_provider := Str ""; Overlay.cd_ipa := Null;
         Overlay.cd_audio := Null |}
    = [Speech.CancelSpeech; Speech.Speak u]
    /\ Speech.spoken u = "N A S A".
Proof.
  destruct (acronym_spelled_out asciiLower UserSettings.DEFAULT_SETTINGS false []
              {| Overlay.cd_text := "NASA"; Overlay.cd_translation := Str "";
                 Overlay.cd_provider := Str ""; Overlay.cd_ipa := Null;
                 Overlay.cd_audio := Null |} eq_refl)
    as (u & E & Hs & _).
  exists u. split; [exact E|exact Hs].
Defined.

End MoreRuns.

(* ================================================================== *)
(** ** Which selections become requests *)
(* ================================================================== *)

Section SelectionFacts.
Import Js.

Lemma filter_none {A : Type} (f : A -> bool) (l : list A) :
  (forall x, In x l -> f x = false) -> List.filter f l = [].
Proof.
  induction l as [|x l IH]; intros H; [reflexivity|]. simpl.
  rewrite (H x (or_introl eq_refl)). apply IH. intros y Hy. apply H. by right.
Qed.

(** X14. A selection without any Latin letter (Chinese text, digits,
    punctuation) never becomes a request: nothing is sent and the state
    of the script stays as it is. *)
Theorem no_letters_no_request (sel : Content.Selection) (now : Z)
    (overlay_ok : bool) (st : Content.State) :
  (forall c, In c (utf8_chars (trim (Content.selected sel))) ->
             Content.is_letter_char c = false) ->
  Content.triggerTranslateFromSelection (Some sel) now overlay_ok st
  = (st, None).
Proof.
  intros Hno. unfold Content.triggerTranslateFromSelection.
  destruct (Content.isCollapsed sel); [reflexivity|].
  destruct (negb (truthy _)); [reflexivity|].
  assert (He : Content.isProbablyEnglish (trim (Content.selected sel)) = false).
  { unfold Content.isProbablyEnglish.
    set (cleaned := List.filter _ (utf8_chars _)).
    assert (Hl : List.filter Content.is_letter_char cleaned = []).
    { apply filter_none. intros c Hc. apply Hno.
      unfold cleaned in Hc. apply List.filter_In in Hc. tauto. }
    rewrite Hl. destruct cleaned; [reflexivity|].
    destruct (_ =? 0)%nat; reflexivity. }
  rewrite He. reflexivity.
Qed.

Lemma letter_facts (a : ascii) :
  is_ascii_letter a = true ->
  is_continuation a = false
  /\ is_space_char (Text.single a) = false
  /\ Content.is_removed (Text.single a) = false
  /\ Content.is_letter_char (Text.single a) = true.
Proof.
  destruct a as [[] [] [] [] [] [] [] []]; intros H;
    try discriminate H; repeat split; vm_compute; reflexivity.
Qed.

Lemma letters_chars (s : string) :
  Content.all_bytes is_ascii_letter s = true ->
  utf8_chars s = map Text.single (String.list_ascii_of_string s).
Proof.
  induction s as [|a rest IH]; [reflexivity|].
  cbn [Content.all_bytes]. intros H. apply andb_prop in H as [Ha Hrest].
  cbn [utf8_chars String.list_ascii_of_string map]. rewrite (IH Hrest).
  destruct rest as [|b rest]; [reflexivity|].
  cbn [String.list_ascii_of_string map]. cbn [Content.all_bytes] in Hrest.
  apply andb_prop in Hrest as [Hb _].
  unfold Text.single at 1. cbn [starts_with_continuation].
  destruct (letter_facts b Hb) as [-> _]. reflexivity.
Qed.

Lemma letters_forall (s : string) :
  Content.all_bytes is_ascii_letter s = true ->
  Forall (fun a => is_ascii_letter a = true) (String.list_ascii_of_string s).
Proof.
  induction s as [|a rest IH]; [constructor|].
  cbn [Content.all_bytes]. intros H. apply andb_prop in H as [Ha Hrest].
  constructor; auto.
Qed.

Lemma drop_spaces_letters (l : list ascii) :
  Forall (fun a => is_ascii_letter a = true) l ->
  drop_spaces (map Text.single l) = map Text.single l.
Proof.
  destruct l as [|a l]; [reflexivity|]. intros H.
  apply Forall_inv in H. cbn [map drop_spaces].
  destruct (letter_facts a H) as (_ & -> & _). reflexivity.
Qed.

Lemma concat_single (s : string) :
  concat_chars (map Text.single (String.list_ascii_of_string s)) = s.
Proof.
  induction s as [|a rest IH]; [reflexivity|].
  cbn [String.list_ascii_of_string map]. unfold concat_chars in *.
  cbn [foldr]. rewrite IH. reflexivity.
Qed.

Lemma trim_letters (s : string) :
  Content.all_bytes is_ascii_letter s = true -> trim s = s.
Proof.
  intros H. unfold trim. rewrite (letters_chars s H).
  pose proof (letters_forall s H) as Hf.
  rewrite (drop_spaces_letters _ Hf), <- map_rev.
  rewrite drop_spaces_letters by (apply Forall_rev, Hf).
  rewrite map_rev, rev_involutive. apply concat_single.
Qed.

Lemma english_letters (s : string) :
  s <> "" -> Content.all_bytes is_ascii_letter s = true ->
  Content.isProbablyEnglish s = true.
Proof.
  intros Hne H. unfold Content.isProbablyEnglish.
  rewrite (letters_chars s H). pose proof (letters_forall s H) as Hf.
  assert (Hl : String.list_ascii_of_string s <> [])
    by (destruct s; [congruence|discriminate]).
  revert Hf Hl. generalize (String.list_ascii_of_string s) as l. intros l Hf Hl.
  assert (Hkeep : List.filter (fun c => negb (Content.is_removed c))
                    (map Text.single l) = map Text.single l).
  { clear -Hf. induction Hf as [|a l Ha _ IH]; [reflexivity|].
    cbn [map List.filter].
    destruct (letter_facts a Ha) as (_ & _ & -> & _). cbn [negb].
    by rewrite IH. }
  assert (Hlet : List.filter Content.is_letter_char (map Text.single l)
                 = map Text.single l).
  { clear -Hf. induction Hf as [|a l Ha _ IH]; [reflexivity|].
    cbn [map List.filter].
    destruct (letter_facts a Ha) as (_ & _ & _ & ->). by rewrite IH. }
  assert (Hlen : length16 (map Text.single l) = length l).
  { clear. induction l as [|a l IH]; [reflexivity|].
    unfold length16 in *. cbn [map foldr]. rewrite IH. reflexivity. }
  rewrite Hkeep, Hlet, Hlen, length_map.
  destruct l as [|a l]; [congruence|]. cbn [map].
  cbn [length]. destruct (Nat.eqb_spec (S (length l)) 0); [lia|].
  apply andb_true_intro. split; [apply Nat.ltb_lt|apply Nat.leb_le]; lia.
Qed.

Lemma letters_word (s : string) :
  Content.all_bytes is_ascii_letter s = true ->
  Content.all_bytes Content.is_word_byte s = true.
Proof.
  induction s as [|a rest IH]; [reflexivity|].
  cbn [Content.all_bytes]. intros H. apply andb_prop in H as [Ha Hrest].
  unfold Content.is_word_byte at 1. rewrite Ha, (IH Hrest). reflexivity.
Qed.

(** X15. A selection that is one plain word of ASCII letters, when it
    is not a repeat of the last request and the overlay can be drawn,
    always becomes a request, for exactly that word and marked as a
    word, under the next request number. *)
Theorem plain_word_requested (word : string) (now : Z) (st : Content.State) :
  word <> "" ->
  Content.all_bytes is_ascii_letter word = true ->
  word <> Content.lastTriggerText st ->
  Content.triggerTranslateFromSelection
    (Some (Content.mkSelection false word)) now true st
  = ({| Content.lastTriggerText := word; Content.lastTriggerAt := now;
        Content.currentRequestId := S (Content.currentRequestId st) |},
     Some (Content.requestMessage word true)).
Proof.
  intros Hne Hl Hnew. unfold Content.triggerTranslateFromSelection.
  cbn [Content.isCollapsed Content.selected].
  rewrite (trim_letters word Hl).
  assert (Ht : truthy (Str word) = true).
  { simpl. destruct (String.eqb_spec word ""); [contradiction|reflexivity]. }
  rewrite Ht, (english_letters word Hne Hl). cbn [negb].
  destruct (String.eqb_spec word (Content.lastTriggerText st));
    [contradiction|]. cbn [andb].
  assert (Hw : Content.isSingleWord word = true).
  { unfold Content.isSingleWord. rewrite (trim_letters word Hl).
    destruct word as [|a rest]; [congruence|].
    cbn [Content.all_bytes] in Hl. apply andb_prop in Hl as [Ha Hrest].
    rewrite Ha, (letters_word rest Hrest). reflexivity. }
  rewrite Hw. reflexivity.
Qed.

End SelectionFacts.

Section SelectionRuns.
Import Js.

Lemma no_letters_no_request_witness :
  Content.triggerTranslateFromSelection
    (Some (Content.mkSelection false "你好，2024")) 1000 true
    Content.initialState
  = (Content.initialState, None).
Proof.
  apply no_letters_no_request.
  intros c Hc. vm_compute in Hc.
  repeat (destruct Hc as [<-|Hc]; [reflexivity|]). destruct Hc.
Defined.

Lemma plain_word_requested_witness :
  Content.triggerTranslateFromSelection
    (Some (Content.mkSelection false "hello")) 1000 true Content.initialState
  = ({| Content.lastTriggerText := "hello"; Content.lastTriggerAt := 1000;
        Content.currentRequestId := 1 |},
     Some (Content.requestMessage "hello" true)).
Proof.
  apply plain_word_requested; [discriminate|reflexivity|discriminate].
Defined.

End SelectionRuns.
